(** * Derived analytics of the fleet dashboard

    A shallow embedding of the client-side computations of
    [frontend/app/dashboard/page.tsx]: the schedule aggregator
    ([computeScheduleKpis]), the risk bucket projector ([dynamicKpis]), the
    timeline builder ([buildGanttTasks]), the deferral explainer
    ([deferredJobsList]), the scenario runner ([runWhatIfAnalysis]) and the
    baseline counts that [runPipeline] stores.

    JavaScript numbers are kept behind an interface, [JSNumber], with two
    instances.  [float] is the binary64 numbers the program runs on; what
    is said of the program's sums, quotients and dates is said of it, or of
    every instance.  [Q], the exact rationals, is an idealisation: it
    serves where the inputs of a statement keep the program's arithmetic
    free of rounding (nothing scheduled, the projector at its neutral
    weights), and to say what a sum is in the specification's words.  The
    Date constructor sits behind [JSDate], with its binary64 instance.
    Counters that the program only increments, and array lengths, are
    natural numbers. *)

From Stdlib Require Import ZArith QArith Qround Qabs Lqa Lia Bool String.
From Stdlib Require Import DecimalString Floats.
From Stdlib Require Ascii DecimalNat.
From stdpp Require Import base list.

Local Open Scope Z_scope.

(** ** JavaScript numbers *)

Declare Scope js_scope.
Delimit Scope js_scope with js.

Class JSNumber (num : Type) := {
  num_of_Z : Z -> num;                 (* an integer literal, a length *)
  num_add : num -> num -> num;
  num_sub : num -> num -> num;
  num_mul : num -> num -> num;
  num_div : num -> num -> num;
  num_eqb : num -> num -> bool;        (* a === b *)
  num_leb : num -> num -> bool;        (* a <= b *)
  num_truthy : num -> bool;            (* ToBoolean(a) *)
  Math_max : num -> num -> num;
  Math_min : num -> num -> num;
  Math_round : num -> num;
  Number_toFixed1 : num -> num         (* Number(a.toFixed(1)) *)
}.

Notation "a + b" := (num_add a b) : js_scope.
Notation "a - b" := (num_sub a b) : js_scope.
Notation "a * b" := (num_mul a b) : js_scope.
Notation "a / b" := (num_div a b) : js_scope.
Notation "a === b" := (num_eqb a b) (at level 70, no associativity) : js_scope.
Notation "a <=? b" := (num_leb a b) : js_scope.

(** What the Date constructor makes of the number it is given (TimeClip):
    the time value the Date keeps, which [getTime] returns. *)
Class JSDate (num : Type) := {
  TimeClip : num -> num
}.

Definition num_of_nat {num : Type} `{!JSNumber num} (n : nat) : num :=
  num_of_Z (Z.of_nat n).

(** The decimal literal [m]e-[k], such as 0.35 = [dec 35 2]. *)
Definition dec {num : Type} `{!JSNumber num} (m : Z) (k : nat) : num :=
  (num_of_Z m / num_of_Z (10 ^ Z.of_nat k))%js.

(** [a || b] on numbers. *)
Definition num_or {num : Type} `{!JSNumber num} (a b : num) : num :=
  if num_truthy a then a else b.

(** *** Exact rationals *)

Module Exact.

Local Open Scope Q_scope.

(** Math.round: the nearest integer, a tie going towards +infinity. *)
Definition round (x : Q) : Q := inject_Z (Qfloor (x + (1 # 2))).

(** toFixed(1) rounds the magnitude to the nearest tenth, a tie going away
    from zero, and keeps the sign. *)
Definition toFixed1 (x : Q) : Q :=
  let tenths := inject_Z (Qfloor (Qabs x * 10 + (1 # 2))) / 10 in
  if Qle_bool 0 x then tenths else - tenths.

Definition max (a b : Q) : Q := if Qle_bool a b then b else a.
Definition min (a b : Q) : Q := if Qle_bool a b then a else b.

#[global] Instance number : JSNumber Q := {
  num_of_Z := inject_Z;
  num_add := Qplus;
  num_sub := Qminus;
  num_mul := Qmult;
  num_div := Qdiv;
  num_eqb := Qeq_bool;
  num_leb := Qle_bool;
  num_truthy := fun a => negb (Qeq_bool a 0);
  Math_max := max;
  Math_min := min;
  Math_round := round;
  Number_toFixed1 := toFixed1
}.

End Exact.

(** *** Binary64 *)

Module Binary64.

Local Open Scope float_scope.

(** The binary64 nearest to an integer. *)
Definition of_Z (n : Z) : float :=
  SF2Prim (binary_normalize prec emax n 0 false).

(** Math.max and Math.min: NaN is contagious and -0 is below +0. *)
Definition max (a b : float) : float :=
  if is_nan a || is_nan b then nan
  else if a <? b then b
  else if b <? a then a
  else if get_sign a then b else a.

Definition min (a b : float) : float :=
  if is_nan a || is_nan b then nan
  else if a <? b then a
  else if b <? a then b
  else if get_sign a then a else b.

(** Math.round: floor(x + 1/2) computed exactly on the value m * 2^e of
    [x]; a result of zero keeps the sign of [x]. *)
Definition round (x : float) : float :=
  match Prim2SF x with
  | S754_finite s m e =>
      if (0 <=? e)%Z then x
      else
        let d := (2 ^ (- e))%Z in
        let v := (if s then Z.neg m else Z.pos m) in
        let r := ((2 * v + d) / (2 * d))%Z in
        if (r =? 0)%Z && s then neg_zero else of_Z r
  | _ => x
  end.

(** Number(x.toFixed(1)).  toFixed picks the integer n nearest to
    10 * |x| (the larger one at a tie) and prints n / 10 with the sign of
    [x]; Number reads it back as the nearest binary64.  An integral [x]
    prints as itself.  When n is below 2^53 it is a binary64 and one
    division gives the nearest binary64 to n / 10; above that bound the
    binary64 numbers are at least 1/8 apart and the nearest one is [x]. *)
Definition toFixed1 (x : float) : float :=
  match Prim2SF x with
  | S754_finite s m e =>
      if (0 <=? e)%Z then x
      else
        let d := (2 ^ (- e))%Z in
        let n := ((2 * 10 * Z.pos m + d) / (2 * d))%Z in
        if (n <? 2 ^ 53)%Z
        then (if s then - (of_Z n / of_Z 10) else of_Z n / of_Z 10)
        else x
  | S754_zero _ => zero
  | _ => x
  end.

(** TimeClip: NaN for a number that is not finite or lies beyond
    8.64e15 ms on either side; otherwise the number truncated towards zero
    to a whole millisecond, and +0 for -0.  A binary64 of magnitude 2^52 or
    more is a whole number, so the bound can be tested on the truncated
    magnitude [n]; within the bound [n] is below 2^53 and is a binary64. *)
Definition TimeClip (t : float) : float :=
  match Prim2SF t with
  | S754_zero _ => zero
  | S754_finite s m e =>
      let n :=
        (if 0 <=? e then Z.pos m * 2 ^ e else Z.pos m / 2 ^ (- e))%Z in
      if (8640000000000000 <? n)%Z then nan
      else if s then of_Z (- n) else of_Z n
  | _ => nan
  end.

(** The exact value of a finite binary64, 0 for an infinity or NaN. *)
Definition value (x : float) : Q :=
  match Prim2SF x with
  | S754_finite s m e =>
      let magnitude :=
        (if 0 <=? e then inject_Z (Z.pos m * 2 ^ e)
         else Qmake (Z.pos m) (Z.to_pos (2 ^ (- e))))%Z in
      if s then Qopp magnitude else magnitude
  | _ => 0%Q
  end.

#[global] Instance number : JSNumber float := {
  num_of_Z := of_Z;
  num_add := PrimFloat.add;
  num_sub := PrimFloat.sub;
  num_mul := PrimFloat.mul;
  num_div := PrimFloat.div;
  num_eqb := PrimFloat.eqb;
  num_leb := PrimFloat.leb;
  num_truthy := fun a => negb (is_zero a || is_nan a);
  Math_max := max;
  Math_min := min;
  Math_round := round;
  Number_toFixed1 := toFixed1
}.

#[global] Instance date : JSDate float := {
  TimeClip := TimeClip
}.

End Binary64.

(** ** Loops and arrays *)

(** [arr.forEach((x, idx) => body)], the body acting on the variables [s]
    it closes over. *)
Fixpoint forEach_from {A S : Type} (body : A -> nat -> S -> S)
    (idx : nat) (arr : list A) (s : S) : S :=
  match arr with
  | [] => s
  | x :: rest => forEach_from body (Datatypes.S idx) rest (body x idx s)
  end.

Definition forEach {A S : Type} (body : A -> nat -> S -> S)
    (arr : list A) (s : S) : S :=
  forEach_from body 0 arr s.

(** [arr.push(x)]. *)
Definition push {A : Type} (arr : list A) (x : A) : list A := arr ++ [x].

(** The decimal digits of an index, as a template literal prints them. *)
Definition string_of_nat (n : nat) : string :=
  NilEmpty.string_of_uint (Nat.to_uint n).

(** ** Data model *)

(** The fleet's size and its three risk buckets. *)
Record FleetKPIs (A : Type) := {
  total : A;
  healthy : A;
  warning : A;
  highRisk : A
}.
Arguments total {A}.
Arguments healthy {A}.
Arguments warning {A}.
Arguments highRisk {A}.
Arguments Build_FleetKPIs {A}.

Section Dashboard.

Context {num : Type} `{!JSNumber num} `{!JSDate num}.

Local Open Scope string_scope.

(** A job as the optimizer returns it; [revenue] may be missing. *)
Record ScheduleJob := {
  Job_ID : string;
  start : num;
  end_ : num;
  deadline_hours : num;
  revenue : option num
}.

Record MachineSchedule := { schedule : list ScheduleJob }.

(** The optimizer's response.  [machine_schedules] is an object keyed by
    machine id, kept as its entries in enumeration order; either field may
    be missing. *)
Record Schedule := {
  machine_schedules : option (list (string * MachineSchedule));
  unassigned_jobs : option (list string)
}.

Definition Object_values {V : Type} (o : list (string * V)) : list V :=
  map snd o.
Definition Object_entries {V : Type} (o : list (string * V))
  : list (string * V) := o.

Record Weights := { w_throughput : num; w_risk : num; w_cost : num }.

Record ScheduleKpis := {
  totalScheduled : nat;
  unassigned : nat;
  onTime : nat;
  late : nat;
  totalRevenue : num;
  avgUtilization : num
}.

Record MachineRiskRecord := {
  Machine_ID : string;
  health_score : num;
  risk_level : string
}.

Record ScenarioResult := {
  scenario : string;
  scheduled : nat;
  sr_unassigned : nat
}.

(** A Date, by the time value it keeps: a whole number of milliseconds, or
    NaN for an Invalid Date. *)
Record Date := { getTime : num }.

(** [new Date(t)] for a number [t]. *)
Definition new_Date (t : num) : Date := {| getTime := TimeClip t |}.

(** [a >= b] on Dates compares their time values, as [b <= a] does on the
    numbers. *)
Definition Date_geb (a b : Date) : bool := (getTime b <=? getTime a)%js.

Record TaskStyles := {
  progressColor : string;
  progressSelectedColor : string
}.

Record Task := {
  id : string;
  name : string;
  task_start : Date;
  task_end : Date;
  type_ : string;
  progress : nat;
  isDisabled : bool;
  styles : TaskStyles
}.

Record DeferredJob := { deferred_id : string; reason : option string }.

(** The component's state, as far as the analytics read or write it. *)
Record Dashboard := {
  scheduleData : option Schedule;
  scenarioData : list ScenarioResult;
  weights : Weights;
  scheduleKpis : ScheduleKpis;
  kpis : FleetKPIs num
}.

Definition setScheduleKpis (v : ScheduleKpis) (d : Dashboard) : Dashboard :=
  {| scheduleData := scheduleData d; scenarioData := scenarioData d;
     weights := weights d; scheduleKpis := v; kpis := kpis d |}.

Definition setScenarioData (v : list ScenarioResult) (d : Dashboard)
  : Dashboard :=
  {| scheduleData := scheduleData d; scenarioData := v;
     weights := weights d; scheduleKpis := scheduleKpis d; kpis := kpis d |}.

(** The state the component starts from. *)
Definition initial : Dashboard :=
  {| scheduleData := None;
     scenarioData := [];
     weights := {| w_throughput := dec 65 2; w_risk := dec 75 2;
                   w_cost := dec 45 2 |};
     scheduleKpis := {| totalScheduled := 0; unassigned := 0; onTime := 0;
                        late := 0; totalRevenue := num_of_Z 0;
                        avgUtilization := num_of_Z 0 |};
     kpis := {| total := num_of_Z 0; healthy := num_of_Z 0;
                warning := num_of_Z 0; highRisk := num_of_Z 0 |} |}.

(** ** Schedule aggregator *)

(** The local variables of [computeScheduleKpis]. *)
Record Totals := {
  t_totalScheduled : nat;
  t_onTime : nat;
  t_late : nat;
  t_totalRevenue : num;
  t_totalBusyHours : num;
  t_machineCount : nat
}.

Definition job_body (job : ScheduleJob) (_ : nat) (t : Totals) : Totals :=
  let on_time := (end_ job <=? deadline_hours job)%js in
  {| t_totalScheduled := S (t_totalScheduled t);
     t_onTime := if on_time then S (t_onTime t) else t_onTime t;
     t_late := if on_time then t_late t else S (t_late t);
     t_totalRevenue :=
       (t_totalRevenue t
        + match revenue job with
          | Some r => num_or r (num_of_Z 0)
          | None => num_of_Z 0
          end)%js;
     t_totalBusyHours := (t_totalBusyHours t + (end_ job - start job))%js;
     t_machineCount := t_machineCount t |}.

Definition machine_body (machine : MachineSchedule) (_ : nat) (t : Totals)
  : Totals :=
  forEach job_body (schedule machine)
    {| t_totalScheduled := t_totalScheduled t;
       t_onTime := t_onTime t;
       t_late := t_late t;
       t_totalRevenue := t_totalRevenue t;
       t_totalBusyHours := t_totalBusyHours t;
       t_machineCount := S (t_machineCount t) |}.

Definition computeScheduleKpis (sched : option Schedule) (d : Dashboard)
  : Dashboard :=
  match sched with
  | None => d
  | Some sch =>
      match machine_schedules sch with
      | None => d
      | Some ms =>
          let t :=
            forEach machine_body (Object_values ms)
              {| t_totalScheduled := 0; t_onTime := 0; t_late := 0;
                 t_totalRevenue := num_of_Z 0;
                 t_totalBusyHours := num_of_Z 0;
                 t_machineCount := 0 |} in
          let avg :=
            if (0 <? t_machineCount t)%nat
            then (t_totalBusyHours t / num_of_nat (t_machineCount t))%js
            else num_of_Z 0 in
          setScheduleKpis
            {| totalScheduled := t_totalScheduled t;
               unassigned :=
                 match unassigned_jobs sch with
                 | Some js => length js
                 | None => 0%nat
                 end;
               onTime := t_onTime t;
               late := t_late t;
               totalRevenue := t_totalRevenue t;
               avgUtilization := Number_toFixed1 avg |}
            d
      end
  end.

(** ** Risk bucket projector *)

Definition dynamicKpis (kpis : FleetKPIs num) (weights : Weights)
  : FleetKPIs num :=
  if (total kpis === num_of_Z 0)%js then kpis
  else
    let throughputImpact :=
      ((w_throughput weights - dec 4 1) * (total kpis * dec 35 2))%js in
    let riskImpact :=
      ((w_risk weights - dec 3 1) * (total kpis * dec 45 2))%js in
    let costImpact :=
      ((w_cost weights - dec 3 1) * (total kpis * dec 30 2))%js in
    let newHealthy :=
      (healthy kpis + riskImpact - throughputImpact - costImpact)%js in
    let newHighRisk :=
      (highRisk kpis - riskImpact + throughputImpact
       + (costImpact * dec 3 1))%js in
    let newHealthy :=
      Math_max (num_of_Z 0) (Math_min (total kpis) newHealthy) in
    let newHighRisk :=
      Math_max (num_of_Z 0)
        (Math_min (total kpis - newHealthy)%js newHighRisk) in
    let newWarning := (total kpis - newHealthy - newHighRisk)%js in
    {| total := total kpis;
       healthy := Math_round newHealthy;
       warning := Math_round newWarning;
       highRisk := Math_round newHighRisk |}.

(** ** Timeline builder *)

Definition gantt_task (now : Date) (machineId : string) (job : ScheduleJob)
    (idx : nat) : Task :=
  let start_ :=
    new_Date (getTime now + start job * num_of_Z 3600 * num_of_Z 1000)%js in
  let end' :=
    new_Date (getTime now + end_ job * num_of_Z 3600 * num_of_Z 1000)%js in
  {| id := machineId ++ "_" ++ string_of_nat idx;
     name := Job_ID job;
     task_start := start_;
     task_end := end';
     type_ := "task";
     progress := 100;
     isDisabled := false;
     styles := {| progressColor := "#4f46e5";
                  progressSelectedColor := "#4338ca" |} |}.

Definition buildGanttTasks (scheduleData : option Schedule) (now : Date)
  : list Task :=
  match scheduleData with
  | None => []
  | Some sch =>
      match machine_schedules sch with
      | None => []
      | Some ms =>
          forEach
            (fun '(machineId, machine) _ tasks =>
               forEach
                 (fun job idx tasks =>
                    push tasks (gantt_task now machineId job idx))
                 (schedule machine) tasks)
            (Object_entries ms) []
      end
  end.

(** ** Deferral explainer *)

Definition reasons : list string :=
  [ "Capacity Constraint: Required machine type fully utilized within deadline.";
    "Maintenance Conflict: Required machine locked for mandatory single-cycle maintenance.";
    "Cost Constraint: Processing cost exceeds allowable threshold for optimization weights." ].

Definition deferredJobsList (scheduleData : option Schedule)
  : list DeferredJob :=
  match scheduleData with
  | None => []
  | Some sch =>
      match unassigned_jobs sch with
      | None => []
      | Some js =>
          imap
            (fun idx jobId =>
               {| deferred_id := jobId;
                  reason := reasons !! (idx mod length reasons)%nat |})
            js
      end
  end.

(** ** Baseline counts *)

(** The object [runPipeline] passes to [setKpis]. *)
Definition runPipeline_kpis (data : list MachineRiskRecord) : FleetKPIs nat :=
  {| total := length data;
     healthy :=
       length (List.filter (fun m => risk_level m =? "Healthy") data);
     warning :=
       length (List.filter (fun m => risk_level m =? "Warning") data);
     highRisk :=
       length (List.filter (fun m => risk_level m =? "High Risk") data) |}.

(** The same counts as the numbers the state holds. *)
Definition kpis_numbers (k : FleetKPIs nat) : FleetKPIs num :=
  {| total := num_of_nat (total k); healthy := num_of_nat (healthy k);
     warning := num_of_nat (warning k);
     highRisk := num_of_nat (highRisk k) |}.

End Dashboard.

Arguments ScheduleJob : clear implicits.
Arguments MachineSchedule : clear implicits.
Arguments Schedule : clear implicits.
Arguments Weights : clear implicits.
Arguments ScheduleKpis : clear implicits.
Arguments MachineRiskRecord : clear implicits.
Arguments Date : clear implicits.
Arguments Task : clear implicits.
Arguments Dashboard : clear implicits.
Arguments Totals : clear implicits.

(** ** Scenario runner *)

(** What an awaited call can throw: a rejected request, or a TypeError
    raised by the code that reads the response. *)
Inductive JSError :=
| RequestFailed (message : string)
| TypeError (message : string).

Section ScenarioRunner.

Context {num : Type} `{!JSNumber num}.

Local Open Scope string_scope.

(** The backend collaborator.  A call to the optimizer moves the backend to
    a new state and either rejects or resolves with a schedule. *)
Variable Backend : Type.
Variable optimizeSchedule :
  Weights num -> Backend -> Backend * (JSError + Schedule num).

Record Scenario := { s_name : string; s_weights : Weights num }.

(** One turn of the [for (const s of scenarios)] loop, up to the value it
    pushes. *)
Definition scenario_body (s : Scenario) (b : Backend)
  : Backend * (JSError + ScenarioResult) :=
  match optimizeSchedule (s_weights s) b with
  | (b', inl err) => (b', inl err)
  | (b', inr sched) =>
      let unassigned :=
        match unassigned_jobs sched with
        | Some js => length js
        | None => 0%nat
        end in
      match machine_schedules sched with
      | None =>
          (b', inl (TypeError "Cannot convert undefined or null to object"))
      | Some ms =>
          let totalScheduled :=
            forEach
              (fun m _ totalScheduled =>
                 (totalScheduled + length (schedule m))%nat)
              (Object_values ms) 0%nat in
          (b', inr {| scenario := s_name s; scheduled := totalScheduled;
                      sr_unassigned := unassigned |})
      end
  end.

(** The loop, threading the backend and the local array [results]; it stops
    at the first exception and hands it, with the variables as they stand,
    to the enclosing [try]. *)
Fixpoint scenario_loop (scenarios : list Scenario)
    (results : list ScenarioResult) (b : Backend)
  : Backend * list ScenarioResult * option JSError :=
  match scenarios with
  | [] => (b, results, None)
  | s :: rest =>
      match scenario_body s b with
      | (b', inl err) => (b', results, Some err)
      | (b', inr r) => scenario_loop rest (push results r) b'
      end
  end.

(** The body of [runWhatIfAnalysis] for a given list of scenarios.  The
    third component is what [console.error] receives. *)
Definition runWhatIfAnalysis_on (scenarios : list Scenario) (b : Backend)
    (d : Dashboard num) : Backend * Dashboard num * option JSError :=
  match scenario_loop scenarios [] b with
  | (b', results, None) => (b', setScenarioData results d, None)
  | (b', _, Some err) => (b', d, Some err)
  end.

Definition scenarios_of (weights : Weights num) : list Scenario :=
  [ {| s_name := "Balanced"; s_weights := weights |};
    {| s_name := "Throughput Focus";
       s_weights := {| w_throughput := dec 7 1; w_risk := dec 2 1;
                       w_cost := dec 1 1 |} |};
    {| s_name := "Risk Focus";
       s_weights := {| w_throughput := dec 2 1; w_risk := dec 6 1;
                       w_cost := dec 2 1 |} |} ].

Definition runWhatIfAnalysis (b : Backend) (d : Dashboard num)
  : Backend * Dashboard num * option JSError :=
  runWhatIfAnalysis_on (scenarios_of (weights d)) b d.

End ScenarioRunner.

Arguments Scenario : clear implicits.

(** ** Quantities the specification speaks of *)

Section SpecQuantities.

Context {num : Type} `{!JSNumber num} `{!JSDate num}.

(** The machines of a schedule, none when the mapping is missing. *)
Definition machines_of (scheduleData : option (Schedule num))
  : list (string * MachineSchedule num) :=
  match scheduleData with
  | Some sch =>
      match machine_schedules sch with
      | Some ms => ms
      | None => []
      end
  | None => []
  end.

(** The unassigned job ids of a schedule, none when the list is missing. *)
Definition unassigned_of (scheduleData : option (Schedule num))
  : list string :=
  match scheduleData with
  | Some sch =>
      match unassigned_jobs sch with
      | Some js => js
      | None => []
      end
  | None => []
  end.

(** The sum over all machines of the length of the machine's job sequence. *)
Definition job_count (ms : list (string * MachineSchedule num)) : nat :=
  sum_list_with (fun e => length (schedule (snd e))) ms.

(** Every job, machine by machine. *)
Definition all_jobs (ms : list (string * MachineSchedule num))
  : list (ScheduleJob num) :=
  flat_map (fun e => schedule (snd e)) ms.

(** The tasks of one machine, in the order of its jobs. *)
Definition machine_tasks (now : Date num) (e : string * MachineSchedule num)
  : list (Task num) :=
  imap (fun idx job => gantt_task now (fst e) job idx) (schedule (snd e)).

(** A risk level that one of the three filters of [runPipeline] accepts. *)
Definition bucketed (m : MachineRiskRecord num) : Prop :=
  risk_level m = "Healthy"%string \/ risk_level m = "Warning"%string
  \/ risk_level m = "High Risk"%string.

End SpecQuantities.

(** The sum of (end - start) over a sequence of jobs, and over all the jobs
    of a schedule. *)
Definition hours (jobs : list (ScheduleJob Q)) : Q :=
  fold_right Qplus 0%Q (map (fun job => (end_ job - start job)%Q) jobs).

Definition busy_hours (ms : list (string * MachineSchedule Q)) : Q :=
  hours (all_jobs ms).

(** avgUtilizationHours in the specification's words: the busy hours divided
    by the number of machines in the mapping, 0 when there is none; the
    rounding to one decimal is applied to it. *)
Definition spec_avgUtilizationHours
    (ms : list (string * MachineSchedule Q)) : Q :=
  match ms with
  | [] => 0%Q
  | _ => (busy_hours ms / inject_Z (Z.of_nat (length ms)))%Q
  end.

(** A job, and the machines of a schedule, of binary64 numbers with every
    number replaced by its exact value. *)
Definition exact_job (job : ScheduleJob float) : ScheduleJob Q :=
  {| Job_ID := Job_ID job;
     start := Binary64.value (start job);
     end_ := Binary64.value (end_ job);
     deadline_hours := Binary64.value (deadline_hours job);
     revenue := option_map Binary64.value (revenue job) |}.

Definition exact_machines (ms : list (string * MachineSchedule float))
  : list (string * MachineSchedule Q) :=
  map (fun e => (fst e, {| schedule := map exact_job (schedule (snd e)) |}))
    ms.

(** ** The turns of the scenario loop, by what the optimizer answers *)

Section ScenarioTurns.

Context {num : Type} `{!JSNumber num}.
Variable Backend : Type.
Variable optimizeSchedule :
  Weights num -> Backend -> Backend * (JSError + Schedule num).

(** The row of a preset whose call resolved with [sched]: the preset's
    name, the number of jobs in the mapping and the number of unassigned
    job ids. *)
Definition scenario_row (s : Scenario num) (sched : Schedule num)
  : ScenarioResult :=
  {| scenario := s_name s;
     scheduled := job_count (machines_of (Some sched));
     sr_unassigned := length (unassigned_of (Some sched)) |}.

(** [all_resolve scenarios b rows b']: called for the presets one after
    the other from the backend state [b], the optimizer resolves every
    time with a schedule that carries its machine mapping; [rows] are the
    rows of the responses in preset order and [b'] is the backend state
    after the last call. *)
Inductive all_resolve
  : list (Scenario num) -> Backend -> list ScenarioResult -> Backend -> Prop :=
| all_resolve_nil (b : Backend) : all_resolve [] b [] b
| all_resolve_cons (s : Scenario num) (rest : list (Scenario num))
    (b b1 b2 : Backend) (sched : Schedule num)
    (ms : list (string * MachineSchedule num)) (rows : list ScenarioResult) :
    optimizeSchedule (s_weights s) b = (b1, inr sched) ->
    machine_schedules sched = Some ms ->
    all_resolve rest b1 rows b2 ->
    all_resolve (s :: rest) b (scenario_row s sched :: rows) b2.

(** The turn of preset [s] throws [err] and leaves the backend in [b']:
    the optimizer rejects the call with [err], or it resolves with a
    response without the machine mapping, which [Object.values] rejects. *)
Definition turn_throws (s : Scenario num) (b b' : Backend) (err : JSError)
  : Prop :=
  optimizeSchedule (s_weights s) b = (b', inl err)
  \/ (exists sched : Schedule num,
         optimizeSchedule (s_weights s) b = (b', inr sched)
         /\ machine_schedules sched = None
         /\ err = TypeError "Cannot convert undefined or null to object").

End ScenarioTurns.

(** ** Sample inputs *)

Section Samples.

Context {num : Type} `{!JSNumber num}.

Local Open Scope string_scope.

(** The schedule of the specification's end-to-end example. *)
Definition example_schedule : Schedule num :=
  {| machine_schedules :=
       Some [ ("M1",
               {| schedule :=
                    [ {| Job_ID := "J1"; start := num_of_Z 0;
                         end_ := num_of_Z 4; deadline_hours := num_of_Z 5;
                         revenue := Some (num_of_Z 100) |};
                      {| Job_ID := "J2"; start := num_of_Z 4;
                         end_ := num_of_Z 10; deadline_hours := num_of_Z 8;
                         revenue := Some (num_of_Z 50) |} ] |}) ];
     unassigned_jobs := Some ["J3"] |}.

(** A schedule with no machine and one unassigned job. *)
Definition no_machines : Schedule num :=
  {| machine_schedules := Some []; unassigned_jobs := Some ["J3"] |}.

(** A response without the machine mapping. *)
Definition no_mapping : Schedule num :=
  {| machine_schedules := None; unassigned_jobs := None |}.

(** A response with four unassigned jobs and no machine mapping. *)
Definition four_unassigned : Schedule num :=
  {| machine_schedules := None;
     unassigned_jobs := Some ["J3"; "J4"; "J5"; "J6"] |}.

(** A risk snapshot of 15 machines: 4 healthy, 7 warning, 4 high risk. *)
Definition snapshot_15 : list (MachineRiskRecord num) :=
  let record level :=
    {| Machine_ID := "M"; health_score := num_of_Z 0; risk_level := level |} in
  (replicate 4 (record "Healthy") ++ replicate 7 (record "Warning")
   ++ replicate 4 (record "High Risk"))%list.

(** A snapshot with a level outside the three buckets. *)
Definition snapshot_unknown : list (MachineRiskRecord num) :=
  [ {| Machine_ID := "M1"; health_score := num_of_Z 90;
       risk_level := "Healthy" |};
    {| Machine_ID := "M2"; health_score := num_of_Z 10;
       risk_level := "Critical" |} ].

(** A backend, by the number of calls it has served, whose optimizer
    rejects its second call and otherwise returns the example schedule. *)
Definition flaky_optimizer (_ : Weights num) (calls : nat)
  : nat * (JSError + Schedule num) :=
  (S calls,
   if (calls =? 1)%nat then inl (RequestFailed "Network Error")
   else inr example_schedule).

End Samples.

Section Binary64Samples.

Local Open Scope string_scope.

(** One machine with a job of 0.1 h and a job of 0.25 h. *)
Definition tenth_and_quarter : Schedule float :=
  {| machine_schedules :=
       Some [ ("M1",
               {| schedule :=
                    [ {| Job_ID := "J1"; start := num_of_Z 0;
                         end_ := dec 1 1; deadline_hours := num_of_Z 5;
                         revenue := None |};
                      {| Job_ID := "J2"; start := num_of_Z 1;
                         end_ := dec 125 2; deadline_hours := num_of_Z 5;
                         revenue := None |} ] |}) ];
     unassigned_jobs := Some [] |}.

(** One machine with a job that starts 1e-7 h after the reference time and
    a job that ends 1e20 h after it. *)
Definition tiny_and_huge : Schedule float :=
  {| machine_schedules :=
       Some [ ("M1",
               {| schedule :=
                    [ {| Job_ID := "J1"; start := dec 1 7;
                         end_ := num_of_Z 1; deadline_hours := num_of_Z 5;
                         revenue := None |};
                      {| Job_ID := "J2"; start := num_of_Z 0;
                         end_ := num_of_Z (10 ^ 20);
                         deadline_hours := num_of_Z 5;
                         revenue := None |} ] |}) ];
     unassigned_jobs := Some [] |}.

End Binary64Samples.

(** ** Further quantities of the aggregator and the projector *)

Section AggregatorQuantities.

Context {num : Type} `{!JSNumber num}.

(** A job that ends by its deadline, as the aggregator tests it. *)
Definition on_time (job : ScheduleJob num) : bool :=
  (end_ job <=? deadline_hours job)%js.

End AggregatorQuantities.

(** What a job adds to the revenue total, [job.revenue || 0] in binary64:
    the revenue, or 0 when the field is missing, NaN or a zero. *)
Definition revenue_or_zero (job : ScheduleJob float) : float :=
  match revenue job with
  | Some r => if is_nan r || is_zero r then zero else r
  | None => zero
  end.

(** The weights at which every impact term of the projector is 0. *)
Definition neutral_weights : Weights Q :=
  {| w_throughput := dec 4 1; w_risk := dec 3 1; w_cost := dec 3 1 |}.

(** ** Strings *)

Section Strings.

Import Ascii.

(** How often a character occurs in a string. *)
Fixpoint count_char (c : ascii) (s : string) : nat :=
  match s with
  | EmptyString => 0%nat
  | String c' s' => ((if Ascii.eqb c c' then 1 else 0) + count_char c s')%nat
  end.

(** [arr.join(sep)] on an array of strings. *)
Definition join (sep : string) (arr : list string) : string :=
  String.concat sep arr.

Definition newline : string := String "010"%char EmptyString.

End Strings.

(** ** Risk tables *)

Section RiskTable.

Context {num : Type} `{!JSNumber num}.

Local Open Scope string_scope.

(** The rows of the operator's High-Risk Machines table. *)
Definition highRiskRows (riskData : list (MachineRiskRecord num))
  : list (MachineRiskRecord num) :=
  List.filter (fun m => negb (risk_level m =? "Healthy")) riskData.

(** The badge of the Risk Level column of the management table. *)
Definition riskLevelClass (val : string) : string :=
  let colorClass := "bg-gray-100 text-gray-800" in
  let colorClass :=
    if val =? "Healthy" then "bg-emerald-100 text-emerald-800"
    else colorClass in
  let colorClass :=
    if val =? "Warning" then "bg-amber-100 text-amber-800" else colorClass in
  let colorClass :=
    if val =? "High Risk" then "bg-rose-100 text-rose-800" else colorClass in
  colorClass.

(** The badge of the Status column of the operator's table. *)
Definition statusClass (m : MachineRiskRecord num) : string :=
  if risk_level m =? "High Risk" then "bg-rose-100 text-rose-800"
  else "bg-amber-100 text-amber-800".

End RiskTable.

(** ** CSV export *)

Section CsvExport.

Context {num : Type} `{!JSNumber num}.

Local Open Scope string_scope.

(** [x.toFixed(2)], the decimal text of a number with two decimals. *)
Variable toFixed2 : num -> string.

(** The text that [exportMachinesCSV] puts in the file it offers for
    download; there is no file when there is no risk data. *)
Definition exportMachinesCSV (riskData : list (MachineRiskRecord num))
  : option string :=
  match riskData with
  | [] => None
  | _ =>
      let headers := ["Machine_ID"; "Health_Score"; "Risk_Level"] in
      let rows :=
        map (fun m => [Machine_ID m; toFixed2 (health_score m); risk_level m])
          riskData in
      let csvContent :=
        join newline (map (fun row => join "," row) (headers :: rows)) in
      Some csvContent
  end.

(** The line of a record: its three fields as they are, with a comma
    between them. *)
Definition record_line (m : MachineRiskRecord num) : string :=
  Machine_ID m ++ "," ++ toFixed2 (health_score m) ++ "," ++ risk_level m.

(** How often a character occurs in the three fields of a record. *)
Definition field_chars (c : Ascii.ascii) (m : MachineRiskRecord num) : nat :=
  (count_char c (Machine_ID m) + count_char c (toFixed2 (health_score m))
   + count_char c (risk_level m))%nat.

End CsvExport.

(** ** Pipeline orchestrator *)

Section StateSetters.

Context {num : Type} `{!JSNumber num}.

Definition setScheduleData (v : option (Schedule num)) (d : Dashboard num)
  : Dashboard num :=
  {| scheduleData := v; scenarioData := scenarioData d;
     weights := weights d; scheduleKpis := scheduleKpis d; kpis := kpis d |}.

Definition setWeights (v : Weights num) (d : Dashboard num) : Dashboard num :=
  {| scheduleData := scheduleData d; scenarioData := scenarioData d;
     weights := v; scheduleKpis := scheduleKpis d; kpis := kpis d |}.

Definition setKpis (v : FleetKPIs num) (d : Dashboard num) : Dashboard num :=
  {| scheduleData := scheduleData d; scenarioData := scenarioData d;
     weights := weights d; scheduleKpis := scheduleKpis d; kpis := v |}.

End StateSetters.

(** The backend collaborator behind lib/api.ts: a state and one transition
    per endpoint the component calls, each either rejecting or resolving
    with the response data.  Job records and maintenance events are only
    stored, so their types are left open. *)
Record Api (num Backend JobRecord MaintenanceEvent : Type) := {
  generateData : Backend -> Backend * (JSError + unit);
  trainModel : Backend -> Backend * (JSError + unit);
  getHighRisk :
    Backend -> Backend * (JSError + list (MachineRiskRecord num));
  optimizeSchedule :
    Weights num -> Backend -> Backend * (JSError + Schedule num);
  getJobs : Backend -> Backend * (JSError + list JobRecord);
  simulateMaintenance :
    Backend -> Backend * (JSError + list MaintenanceEvent)
}.
Arguments generateData {num Backend JobRecord MaintenanceEvent}.
Arguments trainModel {num Backend JobRecord MaintenanceEvent}.
Arguments getHighRisk {num Backend JobRecord MaintenanceEvent}.
Arguments optimizeSchedule {num Backend JobRecord MaintenanceEvent}.
Arguments getJobs {num Backend JobRecord MaintenanceEvent}.
Arguments simulateMaintenance {num Backend JobRecord MaintenanceEvent}.

Section Pipeline.

Context {num : Type} `{!JSNumber num}.
Context {Backend JobRecord MaintenanceEvent : Type}.

Local Open Scope string_scope.

(** The data state of the component beside the dashboard's. *)
Record Page := {
  dashboard : Dashboard num;
  loading : bool;
  riskData : list (MachineRiskRecord num);
  jobsData : list JobRecord;
  maintenanceData : list MaintenanceEvent
}.

(** The backend, the page, and what console.error has received. *)
Record World := {
  backend : Backend;
  page : Page;
  console : list (string * JSError)
}.

Definition onDashboard (f : Dashboard num -> Dashboard num) (p : Page)
  : Page :=
  {| dashboard := f (dashboard p); loading := loading p;
     riskData := riskData p; jobsData := jobsData p;
     maintenanceData := maintenanceData p |}.

Definition setLoading (v : bool) (p : Page) : Page :=
  {| dashboard := dashboard p; loading := v; riskData := riskData p;
     jobsData := jobsData p; maintenanceData := maintenanceData p |}.

Definition setRiskData (v : list (MachineRiskRecord num)) (p : Page) : Page :=
  {| dashboard := dashboard p; loading := loading p; riskData := v;
     jobsData := jobsData p; maintenanceData := maintenanceData p |}.

Definition setJobsData (v : list JobRecord) (p : Page) : Page :=
  {| dashboard := dashboard p; loading := loading p; riskData := riskData p;
     jobsData := v; maintenanceData := maintenanceData p |}.

Definition setMaintenanceData (v : list MaintenanceEvent) (p : Page) : Page :=
  {| dashboard := dashboard p; loading := loading p; riskData := riskData p;
     jobsData := jobsData p; maintenanceData := v |}.

(** The body of an async function: it runs on the world and either throws
    or returns. *)
Definition Async (A : Type) : Type := World -> World * (JSError + A).

Definition async_bind {A B : Type} (c : Async A) (k : A -> Async B)
  : Async B :=
  fun w =>
    match c w with
    | (w', inl err) => (w', inl err)
    | (w', inr a) => k a w'
    end.

(** [await call()] on an endpoint. *)
Definition await {A : Type} (call : Backend -> Backend * (JSError + A))
  : Async A :=
  fun w =>
    let '(b', r) := call (backend w) in
    ({| backend := b'; page := page w; console := console w |}, r).

(** A call to a state setter. *)
Definition setState (f : Page -> Page) : Async unit :=
  fun w =>
    ({| backend := backend w; page := f (page w); console := console w |},
     inr tt).

Definition console_error (label : string) (err : JSError) : Async unit :=
  fun w =>
    ({| backend := backend w; page := page w;
        console := (console w ++ [(label, err)])%list |}, inr tt).

(** [try { body } catch (err) { handler }]. *)
Definition try_catch (body : Async unit) (handler : JSError -> Async unit)
  : Async unit :=
  fun w =>
    match body w with
    | (w', inl err) => handler err w'
    | (w', inr _) => (w', inr tt)
    end.

Local Notation "'let*' x := c 'in' k" := (async_bind c (fun x => k))
  (at level 10, x name, c at level 200, k at level 200).
Local Notation "c ;; k" := (async_bind c (fun _ => k))
  (at level 100, k at level 200, right associativity).

Variable api : Api num Backend JobRecord MaintenanceEvent.

(** [await runWhatIfAnalysis()]: the runner catches and logs its own
    errors, so the call always returns. *)
Definition awaitWhatIfAnalysis : Async unit :=
  fun w =>
    let '(b', d', logged) :=
      runWhatIfAnalysis Backend (optimizeSchedule api) (backend w)
        (dashboard (page w)) in
    ({| backend := b';
        page := onDashboard (fun _ => d') (page w);
        console :=
          (console w
           ++ match logged with
              | Some err => [("What-if analysis failed:", err)]
              | None => []
              end)%list |},
     inr tt).

(** The body of [runPipeline], for the weights its closure holds. *)
Definition runPipeline_body (weights : Weights num) : Async unit :=
  setState (setLoading true) ;;
  try_catch
    (await (generateData api) ;;
     await (trainModel api) ;;
     let* data := await (getHighRisk api) in
     setState (setRiskData data) ;;
     setState
       (onDashboard (setKpis (kpis_numbers (runPipeline_kpis data)))) ;;
     let* sched := await (optimizeSchedule api weights) in
     setState (onDashboard (setScheduleData (Some sched))) ;;
     setState (onDashboard (computeScheduleKpis (Some sched))) ;;
     awaitWhatIfAnalysis ;;
     let* jobs := await (getJobs api) in
     setState (setJobsData jobs) ;;
     let* maint := await (simulateMaintenance api) in
     setState (setMaintenanceData maint))
    (console_error "Pipeline error:") ;;
  setState (setLoading false).

Definition runPipeline (w : World) : World :=
  fst (runPipeline_body (weights (dashboard (page w))) w).

Definition recomputeSchedule_body (newWeights : Weights num) : Async unit :=
  setState (onDashboard (setWeights newWeights)) ;;
  try_catch
    (let* sched := await (optimizeSchedule api newWeights) in
     setState (onDashboard (setScheduleData (Some sched))) ;;
     setState (onDashboard (computeScheduleKpis (Some sched))))
    (console_error "Recompute failed:").

Definition recomputeSchedule (newWeights : Weights num) (w : World) : World :=
  fst (recomputeSchedule_body newWeights w).

(** The page the component mounts with. *)
Definition initial_page : Page :=
  {| dashboard := initial; loading := false; riskData := [];
     jobsData := []; maintenanceData := [] |}.

(** What starts a handler: the Refresh Intelligence button (and the mount of
    the component), or a slider moved to new weights. *)
Inductive Event :=
| Refresh
| Slide (newWeights : Weights num).

Definition handle (w : World) (e : Event) : World :=
  match e with
  | Refresh => runPipeline w
  | Slide newWeights => recomputeSchedule newWeights w
  end.

(** The figures on the page derive from the data on the page: the baseline
    counts are those of the risk data, and running the aggregator on the
    schedule changes nothing. *)
Definition derived (p : Page) : Prop :=
  kpis (dashboard p) = kpis_numbers (runPipeline_kpis (riskData p))
  /\ computeScheduleKpis (scheduleData (dashboard p)) (dashboard p)
     = dashboard p.

(** An async body that keeps the figures derived from the data. *)
Definition preserves {A : Type} (c : Async A) : Prop :=
  forall w : World, derived (page w) -> derived (page (fst (c w))).

End Pipeline.

Arguments Page : clear implicits.
Arguments World : clear implicits.
Arguments Event : clear implicits.

Arguments Async : clear implicits.

(** ** Scenario runner: the calls it makes *)

Section CallLog.

Context {num : Type} `{!JSNumber num}.
Variable Backend : Type.
Variable optimizeSchedule :
  Weights num -> Backend -> Backend * (JSError + Schedule num).

(** The optimizer, with a record of the weights of every call it serves. *)
Definition recording_optimizer (weights : Weights num)
    (b : Backend * list (Weights num))
  : (Backend * list (Weights num)) * (JSError + Schedule num) :=
  let '(b', r) := optimizeSchedule weights (fst b) in
  ((b', (snd b ++ [weights])%list), r).

(** How many presets the loop tries: all of them, or those up to and
    including the first whose turn throws. *)
Fixpoint attempted (scenarios : list (Scenario num)) (b : Backend) : nat :=
  match scenarios with
  | [] => 0
  | s :: rest =>
      match scenario_body Backend optimizeSchedule s b with
      | (_, inl _) => 1
      | (b', inr _) => S (attempted rest b')
      end
  end.

End CallLog.

(** ** Further sample inputs *)

Section MoreSamples.

Context {num : Type} `{!JSNumber num}.

Local Open Scope string_scope.

(** A backend, by the number of calls it has served, that answers every
    endpoint, except that the optimizer rejects the call numbered
    [fail_at]. *)
Definition sample_api (fail_at : nat) : Api num nat unit unit :=
  {| generateData := fun calls => (S calls, inr tt);
     trainModel := fun calls => (S calls, inr tt);
     getHighRisk := fun calls => (S calls, inr snapshot_unknown);
     optimizeSchedule :=
       fun _ calls =>
         (S calls,
          if (calls =? fail_at)%nat then inl (RequestFailed "Network Error")
          else inr example_schedule);
     getJobs := fun calls => (S calls, inr [tt]);
     simulateMaintenance := fun calls => (S calls, inr [tt; tt]) |}.

(** The world at mount, before any call. *)
Definition sample_world : World num nat unit unit :=
  {| backend := 0%nat; page := initial_page; console := [] |}.

(** The record of [snapshot_unknown] whose level is in no bucket. *)
Definition unknown_record : MachineRiskRecord num :=
  {| Machine_ID := "M2"; health_score := num_of_Z 10;
     risk_level := "Critical" |}.

End MoreSamples.

(** ** Binary64 rounding, by values *)

Section RoundingQuantities.

Local Open Scope Z_scope.

(** The record after [k >= 1] shifts of a mantissa [M]: the quotient by
    2^k, whether the remainder reaches half of 2^k, and whether anything
    lies below that half. *)
Definition shifted (M k : Z) : shr_record :=
  {| shr_m := M / 2 ^ k;
     shr_r := 2 ^ (k - 1) <=? M mod 2 ^ k;
     shr_s := negb (M mod 2 ^ (k - 1) =? 0) |}.

(** [M / 2^k] rounded to the nearest integer, a tie going to the even
    one. *)
Definition RNE (M k : Z) : Z :=
  let q := M / 2 ^ k in
  let rem := M mod 2 ^ k in
  if 2 * rem <? 2 ^ k then q
  else if 2 ^ k <? 2 * rem then q + 1
  else if Z.even q then q else q + 1.

(** The second stage: the rounded mantissa [q] at exponent [t] is put
    back in shape. *)
Definition stage2 (s : bool) (q t : Z) : spec_float :=
  let '(mrs, e) := shr_fexp prec emax q t loc_Exact in
  match shr_m mrs with
  | Z0 => S754_zero s
  | Zpos m => if e <=? emax - prec then S754_finite s m e
              else S754_infinity s
  | Zneg _ => S754_nan
  end.

(** The exponent a mantissa [M] at exponent [E] is rounded at, and the
    mantissa it is rounded to. *)
Definition texp (M E : Z) : Z := SpecFloat.fexp prec emax (Zdigits2 M + E).

Definition rmant (M E : Z) : Z :=
  if E <=? texp M E then RNE M (texp M E - E) else M * 2 ^ (E - texp M E).

(** The float with mantissa [q] at exponent [t], a mantissa of 2^53 being
    carried to the next exponent. *)
Definition pack (s : bool) (q t : Z) : spec_float :=
  if q =? 0 then S754_zero s
  else if q <? 2 ^ 53 then
    if t <=? 971 then S754_finite s (Z.to_pos q) t else S754_infinity s
  else
    if t + 1 <=? 971 then S754_finite s (Z.to_pos (2 ^ 52)) (t + 1)
    else S754_infinity s.

(** The value of a float in units of 2^-1074, an infinity counting as
    2^2200, beyond every finite value. *)
Definition units (f : spec_float) : Z :=
  match f with
  | S754_zero _ => 0
  | S754_nan => 0
  | S754_infinity s => if s then - 2 ^ 2200 else 2 ^ 2200
  | S754_finite s m e =>
      if s then - (Z.pos m * 2 ^ (e + 1074)) else Z.pos m * 2 ^ (e + 1074)
  end.

(** The rounded value of [M * 2^E] before overflow is looked at. *)
Definition ideal (M E : Z) : Z := rmant M E * 2 ^ (texp M E + 1074).

(** Overflow: a value of 2^1024 or more becomes an infinity. *)
Definition clip (x : Z) : Z := if x <? 2 ^ 2098 then x else 2 ^ 2200.

(** The value of the float nearest to [M * 2^E]. *)
Definition rounded (M E : Z) : Z :=
  match M with
  | Z0 => 0
  | Zpos _ => clip (ideal M E)
  | Zneg _ => - clip (ideal (- M) E)
  end.

(** The value of a binary64. *)
Definition funits (x : float) : Z := units (Prim2SF x).

(** Neither an infinity nor NaN. *)
Definition finite_or_zero (f : spec_float) : Prop :=
  match f with
  | S754_zero _ | S754_finite _ _ _ => True
  | _ => False
  end.

End RoundingQuantities.

(** * Properties *)

(** ** Loops *)

(** A loop that only pushes builds the indexed map of its array. *)
Lemma forEach_from_push {A B : Type} (f : nat -> A -> B) (l : list A)
    (i : nat) (acc : list B) :
  forEach_from (fun x idx acc => push acc (f idx x)) i l acc
  = acc ++ imap (fun k => f (i + k)%nat) l.
Proof.
  revert i acc.
  induction l as [|x l IH]; intros i acc; simpl.
  - now rewrite app_nil_r.
  - rewrite IH. unfold push. rewrite <- app_assoc. simpl.
    rewrite Nat.add_0_r. do 2 f_equal.
    apply imap_ext. intros k y _. simpl. f_equal. lia.
Qed.

Section Generic.

Context {num : Type} `{!JSNumber num}.

(** ** Schedule aggregator: the counters *)

Lemma job_loop_counters (jobs : list (ScheduleJob num)) (i : nat)
    (t : Totals num) :
  let t' := forEach_from job_body i jobs t in
  t_totalScheduled t' = (t_totalScheduled t + length jobs)%nat
  /\ (t_onTime t' + t_late t' = t_onTime t + t_late t + length jobs)%nat
  /\ t_machineCount t' = t_machineCount t.
Proof.
  revert i t.
  induction jobs as [|job jobs IH]; intros i t; simpl.
  - repeat split; lia.
  - destruct (IH (S i) (job_body job i t)) as (H1 & H2 & H3).
    rewrite H1, H2, H3. simpl.
    destruct (num_leb (end_ job) (deadline_hours job)); repeat split; lia.
Qed.

Lemma machine_loop_counters (ms : list (MachineSchedule num)) (i : nat)
    (t : Totals num) :
  let t' := forEach_from machine_body i ms t in
  t_totalScheduled t'
  = (t_totalScheduled t + sum_list_with (fun m => length (schedule m)) ms)%nat
  /\ (t_onTime t' + t_late t'
      = t_onTime t + t_late t
        + sum_list_with (fun m => length (schedule m)) ms)%nat
  /\ t_machineCount t' = (t_machineCount t + length ms)%nat.
Proof.
  revert i t.
  induction ms as [|m ms IH]; intros i t; simpl.
  - repeat split; lia.
  - destruct (IH (S i) (machine_body m i t)) as (H1 & H2 & H3).
    rewrite H1, H2, H3. unfold machine_body, forEach.
    match goal with
    | |- context [forEach_from job_body 0 ?js ?t0] =>
        destruct (job_loop_counters js 0 t0) as (J1 & J2 & J3)
    end.
    rewrite J1, J2, J3. simpl. repeat split; lia.
Qed.

Lemma job_count_values (ms : list (string * MachineSchedule num)) :
  sum_list_with (fun m => length (schedule m)) (Object_values ms)
  = job_count ms.
Proof.
  unfold job_count, Object_values.
  induction ms as [|e ms IH]; simpl; [reflexivity | now rewrite IH].
Qed.

(** C3.  Whenever the schedule carries its machine mapping, the KPIs that
    the aggregator stores satisfy onTime + late = totalScheduled, and
    totalScheduled is the sum over all machines of the number of jobs of
    the machine. *)
Theorem computeScheduleKpis_on_time_late_partition
    (sch : Schedule num) (ms : list (string * MachineSchedule num))
    (d : Dashboard num) :
  machine_schedules sch = Some ms ->
  let k := scheduleKpis (computeScheduleKpis (Some sch) d) in
  (onTime k + late k = totalScheduled k)%nat
  /\ totalScheduled k = job_count ms.
Proof.
  intros Hms. unfold computeScheduleKpis. rewrite Hms. simpl.
  unfold forEach.
  match goal with
  | |- context [forEach_from machine_body 0 ?l ?t0] =>
      destruct (machine_loop_counters l 0 t0) as (H1 & H2 & _)
  end.
  rewrite H2, H1, job_count_values. simpl. split; reflexivity.
Qed.

(** ** Schedule aggregator: the sums *)

(** Whatever the numbers, the two loops add the hours and the revenue of the
    jobs one by one, machine after machine. *)
Lemma job_loop_sums (jobs : list (ScheduleJob num)) (i : nat)
    (t : Totals num) :
  let t' := forEach_from job_body i jobs t in
  t_totalBusyHours t'
  = fold_left (fun acc job => (acc + (end_ job - start job))%js) jobs
      (t_totalBusyHours t).
Proof.
  revert i t.
  induction jobs as [|job jobs IH]; intros i t; simpl; [reflexivity|].
  apply IH.
Qed.

Lemma machine_loop_sums (ms : list (string * MachineSchedule num)) (i : nat)
    (t : Totals num) :
  let t' := forEach_from machine_body i (Object_values ms) t in
  t_totalBusyHours t'
  = fold_left (fun acc job => (acc + (end_ job - start job))%js) (all_jobs ms)
      (t_totalBusyHours t).
Proof.
  revert i t.
  induction ms as [|e ms IH]; intros i t; simpl; [reflexivity|].
  rewrite IH, fold_left_app. f_equal.
  unfold machine_body, forEach. now rewrite job_loop_sums.
Qed.

(** The stored average for any number model: the hours of all jobs, added
    from left to right, over the number of entries of the mapping. *)
Lemma avgUtilization_left_to_right
    (sch : Schedule num) (ms : list (string * MachineSchedule num))
    (d : Dashboard num) :
  machine_schedules sch = Some ms ->
  avgUtilization (scheduleKpis (computeScheduleKpis (Some sch) d))
  = Number_toFixed1
      (if (0 <? length ms)%nat
       then (fold_left (fun acc job => (acc + (end_ job - start job))%js)
               (all_jobs ms) (num_of_Z 0)
             / num_of_nat (length ms))%js
       else num_of_Z 0).
Proof.
  intros Hms. unfold computeScheduleKpis. rewrite Hms. simpl.
  unfold forEach.
  match goal with
  | |- context [forEach_from machine_body 0 ?l ?t0] =>
      destruct (machine_loop_counters l 0 t0) as (_ & _ & Hcount);
      pose proof (machine_loop_sums ms 0 t0) as Hsum
  end.
  simpl in Hsum, Hcount.
  rewrite Hcount, Hsum. unfold Object_values. now rewrite length_map.
Qed.

(** ** Risk bucket projector *)

(** C2.  When the baseline total is 0 the projector returns the baseline
    itself, whatever the weights. *)
Theorem dynamicKpis_total_zero (kpis : FleetKPIs num) (weights : Weights num) :
  num_eqb (total kpis) (num_of_Z 0) = true ->
  dynamicKpis kpis weights = kpis.
Proof.
  intros Hzero. unfold dynamicKpis. now rewrite Hzero.
Qed.

End Generic.

(** ** Rounding to binary64

    What the library's specification of binary64 arithmetic computes, in
    terms of values: every operation rounds its exact result to the
    nearest float, ties to even, and that rounding keeps the order. *)

Section Binary64Rounding.

Local Open Scope Z_scope.

Lemma fexp64_eq (d : Z) : SpecFloat.fexp prec emax d = Z.max (d - 53) (-1074).
Proof. reflexivity. Qed.

Lemma pow2_succ (k : Z) : 0 <= k -> 2 ^ (k + 1) = 2 * 2 ^ k.
Proof.
  intros Hk. rewrite Z.pow_add_r by lia. change (2 ^ 1) with 2. lia.
Qed.

Lemma pow2_pos (k : Z) : 0 <= k -> 0 < 2 ^ k.
Proof. intros Hk. apply Z.pow_pos_nonneg; lia. Qed.

(** *** Shifting a mantissa to the right *)

Lemma iter_pos_iter {A : Type} (f : A -> A) (p : positive) (x : A) :
  SpecFloat.iter_pos f p x = Pos.iter f x p.
Proof.
  revert x. induction p as [p IH|p IH|]; intros x; simpl.
  - rewrite !IH. rewrite (Pos.iter_swap p A f x).
    now rewrite (Pos.iter_swap p A f (Pos.iter f x p)).
  - now rewrite !IH.
  - reflexivity.
Qed.

Lemma shr_1_nonneg (m : Z) (r s : bool) :
  0 <= m ->
  shr_1 {| shr_m := m; shr_r := r; shr_s := s |}
  = {| shr_m := m / 2; shr_r := Z.odd m; shr_s := r || s |}.
Proof.
  intros Hm. unfold shr_1.
  destruct m as [|p|p]; [reflexivity| |lia].
  destruct p as [p|p|]; f_equal; try reflexivity.
  - apply Z.div_unique with 1; lia.
  - apply Z.div_unique with 0; lia.
Qed.

Lemma mod_double (M b : Z) :
  0 < b -> M mod (2 * b) = M mod b + b * ((M / b) mod 2).
Proof.
  intros Hb. rewrite (Z.mul_comm 2 b). apply Z.rem_mul_r; lia.
Qed.

Lemma shifted_step (M k : Z) :
  0 <= M -> 1 <= k -> shr_1 (shifted M k) = shifted M (k + 1).
Proof.
  intros HM Hk. unfold shifted.
  assert (Hpk : 0 < 2 ^ k) by (apply Z.pow_pos_nonneg; lia).
  assert (Hpk1 : 0 < 2 ^ (k - 1)) by (apply Z.pow_pos_nonneg; lia).
  assert (Hk2 : 2 ^ k = 2 * 2 ^ (k - 1)).
  { rewrite <- pow2_succ by lia. f_equal. lia. }
  assert (Hk3 : 2 ^ (k + 1) = 2 * 2 ^ k) by (apply pow2_succ; lia).
  rewrite shr_1_nonneg by (apply Z.div_pos; lia).
  replace (k + 1 - 1) with k by lia.
  f_equal.
  - rewrite Hk3, (Z.mul_comm 2), Z.div_div by lia. reflexivity.
  - rewrite Hk3, (mod_double M (2 ^ k) Hpk).
    pose proof (Z.mod_pos_bound M (2 ^ k) Hpk) as Hb.
    pose proof (Z.mod_pos_bound (M / 2 ^ k) 2 ltac:(lia)) as Hb2.
    rewrite (Zmod_odd (M / 2 ^ k)).
    destruct (Z.odd (M / 2 ^ k)).
    + symmetry. apply Z.leb_le. lia.
    + symmetry. apply Z.leb_gt. lia.
  - rewrite Hk2, (mod_double M (2 ^ (k - 1)) Hpk1).
    pose proof (Z.mod_pos_bound M (2 ^ (k - 1)) Hpk1) as Hb.
    pose proof (Z.mod_pos_bound (M / 2 ^ (k - 1)) 2 ltac:(lia)) as Hb2.
    set (b := 2 ^ (k - 1)) in *. set (z := M mod b) in *.
    set (x := (M / b) mod 2) in *.
    assert (Hx : x = 0 \/ x = 1) by lia.
    destruct Hx as [-> | ->];
      destruct (Z.leb_spec b (z + b * 0)); destruct (Z.leb_spec b (z + b * 1));
      destruct (Z.eqb_spec z 0);
      destruct (Z.eqb_spec (z + b * 0) 0);
      destruct (Z.eqb_spec (z + b * 1) 0);
      simpl; try reflexivity; exfalso; lia.
Qed.

Lemma shifted_one (M : Z) :
  0 <= M ->
  shr_1 {| shr_m := M; shr_r := false; shr_s := false |} = shifted M 1.
Proof.
  intros HM. rewrite shr_1_nonneg by exact HM. unfold shifted. simpl.
  f_equal.
  - change (2 ^ 1) with 2. change (2 ^ (1 - 1)) with 1.
    rewrite (Zmod_odd M). now destruct (Z.odd M).
  - now rewrite Z.mod_1_r.
Qed.

Lemma shr_shifted (M e : Z) (p : positive) :
  0 <= M ->
  shr {| shr_m := M; shr_r := false; shr_s := false |} e (Z.pos p)
  = (shifted M (Z.pos p), e + Z.pos p).
Proof.
  intros HM. unfold shr. f_equal. rewrite iter_pos_iter.
  induction p as [|p IH] using Pos.peano_ind.
  - simpl. now apply shifted_one.
  - rewrite Pos.iter_succ, IH, Pos2Z.inj_succ.
    apply shifted_step; lia.
Qed.

(** *** Rounding a quotient to the nearest integer, ties to even *)

Lemma round_shifted (M k : Z) :
  0 <= M -> 1 <= k ->
  round_nearest_even (shr_m (shifted M k)) (loc_of_shr_record (shifted M k))
  = RNE M k.
Proof.
  intros HM Hk. unfold shifted, RNE. cbn [shr_m loc_of_shr_record].
  assert (Hpk1 : 0 < 2 ^ (k - 1)) by (apply pow2_pos; lia).
  assert (Hk2 : 2 ^ k = 2 * 2 ^ (k - 1)).
  { rewrite <- pow2_succ by lia. f_equal. lia. }
  rewrite Hk2, (mod_double M (2 ^ (k - 1)) Hpk1).
  pose proof (Z.mod_pos_bound M (2 ^ (k - 1)) Hpk1) as Hb.
  pose proof (Z.mod_pos_bound (M / 2 ^ (k - 1)) 2 ltac:(lia)) as Hb2.
  set (b := 2 ^ (k - 1)) in *. set (z := M mod b) in *.
  set (x := (M / b) mod 2) in *. set (q := M / (2 * b)).
  assert (Hx : x = 0 \/ x = 1) by lia.
  destruct Hx as [-> | ->].
  - destruct (Z.leb_spec b (z + b * 0)); [lia|].
    destruct (Z.ltb_spec (2 * (z + b * 0)) (2 * b)); [|lia].
    destruct (Z.eqb_spec z 0); reflexivity.
  - destruct (Z.leb_spec b (z + b * 1)); [|lia].
    destruct (Z.ltb_spec (2 * (z + b * 1)) (2 * b)); [lia|].
    destruct (Z.eqb_spec z 0) as [Hz|Hz]; simpl.
    + destruct (Z.ltb_spec (2 * b) (2 * (z + b * 1))); [lia | reflexivity].
    + destruct (Z.ltb_spec (2 * b) (2 * (z + b * 1))); [reflexivity | lia].
Qed.

Lemma RNE_0 (M : Z) : RNE M 0 = M.
Proof.
  unfold RNE. change (2 ^ 0) with 1. rewrite Z.div_1_r, Z.mod_1_r.
  reflexivity.
Qed.

Lemma RNE_bounds (M k : Z) :
  0 <= k -> M / 2 ^ k <= RNE M k <= M / 2 ^ k + 1.
Proof.
  intros Hk. unfold RNE.
  destruct (_ <? _); [lia|]. destruct (_ <? _); [lia|].
  destruct (Z.even _); lia.
Qed.

Lemma RNE_exact (a k : Z) : 0 <= k -> RNE (a * 2 ^ k) k = a.
Proof.
  intros Hk. unfold RNE. pose proof (pow2_pos k Hk).
  rewrite Z.div_mul, Z.mod_mul by lia.
  destruct (Z.ltb_spec (2 * 0) (2 ^ k)); [reflexivity | lia].
Qed.

Lemma RNE_mono (M1 M2 k : Z) :
  0 <= k -> M1 <= M2 -> RNE M1 k <= RNE M2 k.
Proof.
  intros Hk HM. pose proof (pow2_pos k Hk) as Hp.
  pose proof (Z.div_le_mono M1 M2 (2 ^ k) Hp HM) as Hq.
  destruct (Z.eq_dec (M1 / 2 ^ k) (M2 / 2 ^ k)) as [E|E].
  - unfold RNE. rewrite E.
    pose proof (Z.div_mod M1 (2 ^ k) ltac:(lia)) as H1.
    pose proof (Z.div_mod M2 (2 ^ k) ltac:(lia)) as H2.
    rewrite E in H1.
    assert (Hr : M1 mod 2 ^ k <= M2 mod 2 ^ k) by lia.
    destruct (Z.ltb_spec (2 * (M1 mod 2 ^ k)) (2 ^ k));
      destruct (Z.ltb_spec (2 * (M2 mod 2 ^ k)) (2 ^ k));
      destruct (Z.ltb_spec (2 ^ k) (2 * (M1 mod 2 ^ k)));
      destruct (Z.ltb_spec (2 ^ k) (2 * (M2 mod 2 ^ k)));
      destruct (Z.even (M2 / 2 ^ k)); lia.
  - pose proof (RNE_bounds M1 k Hk). pose proof (RNE_bounds M2 k Hk). lia.
Qed.

(** Shifting the mantissa to the left and rounding further to the right
    changes nothing. *)
Lemma RNE_shift (M j k : Z) :
  0 <= j -> 0 <= k -> RNE (M * 2 ^ j) (k + j) = RNE M k.
Proof.
  intros Hj Hk. unfold RNE.
  pose proof (pow2_pos j Hj) as Hpj. pose proof (pow2_pos k Hk) as Hpk.
  rewrite Z.pow_add_r by lia.
  rewrite Z.div_mul_cancel_r by lia.
  rewrite Z.mul_mod_distr_r by lia.
  set (r := M mod 2 ^ k). set (q := M / 2 ^ k).
  destruct (Z.ltb_spec (2 * r) (2 ^ k));
    destruct (Z.ltb_spec (2 * (r * 2 ^ j)) (2 ^ k * 2 ^ j));
    try reflexivity; try nia.
  destruct (Z.ltb_spec (2 ^ k) (2 * r));
    destruct (Z.ltb_spec (2 ^ k * 2 ^ j) (2 * (r * 2 ^ j)));
    try reflexivity; nia.
Qed.

(** *** The number of binary digits *)

Lemma digits2_pos_size (p : positive) : digits2_pos p = Pos.size p.
Proof. induction p as [p IH|p IH|]; simpl; now rewrite ?IH. Qed.

Lemma Zdigits2_bounds (M : Z) :
  0 < M -> 1 <= Zdigits2 M /\ 2 ^ (Zdigits2 M - 1) <= M < 2 ^ Zdigits2 M.
Proof.
  intros HM. destruct M as [|p|p]; try lia.
  cbn [Zdigits2]. rewrite digits2_pos_size.
  pose proof (Pos.size_gt p) as Hgt. pose proof (Pos.size_le p) as Hle.
  apply Pos2Z.pos_lt_pos in Hgt. apply Pos2Z.pos_le_pos in Hle.
  rewrite Pos2Z.inj_pow in Hgt, Hle.
  change (Z.pos p~0) with (2 * Z.pos p) in Hle.
  split; [lia|].
  replace (2 ^ Z.pos (Pos.size p)) with (2 * 2 ^ (Z.pos (Pos.size p) - 1))
    in Hle.
  - lia.
  - rewrite <- pow2_succ by lia. f_equal. lia.
Qed.

Lemma Zdigits2_unique (M k : Z) :
  2 ^ (k - 1) <= M < 2 ^ k -> 1 <= k -> Zdigits2 M = k.
Proof.
  intros HM Hk.
  assert (Hpos : 0 < M) by (pose proof (pow2_pos (k - 1)); lia).
  destruct (Zdigits2_bounds M Hpos) as (Hd & Hlo & Hhi).
  destruct (Z.lt_trichotomy (Zdigits2 M) k) as [Hlt|[Heq|Hgt]];
    [|exact Heq|].
  - assert (2 ^ Zdigits2 M <= 2 ^ (k - 1))
      by (apply Z.pow_le_mono_r; lia).
    lia.
  - assert (2 ^ k <= 2 ^ (Zdigits2 M - 1))
      by (apply Z.pow_le_mono_r; lia).
    lia.
Qed.

Lemma Zdigits2_mono (M1 M2 : Z) :
  0 < M1 -> M1 <= M2 -> Zdigits2 M1 <= Zdigits2 M2.
Proof.
  intros H1 H12.
  destruct (Zdigits2_bounds M1 H1) as (Hd1 & Hlo1 & Hhi1).
  destruct (Zdigits2_bounds M2 ltac:(lia)) as (Hd2 & Hlo2 & Hhi2).
  destruct (Z.le_gt_cases (Zdigits2 M1) (Zdigits2 M2)) as [H|H];
    [exact H|].
  assert (2 ^ Zdigits2 M2 <= 2 ^ (Zdigits2 M1 - 1))
    by (apply Z.pow_le_mono_r; lia).
  lia.
Qed.

Lemma Zdigits2_shift (M k : Z) :
  0 < M -> 0 <= k -> Zdigits2 (M * 2 ^ k) = Zdigits2 M + k.
Proof.
  intros HM Hk.
  destruct (Zdigits2_bounds M HM) as (Hd & Hlo & Hhi).
  pose proof (pow2_pos k Hk) as Hp.
  apply Zdigits2_unique; [|lia].
  replace (Zdigits2 M + k - 1) with (Zdigits2 M - 1 + k) by lia.
  rewrite !Z.pow_add_r by lia. nia.
Qed.

(** *** The two stages of rounding *)

Lemma shr_fexp_exact (M E : Z) :
  0 <= M ->
  let n := Z.max (SpecFloat.fexp prec emax (Zdigits2 M + E) - E) 0 in
  exists mrs : shr_record,
    shr_fexp prec emax M E loc_Exact = (mrs, E + n)
    /\ round_nearest_even (shr_m mrs) (loc_of_shr_record mrs) = RNE M n
    /\ (n = 0 -> shr_m mrs = M).
Proof.
  intros HM n. unfold shr_fexp. cbn [shr_record_of_loc].
  subst n.
  destruct (SpecFloat.fexp prec emax (Zdigits2 M + E) - E) as [|p|p] eqn:Hn.
  - eexists. split; [unfold shr; rewrite Z.add_0_r; reflexivity|].
    cbn. split; [now rewrite RNE_0 | reflexivity].
  - rewrite shr_shifted by exact HM.
    eexists. split; [rewrite Z.max_l by lia; reflexivity|].
    split; [|lia].
    rewrite Z.max_l by lia. apply round_shifted; lia.
  - eexists. split; [unfold shr; rewrite Z.max_r, Z.add_0_r by lia;
                     reflexivity|].
    cbn. rewrite Z.max_r by lia. split; [now rewrite RNE_0 | reflexivity].
Qed.

Lemma round_aux_stages (s : bool) (M E : Z) :
  0 <= M ->
  let n := Z.max (SpecFloat.fexp prec emax (Zdigits2 M + E) - E) 0 in
  binary_round_aux prec emax s M E loc_Exact = stage2 s (RNE M n) (E + n).
Proof.
  intros HM n. unfold binary_round_aux.
  destruct (shr_fexp_exact M E HM) as (mrs & Hshr & Hround & _).
  fold n in Hshr, Hround. rewrite Hshr, Hround. reflexivity.
Qed.

Lemma texp_eq (M E : Z) : texp M E = Z.max (Zdigits2 M + E - 53) (-1074).
Proof. reflexivity. Qed.

Lemma rmant_range (M E : Z) :
  0 < M ->
  0 <= rmant M E <= 2 ^ 53 /\ (-1074 < texp M E -> 2 ^ 52 <= rmant M E).
Proof.
  intros HM. unfold rmant.
  destruct (Zdigits2_bounds M HM) as (Hd & Hlo & Hhi).
  pose proof (texp_eq M E) as Ht.
  set (t := texp M E) in *. set (d := Zdigits2 M) in *.
  destruct (Z.leb_spec E t) as [HE|HE].
  - pose proof (RNE_bounds M (t - E) ltac:(lia)) as Hb.
    pose proof (pow2_pos (t - E) ltac:(lia)) as Hp.
    assert (Hq0 : 0 <= M / 2 ^ (t - E)) by (apply Z.div_pos; lia).
    assert (Hq1 : M / 2 ^ (t - E) < 2 ^ 53).
    { apply Z.div_lt_upper_bound; [lia|].
      rewrite <- Z.pow_add_r by lia.
      assert (2 ^ d <= 2 ^ (t - E + 53)) by (apply Z.pow_le_mono_r; lia).
      lia. }
    split; [lia|]. intros Hn.
    assert (Htd : t = d + E - 53) by lia.
    assert (2 ^ 52 <= M / 2 ^ (t - E)); [|lia].
    apply Z.div_le_lower_bound; [lia|].
    rewrite <- Z.pow_add_r by lia.
    replace (t - E + 52) with (d - 1) by lia. lia.
  - pose proof (pow2_pos (E - t) ltac:(lia)) as Hp.
    assert (Hup : M * 2 ^ (E - t) < 2 ^ 53).
    { assert (2 ^ d * 2 ^ (E - t) <= 2 ^ 53).
      { rewrite <- Z.pow_add_r by lia. apply Z.pow_le_mono_r; lia. }
      nia. }
    split; [nia|]. intros Hn.
    assert (Htd : t = d + E - 53) by lia.
    assert (2 ^ 52 = 2 ^ (d - 1) * 2 ^ (E - t)).
    { rewrite <- Z.pow_add_r by lia. f_equal. lia. }
    nia.
Qed.

Lemma stage2_pack (s : bool) (q t : Z) :
  -1074 <= t -> 0 <= q <= 2 ^ 53 -> (-1074 < t -> 2 ^ 52 <= q) ->
  stage2 s q t = pack s q t.
Proof.
  intros Ht Hq Hnormal. unfold stage2, pack.
  destruct (shr_fexp_exact q t ltac:(lia)) as (mrs & Hshr & _ & Hsame).
  destruct (Z.eqb_spec q 0) as [Hq0|Hq0].
  - subst q. rewrite Hshr.
    rewrite Hsame; [reflexivity|].
    cbn [Zdigits2]. rewrite fexp64_eq. lia.
  - destruct (Z.ltb_spec q (2 ^ 53)) as [Hlt|Hge].
    + destruct (Zdigits2_bounds q ltac:(lia)) as (Hd & Hlo & Hhi).
      assert (Hd53 : Zdigits2 q <= 53).
      { destruct (Z.le_gt_cases (Zdigits2 q) 53) as [H|H]; [exact H|].
        assert (2 ^ 53 <= 2 ^ (Zdigits2 q - 1))
          by (apply Z.pow_le_mono_r; lia).
        lia. }
      assert (Hn : SpecFloat.fexp prec emax (Zdigits2 q + t) = t).
      { rewrite fexp64_eq.
        destruct (Z.eq_dec t (-1074)) as [->|Hne]; [lia|].
        rewrite (Zdigits2_unique q 53); [lia| |lia].
        split; [apply Hnormal; lia | exact Hlt]. }
      rewrite Hshr, Hn, Z.sub_diag in *. cbn [Z.max] in *.
      rewrite Z.add_0_r.
      rewrite (Hsame eq_refl).
      destruct q as [|p|p]; [lia| |lia]. reflexivity.
    + assert (Hq53 : q = 2 ^ 53) by lia. subst q.
      unfold shr_fexp. cbn [shr_record_of_loc].
      change (Zdigits2 (2 ^ 53)) with 54.
      rewrite fexp64_eq.
      replace (Z.max (54 + t - 53) (-1074) - t) with 1 by lia.
      rewrite (shr_shifted (2 ^ 53) t 1) by lia.
      cbn [shifted shr_m].
      replace (2 ^ 53 / 2 ^ 1) with (2 ^ 52) by reflexivity.
      reflexivity.
Qed.

Lemma round_aux_pack (s : bool) (M E : Z) :
  0 < M -> E <= texp M E ->
  binary_round_aux prec emax s M E loc_Exact
  = pack s (rmant M E) (texp M E).
Proof.
  intros HM HE.
  rewrite round_aux_stages by lia. fold (texp M E).
  rewrite Z.max_l by lia.
  replace (E + (texp M E - E)) with (texp M E) by lia.
  pose proof (rmant_range M E HM) as Hrange. unfold rmant in *.
  destruct (Z.leb_spec E (texp M E)); [|lia].
  apply stage2_pack; [rewrite texp_eq; lia | apply Hrange | apply Hrange].
Qed.

Lemma iter_xO (p d : positive) :
  Z.pos (Pos.iter xO p d) = Z.pos p * 2 ^ Z.pos d.
Proof.
  induction d as [|d IH] using Pos.peano_ind.
  - simpl. lia.
  - rewrite Pos.iter_succ, Pos2Z.inj_xO, IH, Pos2Z.inj_succ.
    rewrite <- Z.add_1_r, pow2_succ by lia. lia.
Qed.

(** Normalisation: the float nearest to [M * 2^E]. *)
Lemma binary_round_pack (s : bool) (p : positive) (E : Z) :
  binary_round prec emax s p E
  = pack s (rmant (Z.pos p) E) (texp (Z.pos p) E).
Proof.
  unfold binary_round, shl_align.
  change (SpecFloat.fexp prec emax (Z.pos (digits2_pos p) + E))
    with (texp (Z.pos p) E).
  destruct (texp (Z.pos p) E - E) as [|n|n] eqn:Hn.
  - apply round_aux_pack; lia.
  - apply round_aux_pack; lia.
  - rewrite iter_xO.
    assert (Hshift : E - texp (Z.pos p) E = Z.pos n) by lia.
    assert (Htgt : texp (Z.pos p * 2 ^ Z.pos n) (texp (Z.pos p) E)
                   = texp (Z.pos p) E).
    { unfold texp at 1. rewrite Zdigits2_shift by lia.
      unfold texp. f_equal. fold (texp (Z.pos p) E). lia. }
    assert (Hpos : 0 < Z.pos p * 2 ^ Z.pos n)
      by (pose proof (pow2_pos (Z.pos n)); nia).
    destruct (Z.pos p * 2 ^ Z.pos n) as [|m|m] eqn:Hm; try lia.
    rewrite <- Hm in *.
    replace (Z.pos m) with (Z.pos p * 2 ^ Z.pos n) by (rewrite Hm; reflexivity).
    rewrite round_aux_pack by lia.
    rewrite Htgt. f_equal. unfold rmant. rewrite Htgt.
    rewrite Z.leb_refl, Z.sub_diag, RNE_0.
    destruct (Z.leb_spec E (texp (Z.pos p) E)); [lia|].
    now rewrite Hshift.
Qed.

(** *** The result does not depend on how the number is written *)

Lemma texp_shift (M E k : Z) :
  0 < M -> 0 <= k -> texp (M * 2 ^ k) (E - k) = texp M E.
Proof.
  intros HM Hk. unfold texp. rewrite Zdigits2_shift by lia. f_equal. lia.
Qed.

Lemma rmant_shift (M E k : Z) :
  0 < M -> 0 <= k -> rmant (M * 2 ^ k) (E - k) = rmant M E.
Proof.
  intros HM Hk. unfold rmant. rewrite texp_shift by lia.
  set (t := texp M E).
  destruct (Z.leb_spec E t) as [HE|HE].
  - destruct (Z.leb_spec (E - k) t); [|lia].
    replace (t - (E - k)) with (t - E + k) by lia.
    apply RNE_shift; lia.
  - destruct (Z.leb_spec (E - k) t) as [HEk|HEk].
    + replace (M * 2 ^ k) with (M * 2 ^ (E - t) * 2 ^ (t - (E - k))).
      * apply RNE_exact. lia.
      * rewrite <- Z.mul_assoc, <- Z.pow_add_r by lia. do 2 f_equal. lia.
    + rewrite <- Z.mul_assoc, <- Z.pow_add_r by lia. do 2 f_equal. lia.
Qed.

(** *** Values *)

Lemma pow2_le (a b : Z) : 0 <= a -> a <= b -> 2 ^ a <= 2 ^ b.
Proof. intros. apply Z.pow_le_mono_r; lia. Qed.

Lemma pow2_lt (a b : Z) : 0 <= a -> a < b -> 2 ^ a < 2 ^ b.
Proof. intros. apply Z.pow_lt_mono_r; lia. Qed.

Lemma texp_lower (M E : Z) : -1074 <= texp M E.
Proof. rewrite texp_eq. lia. Qed.

Lemma ideal_shift (M E k : Z) :
  0 < M -> 0 <= k -> ideal (M * 2 ^ k) (E - k) = ideal M E.
Proof.
  intros HM Hk. unfold ideal. now rewrite rmant_shift, texp_shift by lia.
Qed.

Lemma ideal_mono (M1 M2 E : Z) : 0 < M1 -> M1 <= M2 -> ideal M1 E <= ideal M2 E.
Proof.
  intros H1 H12. unfold ideal.
  pose proof (Zdigits2_mono M1 M2 H1 H12) as Hd.
  pose proof (texp_eq M1 E) as Ht1. pose proof (texp_eq M2 E) as Ht2.
  destruct (rmant_range M1 E H1) as (Hq1 & Hn1).
  destruct (rmant_range M2 E ltac:(lia)) as (Hq2 & Hn2).
  destruct (Z.eq_dec (texp M1 E) (texp M2 E)) as [Heq|Hne].
  - assert (Hq : rmant M1 E <= rmant M2 E).
    { unfold rmant. rewrite <- Heq.
      destruct (Z.leb_spec E (texp M1 E)).
      - apply RNE_mono; lia.
      - pose proof (pow2_pos (E - texp M1 E) ltac:(lia)). nia. }
    rewrite <- Heq.
    pose proof (pow2_pos (texp M1 E + 1074) ltac:(lia)). nia.
  - assert (Hlt : texp M1 E < texp M2 E) by lia.
    assert (H52 : 2 ^ 52 <= rmant M2 E) by (apply Hn2; lia).
    assert (Hp : 2 * 2 ^ (texp M1 E + 1074) <= 2 ^ (texp M2 E + 1074)).
    { rewrite <- pow2_succ by lia. apply pow2_le; lia. }
    pose proof (pow2_pos (texp M1 E + 1074) ltac:(lia)).
    change (2 ^ 53) with (2 * 2 ^ 52) in Hq1.
    assert (0 < 2 ^ 52) by reflexivity.
    nia.
Qed.

Lemma ideal_nonneg (M E : Z) : 0 < M -> 0 <= ideal M E.
Proof.
  intros HM. unfold ideal. destruct (rmant_range M E HM) as (Hq & _).
  pose proof (texp_lower M E).
  pose proof (pow2_pos (texp M E + 1074) ltac:(lia)). nia.
Qed.

Lemma clip_mono (x y : Z) : x <= y -> clip x <= clip y.
Proof.
  intros Hxy. unfold clip.
  assert (2 ^ 2098 < 2 ^ 2200) by (apply pow2_lt; lia).
  destruct (Z.ltb_spec x (2 ^ 2098)); destruct (Z.ltb_spec y (2 ^ 2098));
    lia.
Qed.

Lemma clip_nonneg (x : Z) : 0 <= x -> 0 <= clip x.
Proof.
  intros Hx. unfold clip.
  pose proof (pow2_pos 2200 ltac:(lia)).
  destruct (Z.ltb_spec x (2 ^ 2098)); lia.
Qed.

Lemma rounded_mono (M1 M2 E : Z) :
  M1 <= M2 -> rounded M1 E <= rounded M2 E.
Proof.
  intros H12. unfold rounded.
  destruct M1 as [|p1|p1], M2 as [|p2|p2]; try lia.
  - apply clip_nonneg, ideal_nonneg. lia.
  - apply clip_mono, ideal_mono; lia.
  - pose proof (clip_nonneg (ideal (- Z.neg p1) E)
                  (ideal_nonneg (- Z.neg p1) E ltac:(lia))).
    lia.
  - pose proof (clip_nonneg (ideal (- Z.neg p1) E)
                  (ideal_nonneg (- Z.neg p1) E ltac:(lia))).
    pose proof (clip_nonneg (ideal (Z.pos p2) E)
                  (ideal_nonneg (Z.pos p2) E ltac:(lia))).
    lia.
  - assert (clip (ideal (- Z.neg p2) E) <= clip (ideal (- Z.neg p1) E)); [|lia].
    apply clip_mono, ideal_mono; lia.
Qed.

Lemma rounded_shift (M E k : Z) :
  0 <= k -> rounded (M * 2 ^ k) (E - k) = rounded M E.
Proof.
  intros Hk. pose proof (pow2_pos k Hk) as Hp.
  destruct M as [|p|p].
  - reflexivity.
  - assert (Hpos : 0 < Z.pos p * 2 ^ k) by nia.
    unfold rounded. destruct (Z.pos p * 2 ^ k) eqn:Hm; try lia.
    rewrite <- Hm. now rewrite ideal_shift by lia.
  - assert (Hneg : Z.neg p * 2 ^ k < 0) by nia.
    unfold rounded. destruct (Z.neg p * 2 ^ k) eqn:Hm; try lia.
    rewrite <- Hm.
    replace (- (Z.neg p * 2 ^ k)) with (- Z.neg p * 2 ^ k) by lia.
    now rewrite ideal_shift by lia.
Qed.

Lemma pow2_2098 : 2 ^ 53 * 2 ^ 2045 = 2 ^ 2098.
Proof. rewrite <- Z.pow_add_r by lia. reflexivity. Qed.

Lemma units_pack (s : bool) (q t : Z) :
  -1074 <= t -> 0 <= q <= 2 ^ 53 -> (-1074 < t -> 2 ^ 52 <= q) ->
  units (pack s q t)
  = if s then - clip (q * 2 ^ (t + 1074)) else clip (q * 2 ^ (t + 1074)).
Proof.
  intros Ht Hq Hnormal. unfold pack.
  pose proof pow2_2098 as Hbig.
  assert (H53 : 2 ^ 53 = 2 * 2 ^ 52) by reflexivity.
  assert (H52 : 0 < 2 ^ 52) by reflexivity.
  pose proof (pow2_pos (t + 1074) ltac:(lia)) as HP.
  destruct (Z.eqb_spec q 0) as [->|Hq0].
  - simpl. unfold clip.
    pose proof (pow2_pos 2098 ltac:(lia)).
    destruct (Z.ltb_spec 0 (2 ^ 2098)); [|lia]. now destruct s.
  - destruct (Z.ltb_spec q (2 ^ 53)) as [Hlt|Hge].
    + destruct (Z.leb_spec t 971) as [Hle|Hgt].
      * cbn [units]. rewrite Z2Pos.id by lia.
        assert (Hsmall : q * 2 ^ (t + 1074) < 2 ^ 2098).
        { pose proof (pow2_le (t + 1074) 2045 ltac:(lia) ltac:(lia)). nia. }
        unfold clip. destruct (Z.ltb_spec (q * 2 ^ (t + 1074)) (2 ^ 2098));
          [reflexivity | lia].
      * cbn [units].
        assert (Hlarge : 2 ^ 2098 <= q * 2 ^ (t + 1074)).
        { pose proof (pow2_le 2046 (t + 1074) ltac:(lia) ltac:(lia)).
          assert (2 ^ 2046 = 2 * 2 ^ 2045) by (apply (pow2_succ 2045); lia).
          specialize (Hnormal ltac:(lia)). nia. }
        unfold clip. destruct (Z.ltb_spec (q * 2 ^ (t + 1074)) (2 ^ 2098));
          [lia | reflexivity].
    + assert (Hq53 : q = 2 ^ 53) by lia.
      destruct (Z.leb_spec (t + 1) 971) as [Hle|Hgt].
      * cbn [units]. rewrite Z2Pos.id by lia.
        replace (t + 1 + 1074) with (t + 1074 + 1) by lia.
        rewrite pow2_succ by lia.
        assert (Hsmall : q * 2 ^ (t + 1074) < 2 ^ 2098).
        { pose proof (pow2_le (t + 1074) 2044 ltac:(lia) ltac:(lia)).
          assert (2 ^ 2045 = 2 * 2 ^ 2044) by (apply (pow2_succ 2044); lia).
          nia. }
        unfold clip. destruct (Z.ltb_spec (q * 2 ^ (t + 1074)) (2 ^ 2098));
          [|lia].
        destruct s; lia.
      * cbn [units].
        assert (Hlarge : 2 ^ 2098 <= q * 2 ^ (t + 1074)).
        { pose proof (pow2_le 2045 (t + 1074) ltac:(lia) ltac:(lia)). nia. }
        unfold clip. destruct (Z.ltb_spec (q * 2 ^ (t + 1074)) (2 ^ 2098));
          [lia | reflexivity].
Qed.

Lemma pack_valid (s : bool) (q t : Z) :
  -1074 <= t -> 0 <= q <= 2 ^ 53 -> (-1074 < t -> 2 ^ 52 <= q) ->
  valid_binary (pack s q t) = true.
Proof.
  intros Ht Hq Hnormal. unfold pack.
  destruct (Z.eqb_spec q 0) as [->|Hq0]; [reflexivity|].
  destruct (Z.ltb_spec q (2 ^ 53)) as [Hlt|Hge].
  - destruct (Z.leb_spec t 971) as [Hle|Hgt]; [|reflexivity].
    cbn [SpecFloat.valid_binary]. unfold bounded, canonical_mantissa.
    apply andb_true_intro. split; [|apply Z.leb_le; exact Hle].
    apply Z.eqb_eq.
    change (Z.pos (digits2_pos (Z.to_pos q))) with (Zdigits2 (Z.pos (Z.to_pos q))).
    rewrite Z2Pos.id by lia.
    destruct (Zdigits2_bounds q ltac:(lia)) as (Hd & Hlo & Hhi).
    rewrite fexp64_eq.
    assert (Hd53 : Zdigits2 q <= 53).
    { destruct (Z.le_gt_cases (Zdigits2 q) 53) as [H|H]; [exact H|].
      pose proof (pow2_le 53 (Zdigits2 q - 1) ltac:(lia) ltac:(lia)). lia. }
    destruct (Z.eq_dec t (-1074)) as [->|Hne]; [lia|].
    rewrite (Zdigits2_unique q 53); [lia| |lia].
    split; [apply Hnormal; lia | exact Hlt].
  - destruct (Z.leb_spec (t + 1) 971) as [Hle|Hgt]; [|reflexivity].
    cbn [SpecFloat.valid_binary]. unfold bounded, canonical_mantissa.
    apply andb_true_intro. split; [|apply Z.leb_le; exact Hle].
    apply Z.eqb_eq.
    change (Z.pos (digits2_pos (Z.to_pos (2 ^ 52)))) with 53.
    rewrite fexp64_eq. lia.
Qed.

Lemma units_normalize (M E : Z) (sz : bool) :
  units (binary_normalize prec emax M E sz) = rounded M E.
Proof.
  destruct M as [|p|p]; [reflexivity| |]; cbn [binary_normalize rounded].
  - rewrite binary_round_pack.
    destruct (rmant_range (Z.pos p) E ltac:(lia)) as (Hq & Hn).
    rewrite units_pack; [reflexivity | apply texp_lower | exact Hq | exact Hn].
  - rewrite binary_round_pack.
    destruct (rmant_range (Z.pos p) E ltac:(lia)) as (Hq & Hn).
    rewrite units_pack; [reflexivity | apply texp_lower | exact Hq | exact Hn].
Qed.

Lemma normalize_valid (M E : Z) (sz : bool) :
  valid_binary (binary_normalize prec emax M E sz) = true.
Proof.
  destruct M as [|p|p]; [reflexivity| |]; cbn [binary_normalize];
    rewrite binary_round_pack;
    destruct (rmant_range (Z.pos p) E ltac:(lia)) as (Hq & Hn);
    (apply pack_valid; [apply texp_lower | exact Hq | exact Hn]).
Qed.

(** *** Valid floats and their order *)

Lemma valid_finite (s : bool) (m : positive) (e : Z) :
  valid_binary (S754_finite s m e) = true ->
  -1074 <= e <= 971 /\ Z.pos m < 2 ^ 53
  /\ (-1074 < e -> 2 ^ 52 <= Z.pos m) /\ texp (Z.pos m) e = e.
Proof.
  cbn [SpecFloat.valid_binary]. unfold bounded, canonical_mantissa.
  intros H. apply andb_prop in H as [Hc Hb].
  apply Z.eqb_eq in Hc. apply Z.leb_le in Hb.
  change (SpecFloat.fexp prec emax (Z.pos (digits2_pos m) + e))
    with (texp (Z.pos m) e) in Hc.
  pose proof (texp_eq (Z.pos m) e) as Ht. rewrite Hc in Ht.
  destruct (Zdigits2_bounds (Z.pos m) ltac:(lia)) as (Hd & Hlo & Hhi).
  change (emax - prec) with 971 in Hb.
  split; [lia|]. split; [|split; [|exact Hc]].
  - pose proof (pow2_le (Zdigits2 (Z.pos m)) 53 ltac:(lia) ltac:(lia)). lia.
  - intros Hn.
    replace 52 with (Zdigits2 (Z.pos m) - 1) by lia. exact Hlo.
Qed.

Lemma units_finite_bounds (s : bool) (m : positive) (e : Z) :
  valid_binary (S754_finite s m e) = true ->
  0 < Z.pos m * 2 ^ (e + 1074) < 2 ^ 2098.
Proof.
  intros Hv. destruct (valid_finite s m e Hv) as (He & Hm & _ & _).
  pose proof (pow2_pos (e + 1074) ltac:(lia)).
  pose proof (pow2_le (e + 1074) 2045 ltac:(lia) ltac:(lia)).
  pose proof pow2_2098. split; nia.
Qed.

Lemma units_finite_order (m1 m2 : positive) (e1 e2 : Z) :
  valid_binary (S754_finite false m1 e1) = true ->
  valid_binary (S754_finite false m2 e2) = true ->
  e1 < e2 ->
  Z.pos m1 * 2 ^ (e1 + 1074) < Z.pos m2 * 2 ^ (e2 + 1074).
Proof.
  intros H1 H2 He.
  destruct (valid_finite _ _ _ H1) as (He1 & Hm1 & _ & _).
  destruct (valid_finite _ _ _ H2) as (He2 & _ & Hn2 & _).
  specialize (Hn2 ltac:(lia)).
  pose proof (pow2_pos (e1 + 1074) ltac:(lia)).
  pose proof (pow2_le (e1 + 1074 + 1) (e2 + 1074) ltac:(lia) ltac:(lia))
    as Hp.
  rewrite pow2_succ in Hp by lia.
  assert (H53 : 2 ^ 53 = 2 * 2 ^ 52) by reflexivity.
  nia.
Qed.

Lemma SFcompare_units (f1 f2 : spec_float) :
  valid_binary f1 = true -> valid_binary f2 = true ->
  f1 <> S754_nan -> f2 <> S754_nan ->
  SFcompare f1 f2 = Some (units f1 ?= units f2).
Proof.
  intros H1 H2 Hn1 Hn2.
  assert (Hinf : 2 ^ 2098 < 2 ^ 2200) by (apply pow2_lt; lia).
  assert (Hpos : 0 < 2 ^ 2098) by (apply pow2_pos; lia).
  destruct f1 as [s1|s1| |s1 m1 e1]; [| |congruence|];
    destruct f2 as [s2|s2| |s2 m2 e2]; try congruence;
    try pose proof (units_finite_bounds _ _ _ H1) as Hb1;
    try pose proof (units_finite_bounds _ _ _ H2) as Hb2.
  9: {
    destruct s1, s2; cbn [SFcompare units]; f_equal.
    - assert (H1' : valid_binary (S754_finite false m1 e1) = true)
        by exact H1.
      assert (H2' : valid_binary (S754_finite false m2 e2) = true)
        by exact H2.
      destruct (Z.compare_spec e1 e2) as [->|Hlt|Hgt].
      + pose proof (pow2_pos (e2 + 1074)
                      ltac:(destruct (valid_finite _ _ _ H2); lia)) as HP.
        change (Pos.compare_cont Eq m1 m2) with (m1 ?= m2)%positive.
        destruct (Pos.compare_spec m1 m2) as [->|Hm|Hm]; simpl; symmetry;
          [ apply Z.compare_refl
          | apply Z.compare_gt_iff; nia
          | apply Z.compare_lt_iff; nia ].
      + pose proof (units_finite_order m1 m2 e1 e2 H1' H2' Hlt).
        symmetry. apply Z.compare_gt_iff. lia.
      + pose proof (units_finite_order m2 m1 e2 e1 H2' H1' ltac:(lia)).
        symmetry. apply Z.compare_lt_iff. lia.
    - symmetry. apply Z.compare_lt_iff. lia.
    - symmetry. apply Z.compare_gt_iff. lia.
    - destruct (Z.compare_spec e1 e2) as [->|Hlt|Hgt].
      + pose proof (pow2_pos (e2 + 1074)
                      ltac:(destruct (valid_finite _ _ _ H2); lia)) as HP.
        change (Pos.compare_cont Eq m1 m2) with (m1 ?= m2)%positive.
        destruct (Pos.compare_spec m1 m2) as [->|Hm|Hm]; symmetry;
          [ apply Z.compare_refl
          | apply Z.compare_lt_iff; nia
          | apply Z.compare_gt_iff; nia ].
      + pose proof (units_finite_order m1 m2 e1 e2 H1 H2 Hlt).
        symmetry. apply Z.compare_lt_iff. lia.
      + pose proof (units_finite_order m2 m1 e2 e1 H2 H1 ltac:(lia)).
        symmetry. apply Z.compare_gt_iff. lia. }
  all: try destruct s1; try destruct s2; cbn [SFcompare units]; f_equal;
    symmetry;
    first [ apply Z.compare_refl
          | apply Z.compare_lt_iff; lia
          | apply Z.compare_gt_iff; lia ].
Qed.

Lemma SFleb_units (f1 f2 : spec_float) :
  valid_binary f1 = true -> valid_binary f2 = true ->
  f1 <> S754_nan -> f2 <> S754_nan ->
  SFleb f1 f2 = (units f1 <=? units f2).
Proof.
  intros H1 H2 Hn1 Hn2. unfold SFleb.
  rewrite (SFcompare_units f1 f2 H1 H2 Hn1 Hn2).
  unfold Z.leb. now destruct (units f1 ?= units f2).
Qed.

Lemma rounded_pos (M E : Z) : 0 < M -> rounded M E = clip (ideal M E).
Proof. intros HM. destruct M; try lia. reflexivity. Qed.

Lemma rounded_neg (M E : Z) : M < 0 -> rounded M E = - clip (ideal (- M) E).
Proof. intros HM. destruct M; try lia. reflexivity. Qed.

Lemma rounded_opp (M E : Z) : rounded (- M) E = - rounded M E.
Proof.
  destruct M as [|p|p]; [reflexivity| |].
  - rewrite rounded_neg, rounded_pos by lia. now rewrite Z.opp_involutive.
  - rewrite rounded_pos, rounded_neg by lia. lia.
Qed.

(** A float rounds to itself. *)
Lemma rounded_exact (f : spec_float) :
  valid_binary f = true -> f <> S754_nan ->
  (forall s, f <> S754_infinity s) ->
  rounded (units f) (-1074) = units f.
Proof.
  intros Hv Hnan Hinf.
  destruct f as [s|s| |s m e]; [reflexivity | now destruct (Hinf s)
                                | congruence |].
  destruct (valid_finite s m e Hv) as (He & Hm & Hn & Ht).
  pose proof (units_finite_bounds s m e Hv) as Hb.
  assert (Hpos : rounded (Z.pos m * 2 ^ (e + 1074)) (-1074)
                 = Z.pos m * 2 ^ (e + 1074)).
  { replace (-1074) with (e - (e + 1074)) by lia.
    rewrite rounded_shift by lia.
    rewrite rounded_pos by lia. unfold ideal, rmant. rewrite Ht.
    rewrite Z.leb_refl, Z.sub_diag, RNE_0. unfold clip.
    destruct (Z.ltb_spec (Z.pos m * 2 ^ (e + 1074)) (2 ^ 2098));
      [reflexivity | lia]. }
  cbn [units]. destruct s; [|exact Hpos].
  now rewrite rounded_opp, Hpos.
Qed.

Lemma units_bounds (f : spec_float) :
  valid_binary f = true -> - 2 ^ 2200 <= units f <= 2 ^ 2200.
Proof.
  intros Hv.
  assert (Hinf : 2 ^ 2098 < 2 ^ 2200) by (apply pow2_lt; lia).
  assert (Hpos : 0 < 2 ^ 2098) by (apply pow2_pos; lia).
  destruct f as [s|s| |s m e]; cbn [units]; try lia.
  - destruct s; lia.
  - pose proof (units_finite_bounds s m e Hv). destruct s; lia.
Qed.

End Binary64Rounding.

(** ** Binary64 operations are monotone *)

Section Binary64Order.

Local Open Scope float_scope.

Lemma is_nan_spec (x : float) :
  is_nan x = true <-> Prim2SF x = S754_nan.
Proof.
  unfold is_nan. rewrite FloatAxioms.eqb_spec. unfold SFeqb.
  destruct (Prim2SF x) as [s|s| |s m e] eqn:Hx.
  - split; [discriminate | discriminate].
  - split; [destruct s; discriminate | discriminate].
  - split; reflexivity.
  - pose proof (Prim2SF_valid x) as Hv. rewrite Hx in Hv.
    pose proof (SFcompare_units _ _ Hv Hv ltac:(discriminate)
                  ltac:(discriminate)) as Hc.
    rewrite Z.compare_refl in Hc. rewrite Hc. split; discriminate.
Qed.

Lemma is_nan_false (x : float) :
  is_nan x = false <-> Prim2SF x <> S754_nan.
Proof.
  rewrite <- is_nan_spec. destruct (is_nan x); split; congruence.
Qed.

Lemma leb_funits (x y : float) :
  (x <=? y) = true ->
  Prim2SF x <> S754_nan /\ Prim2SF y <> S754_nan /\ (funits x <= funits y)%Z.
Proof.
  rewrite FloatAxioms.leb_spec. intros Hle.
  assert (Hx : Prim2SF x <> S754_nan).
  { intros E. rewrite E in Hle. discriminate. }
  assert (Hy : Prim2SF y <> S754_nan).
  { intros E. rewrite E in Hle. now destruct (Prim2SF x). }
  split; [exact Hx|]. split; [exact Hy|].
  rewrite (SFleb_units _ _ (Prim2SF_valid x) (Prim2SF_valid y) Hx Hy) in Hle.
  now apply Z.leb_le.
Qed.

Lemma funits_leb (x y : float) :
  Prim2SF x <> S754_nan -> Prim2SF y <> S754_nan ->
  (funits x <= funits y)%Z -> (x <=? y) = true.
Proof.
  intros Hx Hy Hle. rewrite FloatAxioms.leb_spec.
  rewrite (SFleb_units _ _ (Prim2SF_valid x) (Prim2SF_valid y) Hx Hy).
  now apply Z.leb_le.
Qed.

Lemma funits_finite_bounds (x : float) :
  finite_or_zero (Prim2SF x) -> (- 2 ^ 2098 < funits x < 2 ^ 2098)%Z.
Proof.
  intros Hfz. unfold funits. pose proof (Prim2SF_valid x) as Hv.
  assert (Hpos : (0 < 2 ^ 2098)%Z) by (apply pow2_pos; lia).
  destruct (Prim2SF x) as [s|s| |s m e]; try contradiction; cbn [units].
  - lia.
  - pose proof (units_finite_bounds s m e Hv). destruct s; lia.
Qed.

(** *** Multiplication by a positive constant *)

Lemma pack_not_nan (s : bool) (q t : Z) : pack s q t <> S754_nan.
Proof.
  unfold pack.
  destruct (q =? 0)%Z; [discriminate|].
  destruct (q <? 2 ^ 53)%Z.
  - destruct (t <=? 971)%Z; discriminate.
  - destruct (t + 1 <=? 971)%Z; discriminate.
Qed.

Lemma SFmul_const_finite (s : bool) (m mc : positive) (e ec : Z) :
  valid_binary (S754_finite s m e) = true ->
  (2 ^ 52 <= Z.pos mc)%Z ->
  SF64mul (S754_finite s m e) (S754_finite false mc ec)
  = pack s (rmant (Z.pos m * Z.pos mc) (e + ec))
      (texp (Z.pos m * Z.pos mc) (e + ec)).
Proof.
  intros Hv Hmc.
  cbn [SF64mul SFmul]. rewrite xorb_false_r, Pos2Z.inj_mul.
  assert (Hprod : (2 ^ 52 <= Z.pos m * Z.pos mc)%Z) by nia.
  assert (Hd : (53 <= Zdigits2 (Z.pos m * Z.pos mc))%Z).
  { change 53%Z with (Zdigits2 (2 ^ 52)).
    apply Zdigits2_mono; [reflexivity | exact Hprod]. }
  apply round_aux_pack; [lia | rewrite texp_eq; lia].
Qed.

Lemma SFmul_const_units (f : spec_float) (mc : positive) (ec : Z) :
  valid_binary f = true -> finite_or_zero f ->
  (2 ^ 52 <= Z.pos mc)%Z ->
  units (SF64mul f (S754_finite false mc ec))
  = rounded (units f * Z.pos mc) (ec - 1074).
Proof.
  intros Hv Hfz Hmc.
  destruct f as [s|s| |s m e]; try contradiction.
  - reflexivity.
  - destruct (valid_finite s m e Hv) as (He & Hm & _ & _).
    rewrite SFmul_const_finite by assumption.
    destruct (rmant_range (Z.pos m * Z.pos mc) (e + ec) ltac:(lia))
      as (Hq & Hn).
    rewrite units_pack by (try apply texp_lower; assumption).
    fold (ideal (Z.pos m * Z.pos mc) (e + ec)).
    pose proof (pow2_pos (e + 1074) ltac:(lia)) as HP.
    assert (Hshift : ideal (Z.pos m * Z.pos mc * 2 ^ (e + 1074)) (ec - 1074)
                     = ideal (Z.pos m * Z.pos mc) (e + ec)).
    { replace (ec - 1074)%Z with (e + ec - (e + 1074))%Z by lia.
      apply ideal_shift; lia. }
    cbn [units]. destruct s.
    + rewrite rounded_neg by nia.
      replace (- (- (Z.pos m * 2 ^ (e + 1074)) * Z.pos mc))%Z
        with (Z.pos m * Z.pos mc * 2 ^ (e + 1074))%Z by lia.
      now rewrite Hshift.
    + rewrite rounded_pos by nia.
      replace (Z.pos m * 2 ^ (e + 1074) * Z.pos mc)%Z
        with (Z.pos m * Z.pos mc * 2 ^ (e + 1074))%Z by lia.
      now rewrite Hshift.
Qed.

Lemma SFmul_const_not_nan (f : spec_float) (mc : positive) (ec : Z) :
  valid_binary f = true -> f <> S754_nan -> (2 ^ 52 <= Z.pos mc)%Z ->
  SF64mul f (S754_finite false mc ec) <> S754_nan.
Proof.
  intros Hv Hn Hmc.
  destruct f as [s|s| |s m e]; try congruence; try discriminate.
  rewrite SFmul_const_finite by assumption. apply pack_not_nan.
Qed.

(** Multiplying by a positive normal constant keeps the order. *)
Lemma mul_const_mono (x1 x2 c : float) (mc : positive) (ec : Z) :
  Prim2SF c = S754_finite false mc ec -> (2 ^ 52 <= Z.pos mc)%Z ->
  (x1 <=? x2) = true -> (x1 * c <=? x2 * c) = true.
Proof.
  intros Hc Hmc Hle.
  destruct (leb_funits x1 x2 Hle) as (Hn1 & Hn2 & Hval).
  assert (Hinf : (2 ^ 2098 < 2 ^ 2200)%Z) by (apply pow2_lt; lia).
  pose proof (Prim2SF_valid x1) as Hv1. pose proof (Prim2SF_valid x2) as Hv2.
  pose proof (Prim2SF_valid (x1 * c)) as Hb1.
  pose proof (Prim2SF_valid (x2 * c)) as Hb2.
  apply units_bounds in Hb1, Hb2.
  apply funits_leb.
  - rewrite mul_spec, Hc. now apply SFmul_const_not_nan.
  - rewrite mul_spec, Hc. now apply SFmul_const_not_nan.
  - unfold funits in *. rewrite !mul_spec, Hc in *.
    destruct (Prim2SF x1) as [s1|s1| |s1 m1 e1] eqn:E1; try congruence;
      destruct (Prim2SF x2) as [s2|s2| |s2 m2 e2] eqn:E2; try congruence.
    all: try (rewrite !SFmul_const_units by (try assumption; exact I);
              apply rounded_mono;
              apply Z.mul_le_mono_nonneg_r; [lia | exact Hval]).
    all: try pose proof (units_finite_bounds _ _ _ Hv1) as Hf1.
    all: try pose proof (units_finite_bounds _ _ _ Hv2) as Hf2.
    all: cbn [units SF64mul SFmul xorb] in *.
    all: try (destruct s1); try (destruct s2); cbn [xorb units] in *; lia.
Qed.

(** *** Addition *)

Lemma shl_align_fst (m : positive) (e ez : Z) :
  (ez <= e)%Z ->
  Z.pos (fst (shl_align m e ez)) = (Z.pos m * 2 ^ (e - ez))%Z.
Proof.
  intros He. unfold shl_align.
  destruct (ez - e)%Z as [|d|d] eqn:Hd.
  - cbn [fst]. replace (e - ez)%Z with 0%Z by lia. cbn. lia.
  - lia.
  - cbn [fst]. rewrite iter_xO. do 2 f_equal. lia.
Qed.

Lemma SFadd_units (f1 f2 : spec_float) :
  valid_binary f1 = true -> valid_binary f2 = true ->
  finite_or_zero f1 -> finite_or_zero f2 ->
  SF64add f1 f2 <> S754_nan
  /\ units (SF64add f1 f2) = rounded (units f1 + units f2) (-1074).
Proof.
  intros Hv1 Hv2 Hfz1 Hfz2.
  destruct f1 as [s1|s1| |s1 m1 e1]; try contradiction;
    destruct f2 as [s2|s2| |s2 m2 e2]; try contradiction.
  - split; [now destruct s1, s2 | now destruct s1, s2].
  - split; [discriminate|].
    cbn [SF64add SFadd]. symmetry.
    change (units (S754_zero s1)) with 0%Z. rewrite Z.add_0_l.
    apply rounded_exact; [exact Hv2 | discriminate | discriminate].
  - split; [discriminate|].
    cbn [SF64add SFadd]. symmetry.
    change (units (S754_zero s2)) with 0%Z. rewrite Z.add_0_r.
    apply rounded_exact; [exact Hv1 | discriminate | discriminate].
  - cbn [SF64add SFadd].
    destruct (valid_finite _ _ _ Hv1) as (He1 & _).
    destruct (valid_finite _ _ _ Hv2) as (He2 & _).
    set (ez := Z.min e1 e2).
    split.
    { destruct (_ + _)%Z as [|p|p]; cbn [binary_normalize];
        [discriminate| |]; rewrite binary_round_pack; apply pack_not_nan. }
    rewrite units_normalize.
    rewrite !shl_align_fst by (subst ez; lia).
    replace (-1074)%Z with (ez - (ez + 1074))%Z by lia.
    rewrite <- (rounded_shift _ ez (ez + 1074)) by (subst ez; lia).
    f_equal.
    assert (H1 : (2 ^ (e1 - ez) * 2 ^ (ez + 1074) = 2 ^ (e1 + 1074))%Z).
    { rewrite <- Z.pow_add_r by (subst ez; lia). f_equal. lia. }
    assert (H2 : (2 ^ (e2 - ez) * 2 ^ (ez + 1074) = 2 ^ (e2 + 1074))%Z).
    { rewrite <- Z.pow_add_r by (subst ez; lia). f_equal. lia. }
    cbn [units]. unfold cond_Zopp. destruct s1, s2; nia.
Qed.

Lemma SFadd_finite_inv (f1 f2 : spec_float) :
  finite_or_zero (SF64add f1 f2) -> finite_or_zero f1 /\ finite_or_zero f2.
Proof.
  destruct f1 as [s1|s1| |s1 m1 e1], f2 as [s2|s2| |s2 m2 e2];
    cbn [SF64add SFadd finite_or_zero]; try tauto;
    try (destruct s1, s2; cbn; tauto).
Qed.

(** Adding to the same finite number keeps the order. *)
Lemma add_mono (n u1 u2 : float) :
  finite_or_zero (Prim2SF (n + u1)) -> finite_or_zero (Prim2SF (n + u2)) ->
  (funits u1 <= funits u2)%Z -> (funits (n + u1) <= funits (n + u2))%Z.
Proof.
  intros H1 H2 Hle. unfold funits in *. rewrite !add_spec in *.
  destruct (SFadd_finite_inv _ _ H1) as (Hn & Hu1).
  destruct (SFadd_finite_inv _ _ H2) as (_ & Hu2).
  destruct (SFadd_units _ _ (Prim2SF_valid n) (Prim2SF_valid u1) Hn Hu1)
    as (_ & ->).
  destruct (SFadd_units _ _ (Prim2SF_valid n) (Prim2SF_valid u2) Hn Hu2)
    as (_ & ->).
  apply rounded_mono. lia.
Qed.

(** *** The Date constructor's clipping *)

Lemma Prim2SF_of_Z (z : Z) :
  Prim2SF (Binary64.of_Z z) = binary_normalize prec emax z 0 false.
Proof.
  unfold Binary64.of_Z. apply Prim2SF_SF2Prim, normalize_valid.
Qed.

Lemma funits_of_Z (z : Z) : funits (Binary64.of_Z z) = rounded z 0.
Proof. unfold funits. now rewrite Prim2SF_of_Z, units_normalize. Qed.

Lemma of_Z_not_nan (z : Z) : Prim2SF (Binary64.of_Z z) <> S754_nan.
Proof.
  rewrite Prim2SF_of_Z.
  destruct z as [|p|p]; cbn [binary_normalize]; [discriminate| |];
    rewrite binary_round_pack; apply pack_not_nan.
Qed.

Lemma TimeClip_units (t : float) :
  is_nan (Binary64.TimeClip t) = false ->
  finite_or_zero (Prim2SF t)
  /\ funits (Binary64.TimeClip t) = rounded (funits t ÷ 2 ^ 1074) 0.
Proof.
  unfold Binary64.TimeClip, funits.
  pose proof (Prim2SF_valid t) as Hv.
  destruct (Prim2SF t) as [s|s| |s m e]; try (intros H; discriminate H).
  - intros _. split; [exact I|]. reflexivity.
  - cbv zeta.
    destruct (valid_finite s m e Hv) as (He & _).
    set (n := (if (0 <=? e)%Z then Z.pos m * 2 ^ e
               else Z.pos m / 2 ^ (- e))%Z).
    assert (Hn : (n = (Z.pos m * 2 ^ (e + 1074)) / 2 ^ 1074)%Z).
    { subst n. destruct (Z.leb_spec 0 e) as [H0|H0].
      - rewrite Z.pow_add_r by lia. rewrite Z.mul_assoc.
        rewrite Z.div_mul; [reflexivity|].
        pose proof (pow2_pos 1074 ltac:(lia)); lia.
      - replace (2 ^ 1074)%Z with (2 ^ (- e) * 2 ^ (e + 1074))%Z.
        + rewrite Z.div_mul_cancel_r; [reflexivity| |].
          * pose proof (pow2_pos (- e) ltac:(lia)); lia.
          * pose proof (pow2_pos (e + 1074) ltac:(lia)); lia.
        + rewrite <- Z.pow_add_r by lia. f_equal. lia. }
    assert (Hn0 : (0 <= n)%Z).
    { rewrite Hn. apply Z.div_pos; [|apply pow2_pos; lia].
      pose proof (pow2_pos (e + 1074) ltac:(lia)). nia. }
    destruct (8640000000000000 <? n)%Z; [intros H; discriminate H|].
    intros _. split; [exact I|].
    cbn [units]. destruct s.
    + fold (funits (Binary64.of_Z (- n))). rewrite funits_of_Z.
      f_equal. rewrite Z.quot_opp_l by (pose proof (pow2_pos 1074); lia).
      rewrite Z.quot_div_nonneg; [lia| |apply pow2_pos; lia].
      pose proof (pow2_pos (e + 1074) ltac:(lia)). nia.
    + fold (funits (Binary64.of_Z n)). rewrite funits_of_Z.
      f_equal. rewrite Z.quot_div_nonneg; [lia| |apply pow2_pos; lia].
      pose proof (pow2_pos (e + 1074) ltac:(lia)). nia.
Qed.

(** The constructor keeps the order of the numbers it accepts. *)
Lemma TimeClip_mono (t1 t2 : float) :
  is_nan (Binary64.TimeClip t1) = false ->
  is_nan (Binary64.TimeClip t2) = false ->
  (funits t1 <= funits t2)%Z ->
  (Binary64.TimeClip t1 <=? Binary64.TimeClip t2) = true.
Proof.
  intros H1 H2 Hle.
  destruct (TimeClip_units t1 H1) as (_ & Hv1).
  destruct (TimeClip_units t2 H2) as (_ & Hv2).
  apply funits_leb; [now apply is_nan_false | now apply is_nan_false |].
  rewrite Hv1, Hv2. apply rounded_mono.
  apply Z.quot_le_mono; [apply pow2_pos; lia | exact Hle].
Qed.

(** *** The dates of a job *)

Theorem dates_ordered (now a b c1 c2 : float) (m1 m2 : positive)
    (e1 e2 : Z) :
  Prim2SF c1 = S754_finite false m1 e1 -> (2 ^ 52 <= Z.pos m1)%Z ->
  Prim2SF c2 = S754_finite false m2 e2 -> (2 ^ 52 <= Z.pos m2)%Z ->
  (a <=? b) = true ->
  let ta := Binary64.TimeClip (now + a * c1 * c2) in
  let tb := Binary64.TimeClip (now + b * c1 * c2) in
  is_nan ta = false -> is_nan tb = false -> (ta <=? tb) = true.
Proof.
  intros Hc1 Hm1 Hc2 Hm2 Hab ta tb Ha Hb.
  pose proof (mul_const_mono a b c1 m1 e1 Hc1 Hm1 Hab) as H1.
  pose proof (mul_const_mono _ _ c2 m2 e2 Hc2 Hm2 H1) as H2.
  destruct (leb_funits _ _ H2) as (_ & _ & Hval).
  destruct (TimeClip_units _ Ha) as (Hfa & _).
  destruct (TimeClip_units _ Hb) as (Hfb & _).
  apply TimeClip_mono; [exact Ha | exact Hb |].
  now apply add_mono.
Qed.

End Binary64Order.

(** ** Timeline builder *)

Section Timeline.

Context {num : Type} `{!JSNumber num} `{!JSDate num}.

Lemma machine_tasks_length (now : Date num) (e : string * MachineSchedule num) :
  length (machine_tasks now e) = length (schedule (snd e)).
Proof. apply length_imap. Qed.

Lemma gantt_loop_from (now : Date num)
    (ms : list (string * MachineSchedule num)) (i : nat)
    (tasks : list (Task num)) :
  forEach_from
    (fun '(machineId, machine) _ tasks =>
       forEach
         (fun job idx tasks => push tasks (gantt_task now machineId job idx))
         (schedule machine) tasks)
    i ms tasks
  = tasks ++ flat_map (machine_tasks now) ms.
Proof.
  revert i tasks.
  induction ms as [|[machineId machine] ms IH]; intros i tasks; simpl.
  - now rewrite app_nil_r.
  - rewrite IH. unfold forEach.
    rewrite (forEach_from_push
               (fun idx job => gantt_task now machineId job idx)).
    rewrite <- app_assoc. reflexivity.
Qed.

(** The builder lists the machines in order and, within a machine, its jobs
    in order. *)
Lemma buildGanttTasks_flat_map (scheduleData : option (Schedule num))
    (now : Date num) :
  buildGanttTasks scheduleData now
  = flat_map (machine_tasks now) (machines_of scheduleData).
Proof.
  unfold buildGanttTasks, machines_of.
  destruct scheduleData as [sch|]; [|reflexivity].
  destruct (machine_schedules sch) as [ms|]; [|reflexivity].
  exact (gantt_loop_from now ms 0 []).
Qed.

Lemma flat_map_machine_tasks_length (now : Date num)
    (ms : list (string * MachineSchedule num)) :
  length (flat_map (machine_tasks now) ms) = job_count ms.
Proof.
  unfold job_count.
  induction ms as [|e ms IH]; simpl; [reflexivity|].
  now rewrite length_app, machine_tasks_length, IH.
Qed.

(** The task of the [j]-th job of the [i]-th machine sits after the tasks
    of all the jobs of the machines before it. *)
Lemma flat_map_machine_tasks_lookup (now : Date num)
    (ms : list (string * MachineSchedule num)) (i j : nat)
    (e : string * MachineSchedule num) (job : ScheduleJob num) :
  ms !! i = Some e ->
  schedule (snd e) !! j = Some job ->
  flat_map (machine_tasks now) ms !! (job_count (take i ms) + j)%nat
  = Some (gantt_task now (fst e) job j).
Proof.
  revert i.
  induction ms as [|e0 ms IH]; intros i Hi Hj; [discriminate|].
  destruct i as [|i]; simpl in *.
  - injection Hi as ->.
    rewrite lookup_app_l.
    + unfold machine_tasks. rewrite list_lookup_imap, Hj. reflexivity.
    + rewrite machine_tasks_length. eapply lookup_lt_Some; eassumption.
  - unfold job_count in *. simpl.
    rewrite lookup_app_r; rewrite machine_tasks_length; [|lia].
    replace (_ + _ + j - _)%nat
      with (sum_list_with (fun e => length (schedule (snd e))) (take i ms)
            + j)%nat
      by lia.
    now apply IH.
Qed.

(** For any number model: the timeline has one task per (machine, job)
    pair, in machine order and then job order, and the task's two Dates
    are constructed from now + job.start * 3600 * 1000 and
    now + job.end * 3600 * 1000. *)
Lemma buildGanttTasks_tasks
    (scheduleData : option (Schedule num)) (now : Date num) :
  let tasks := buildGanttTasks scheduleData now in
  let ms := machines_of scheduleData in
  length tasks = job_count ms
  /\ forall (i j : nat) (machineId : string) (machine : MachineSchedule num)
            (job : ScheduleJob num),
       ms !! i = Some (machineId, machine) ->
       schedule machine !! j = Some job ->
       exists t : Task num,
         tasks !! (job_count (take i ms) + j)%nat = Some t
         /\ id t = (machineId ++ "_" ++ string_of_nat j)%string
         /\ name t = Job_ID job
         /\ task_start t
            = new_Date
                (getTime now + start job * num_of_Z 3600 * num_of_Z 1000)%js
         /\ task_end t
            = new_Date
                (getTime now + end_ job * num_of_Z 3600 * num_of_Z 1000)%js
         /\ getTime (task_start t)
            = TimeClip
                (getTime now + start job * num_of_Z 3600 * num_of_Z 1000)%js
         /\ getTime (task_end t)
            = TimeClip
                (getTime now + end_ job * num_of_Z 3600 * num_of_Z 1000)%js.
Proof.
  intros tasks ms. subst tasks ms.
  rewrite buildGanttTasks_flat_map. split.
  - apply flat_map_machine_tasks_length.
  - intros i j machineId machine job Hi Hj.
    exists (gantt_task now machineId job j).
    split; [exact (flat_map_machine_tasks_lookup now _ i j _ job Hi Hj)|].
    repeat split.
Qed.

End Timeline.

(** C7, as the program has it.  The timeline has one task per
    (machine, job) pair: as many tasks as there are jobs, the task of job
    [j] of machine [i] standing right after the tasks of the machines
    before [i] and of the jobs before [j].  The task's start is the Date
    constructed from the binary64 number now + job.start * 3600 * 1000 and
    its end the Date constructed from now + job.end * 3600 * 1000; the
    time value of each is what the constructor's clipping makes of that
    number.  Whenever job.end >= job.start and both Dates are valid, the
    end is at or after the start. *)
Theorem buildGanttTasks_task_per_job
    (scheduleData : option (Schedule float)) (now : Date float) :
  let tasks := buildGanttTasks scheduleData now in
  let ms := machines_of scheduleData in
  length tasks = job_count ms
  /\ forall (i j : nat) (machineId : string)
            (machine : MachineSchedule float) (job : ScheduleJob float),
       ms !! i = Some (machineId, machine) ->
       schedule machine !! j = Some job ->
       exists t : Task float,
         tasks !! (job_count (take i ms) + j)%nat = Some t
         /\ id t = (machineId ++ "_" ++ string_of_nat j)%string
         /\ name t = Job_ID job
         /\ task_start t
            = new_Date
                (getTime now + start job * num_of_Z 3600 * num_of_Z 1000)%js
         /\ task_end t
            = new_Date
                (getTime now + end_ job * num_of_Z 3600 * num_of_Z 1000)%js
         /\ getTime (task_start t)
            = Binary64.TimeClip
                (getTime now + start job * num_of_Z 3600 * num_of_Z 1000)%js
         /\ getTime (task_end t)
            = Binary64.TimeClip
                (getTime now + end_ job * num_of_Z 3600 * num_of_Z 1000)%js
         /\ ((start job <=? end_ job)%js = true ->
             is_nan (getTime (task_start t)) = false ->
             is_nan (getTime (task_end t)) = false ->
             Date_geb (task_end t) (task_start t) = true).
Proof.
  intros tasks ms.
  destruct (buildGanttTasks_tasks scheduleData now) as [Hlen Htasks].
  split; [exact Hlen|].
  intros i j machineId machine job Hi Hj.
  destruct (Htasks i j machineId machine job Hi Hj)
    as (t & Ht & Hid & Hname & Hstart & Hend & Hts & Hte).
  exists t. do 7 (split; [assumption|]).
  intros Hle Hs He. unfold Date_geb.
  rewrite Hts, Hte in *.
  assert (Hc1 : Prim2SF (Binary64.of_Z 3600)
                = S754_finite false 7916483719987200 (-41))
    by (vm_compute; reflexivity).
  assert (Hc2 : Prim2SF (Binary64.of_Z 1000)
                = S754_finite false 8796093022208000 (-43))
    by (vm_compute; reflexivity).
  exact (dates_ordered (getTime now) (start job) (end_ job) _ _ _ _ _ _
           Hc1 ltac:(apply Z.leb_le; vm_compute; reflexivity)
           Hc2 ltac:(apply Z.leb_le; vm_compute; reflexivity)
           Hle Hs He).
Qed.

(** ** Deferral explainer *)

Section Deferral.

Context {num : Type} `{!JSNumber num}.

Lemma reasons_lookup (i : nat) : is_Some (reasons !! (i mod 3)%nat).
Proof.
  pose proof (Nat.mod_upper_bound i 3 ltac:(discriminate)) as Hlt.
  destruct (i mod 3)%nat as [|[|[|k]]]; simpl; eauto; lia.
Qed.

Lemma imap_deferred_id (f : nat -> option string) (l : list string) :
  map deferred_id
    (imap (fun idx jobId => {| deferred_id := jobId; reason := f idx |}) l)
  = l.
Proof.
  revert f.
  induction l as [|y l IH]; intros f; [reflexivity|].
  simpl. f_equal. apply (IH (fun idx => f (S idx))).
Qed.

(** C8.  The explainer keeps the unassigned job ids, in their order, and
    gives the job at index i the reason at index i mod 3 of a catalog of
    three reasons; hence the reasons at indices i and i + 3 agree. *)
Theorem deferredJobsList_reason_rotation
    (scheduleData : option (Schedule num)) :
  let out := deferredJobsList scheduleData in
  let ids := unassigned_of scheduleData in
  length out = length ids
  /\ map deferred_id out = ids
  /\ length reasons = 3%nat
  /\ (forall (i : nat) (e : DeferredJob),
        out !! i = Some e ->
        reason e = reasons !! (i mod 3)%nat /\ is_Some (reason e))
  /\ (forall (i : nat) (e e' : DeferredJob),
        out !! i = Some e -> out !! (i + 3)%nat = Some e' ->
        reason e = reason e').
Proof.
  intros out ids.
  assert (Hout : out
                 = imap (fun idx jobId =>
                           {| deferred_id := jobId;
                              reason := reasons !! (idx mod 3)%nat |}) ids).
  { subst out ids. unfold deferredJobsList, unassigned_of.
    destruct scheduleData as [sch|]; [|reflexivity].
    destruct (unassigned_jobs sch); reflexivity. }
  assert (Hat : forall i e, out !! i = Some e ->
                            reason e = reasons !! (i mod 3)%nat).
  { intros i e. rewrite Hout, list_lookup_imap.
    destruct (ids !! i); simpl; [|discriminate].
    intros [= <-]. reflexivity. }
  split; [rewrite Hout; apply length_imap|].
  split.
  { rewrite Hout. apply imap_deferred_id. }
  split; [reflexivity|].
  split.
  - intros i e Hi. rewrite (Hat i e Hi). split; [reflexivity|].
    apply reasons_lookup.
  - intros i e e' Hi Hi'.
    rewrite (Hat i e Hi), (Hat (i + 3)%nat e' Hi').
    replace (i + 3)%nat with (i + 1 * 3)%nat by lia.
    now rewrite Nat.Div0.mod_add.
Qed.

End Deferral.

(** ** Baseline counts *)

Section Baseline.

Context {num : Type} `{!JSNumber num}.

Local Open Scope nat_scope.

Lemma bucket_filters_cons (m : MachineRiskRecord num)
    (data : list (MachineRiskRecord num)) :
  let k := runPipeline_kpis data in
  let k' := runPipeline_kpis (m :: data) in
  total k' = S (total k)
  /\ ((bucketed m /\
       healthy k' + warning k' + highRisk k'
       = S (healthy k + warning k + highRisk k))
      \/ (~ bucketed m /\ healthy k' = healthy k /\ warning k' = warning k
          /\ highRisk k' = highRisk k)).
Proof.
  unfold runPipeline_kpis, bucketed. simpl.
  split; [reflexivity|].
  destruct (String.eqb_spec (risk_level m) "Healthy"%string) as [->|H1]; simpl.
  { left. split; [tauto | lia]. }
  destruct (String.eqb_spec (risk_level m) "Warning"%string) as [->|H2]; simpl.
  { left. split; [tauto | lia]. }
  destruct (String.eqb_spec (risk_level m) "High Risk"%string) as [->|H3];
    simpl.
  { left. split; [tauto | lia]. }
  right. repeat split; tauto.
Qed.

Lemma bucket_filters_le (data : list (MachineRiskRecord num)) :
  let k := runPipeline_kpis data in
  healthy k + warning k + highRisk k <= total k.
Proof.
  induction data as [|m data IH]; [simpl; lia|].
  destruct (bucket_filters_cons m data) as [Ht [[_ Hs]|(_ & Hh & Hw & Hr)]];
    simpl in *; lia.
Qed.

(** C10.  The baseline counts satisfy healthy + warning + highRisk <= total,
    where total is the number of records, with equality exactly when every
    record's risk_level is one of "Healthy", "Warning" and "High Risk": a
    record with another level, wherever it stands, adds one to total and
    nothing to any bucket. *)
Theorem runPipeline_kpis_buckets_below_total
    (data : list (MachineRiskRecord num)) :
  let k := runPipeline_kpis data in
  total k = length data
  /\ healthy k + warning k + highRisk k <= total k
  /\ (healthy k + warning k + highRisk k = total k <-> Forall bucketed data)
  /\ (forall (before after : list (MachineRiskRecord num))
             (m : MachineRiskRecord num),
        data = before ++ m :: after -> ~ bucketed m ->
        let k0 := runPipeline_kpis (before ++ after) in
        total k = S (total k0) /\ healthy k = healthy k0
        /\ warning k = warning k0 /\ highRisk k = highRisk k0
        /\ healthy k + warning k + highRisk k < total k).
Proof.
  intros k. subst k.
  split; [reflexivity|].
  split; [apply bucket_filters_le|].
  split.
  - induction data as [|m data IH].
    + simpl. split; [constructor | reflexivity].
    + pose proof (bucket_filters_le data) as Hle.
      destruct (bucket_filters_cons m data)
        as [Ht [[Hb Hs]|(Hnb & Hh & Hw & Hr)]]; simpl in *.
      * rewrite Hs. split.
        -- intros Heq. constructor; [exact Hb|]. apply IH. lia.
        -- intros Hall. inversion Hall; subst. f_equal. now apply IH.
      * rewrite Hh, Hw, Hr. split.
        -- intros Heq. lia.
        -- intros Hall. inversion Hall; subst. contradiction.
  - intros before after m -> Hnb.
    assert (Hsame : forall p : MachineRiskRecord num -> bool,
               p m = false ->
               length (List.filter p (before ++ m :: after))
               = length (List.filter p (before ++ after))).
    { intros p Hp. rewrite !List.filter_app. simpl. now rewrite Hp. }
    assert (Hlevels :
              (risk_level m =? "Healthy"%string)%string = false
              /\ (risk_level m =? "Warning"%string)%string = false
              /\ (risk_level m =? "High Risk"%string)%string = false).
    { unfold bucketed in Hnb. repeat split; apply String.eqb_neq; tauto. }
    destruct Hlevels as (L1 & L2 & L3).
    pose proof (bucket_filters_le (before ++ after)) as Hle.
    unfold runPipeline_kpis in *. simpl in *.
    rewrite (Hsame _ L1), (Hsame _ L2), (Hsame _ L3).
    rewrite !length_app in *. simpl. repeat split; lia.
Qed.

End Baseline.

(** ** Scenario runner *)

Section ScenarioRunnerProperties.

Context {num : Type} `{!JSNumber num}.
Variable Backend : Type.
Variable optimizeSchedule :
  Weights num -> Backend -> Backend * (JSError + Schedule num).

Local Abbreviation body := (scenario_body Backend optimizeSchedule).
Local Abbreviation loop := (scenario_loop Backend optimizeSchedule).

Local Abbreviation resolve := (all_resolve Backend optimizeSchedule).
Local Abbreviation throws := (turn_throws Backend optimizeSchedule).

Lemma scheduled_loop (ms : list (MachineSchedule num)) (i acc : nat) :
  forEach_from
    (fun m (_ : nat) totalScheduled =>
       (totalScheduled + length (schedule m))%nat) i ms acc
  = (acc + sum_list_with (fun m => length (schedule m)) ms)%nat.
Proof.
  revert i acc.
  induction ms as [|m ms IH]; intros i acc; simpl; [lia|].
  rewrite IH. lia.
Qed.

(** A turn whose call resolves with the machine mapping pushes the row of
    the response. *)
Lemma scenario_body_resolves (s : Scenario num) (b b1 : Backend)
    (sched : Schedule num) (ms : list (string * MachineSchedule num)) :
  optimizeSchedule (s_weights s) b = (b1, inr sched) ->
  machine_schedules sched = Some ms ->
  body s b = (b1, inr (scenario_row s sched)).
Proof.
  intros Hcall Hms. unfold scenario_body, scenario_row.
  rewrite Hcall, Hms. unfold forEach. rewrite scheduled_loop.
  rewrite job_count_values. unfold machines_of, unassigned_of.
  rewrite Hms. now destruct (unassigned_jobs sched).
Qed.

Lemma scenario_body_throws (s : Scenario num) (b b' : Backend)
    (err : JSError) :
  throws s b b' err -> body s b = (b', inl err).
Proof.
  unfold scenario_body.
  intros [Hcall|(sched & Hcall & Hnone & ->)]; rewrite Hcall;
    [reflexivity|].
  now rewrite Hnone.
Qed.

(** Every turn either resolves or throws. *)
Lemma scenario_body_cases (s : Scenario num) (b : Backend) :
  (exists (b1 : Backend) (sched : Schedule num)
          (ms : list (string * MachineSchedule num)),
      optimizeSchedule (s_weights s) b = (b1, inr sched)
      /\ machine_schedules sched = Some ms)
  \/ (exists (b' : Backend) (err : JSError), throws s b b' err).
Proof.
  unfold turn_throws.
  destruct (optimizeSchedule (s_weights s) b) as [b1 [err|sched]] eqn:Hcall.
  - right. exists b1, err. now left.
  - destruct (machine_schedules sched) as [ms|] eqn:Hms.
    + left. now exists b1, sched, ms.
    + right. eexists b1, _. right. now exists sched.
Qed.

(** The calls of a list of presets all resolve, or there is a first preset
    whose turn throws. *)
Lemma turns_resolve_or_throw (scenarios : list (Scenario num))
    (b : Backend) :
  (exists (rows : list ScenarioResult) (b' : Backend),
      resolve scenarios b rows b')
  \/ (exists (done rest : list (Scenario num)) (failing : Scenario num)
             (rows : list ScenarioResult) (b1 b' : Backend) (err : JSError),
         scenarios = done ++ failing :: rest
         /\ resolve done b rows b1
         /\ throws failing b1 b' err).
Proof.
  revert b.
  induction scenarios as [|s scenarios IH]; intros b.
  - left. exists [], b. constructor.
  - destruct (scenario_body_cases s b)
      as [(b1 & sched & ms & Hcall & Hms)|(b' & err & Hthrow)].
    + destruct (IH b1)
        as [(rows & b' & Hall)
           |(done & rest & failing & rows & b2 & b' & err
             & -> & Hdone & Hthrow)].
      * left. exists (scenario_row s sched :: rows), b'.
        econstructor; eassumption.
      * right.
        exists (s :: done), rest, failing, (scenario_row s sched :: rows),
          b2, b', err.
        split; [reflexivity|]. split; [|exact Hthrow].
        econstructor; eassumption.
    + right. exists [], scenarios, s, [], b, b', err.
      split; [reflexivity|]. split; [constructor | exact Hthrow].
Qed.

(** While the calls resolve, the loop pushes the rows of the responses. *)
Lemma scenario_loop_resolved (scenarios more : list (Scenario num))
    (b b1 : Backend) (rows results : list ScenarioResult) :
  resolve scenarios b rows b1 ->
  loop (scenarios ++ more) results b = loop more (results ++ rows) b1.
Proof.
  intros Hall. revert results.
  induction Hall as [b|s rest b b1 b2 sched ms rows Hcall Hms _ IH];
    intros results.
  - now rewrite app_nil_r.
  - simpl. rewrite (scenario_body_resolves s b b1 sched ms Hcall Hms).
    rewrite IH. unfold push. now rewrite <- app_assoc.
Qed.

Lemma all_resolve_names (scenarios : list (Scenario num)) (b b' : Backend)
    (rows : list ScenarioResult) :
  resolve scenarios b rows b' -> map scenario rows = map s_name scenarios.
Proof.
  induction 1 as [|s rest b b1 b2 sched ms rows _ _ _ IH]; [reflexivity|].
  simpl. now rewrite IH.
Qed.

(** C9, as the program has it.  When every call resolves, the scenario
    output becomes the rows of the responses, one per preset in preset
    order.  When the turn of a preset throws after the calls before it
    resolved, no later preset is tried, the rows gathered so far are
    dropped with the loop, the error is logged, and the state, with the
    scenario output of the previous run, is left as it was.  One of the two
    is always the case. *)
Theorem runWhatIfAnalysis_on_all_or_nothing
    (scenarios : list (Scenario num)) (b : Backend) (d : Dashboard num) :
  let run := runWhatIfAnalysis_on Backend optimizeSchedule scenarios b d in
  (forall (rows : list ScenarioResult) (b' : Backend),
      resolve scenarios b rows b' ->
      run = (b', setScenarioData rows d, None)
      /\ length rows = length scenarios
      /\ map scenario rows = map s_name scenarios)
  /\ (forall (done rest : list (Scenario num)) (failing : Scenario num)
             (rows : list ScenarioResult) (b1 b' : Backend) (err : JSError),
         scenarios = done ++ failing :: rest ->
         resolve done b rows b1 ->
         throws failing b1 b' err ->
         run = (b', d, Some err))
  /\ ((exists (rows : list ScenarioResult) (b' : Backend),
          resolve scenarios b rows b')
      \/ (exists (done rest : list (Scenario num)) (failing : Scenario num)
                 (rows : list ScenarioResult) (b1 b' : Backend)
                 (err : JSError),
             scenarios = done ++ failing :: rest
             /\ resolve done b rows b1
             /\ throws failing b1 b' err)).
Proof.
  intros run. subst run. unfold runWhatIfAnalysis_on.
  split; [|split].
  - intros rows b' Hall.
    pose proof (scenario_loop_resolved scenarios [] b b' rows [] Hall)
      as Hloop.
    rewrite app_nil_r in Hloop. rewrite Hloop. simpl.
    pose proof (all_resolve_names scenarios b b' rows Hall) as Hnames.
    split; [reflexivity|]. split; [|exact Hnames].
    rewrite <- (length_map scenario rows), Hnames. apply length_map.
  - intros done rest failing rows b1 b' err -> Hdone Hthrow.
    rewrite (scenario_loop_resolved done (failing :: rest) b b1 rows []
               Hdone).
    simpl. now rewrite (scenario_body_throws failing b1 b' err Hthrow).
  - apply turns_resolve_or_throw.
Qed.

End ScenarioRunnerProperties.

(** ** Schedule aggregator in exact arithmetic *)

Section ExactAggregator.

Local Open Scope Q_scope.

(** *** Rounding to one decimal *)

Lemma toFixed1_Qeq (x y : Q) : x == y -> Exact.toFixed1 x = Exact.toFixed1 y.
Proof.
  intros Hxy. unfold Exact.toFixed1.
  assert (Hfloor : Qfloor (Qabs x * 10 + (1 # 2))
                   = Qfloor (Qabs y * 10 + (1 # 2))).
  { apply Qfloor_comp. now rewrite Hxy. }
  assert (Hsign : Qle_bool 0 x = Qle_bool 0 y) by now rewrite Hxy.
  now rewrite Hfloor, Hsign.
Qed.

(** *** The hours accumulator *)

Lemma hours_app (l1 l2 : list (ScheduleJob Q)) :
  hours (l1 ++ l2) == hours l1 + hours l2.
Proof.
  unfold hours.
  induction l1 as [|job l1 IH]; simpl; [lra|]. rewrite IH. lra.
Qed.

Lemma job_loop_hours (jobs : list (ScheduleJob Q)) (i : nat) (t : Totals Q) :
  t_totalBusyHours (forEach_from job_body i jobs t)
  == t_totalBusyHours t + hours jobs.
Proof.
  revert i t.
  induction jobs as [|job jobs IH]; intros i t; simpl.
  - unfold hours. simpl. lra.
  - rewrite IH. unfold hours. simpl. lra.
Qed.

Lemma machine_loop_hours (ms : list (string * MachineSchedule Q)) (i : nat)
    (t : Totals Q) :
  t_totalBusyHours (forEach_from machine_body i (Object_values ms) t)
  == t_totalBusyHours t + busy_hours ms.
Proof.
  revert i t.
  induction ms as [|e ms IH]; intros i t; simpl.
  - unfold busy_hours, hours. simpl. lra.
  - rewrite IH. unfold machine_body, forEach. rewrite job_loop_hours.
    change (busy_hours (e :: ms))
      with (hours (schedule (snd e) ++ all_jobs ms)).
    rewrite hours_app. simpl. change (hours (all_jobs ms)) with (busy_hours ms).
    lra.
Qed.

End ExactAggregator.

Section ExactAggregatorClaims.

Local Open Scope Q_scope.

(** The stored average is the rounding of the quotient the specification
    describes. *)
Lemma avgUtilization_exact
    (sch : Schedule Q) (ms : list (string * MachineSchedule Q))
    (d : Dashboard Q) :
  machine_schedules sch = Some ms ->
  avgUtilization (scheduleKpis (computeScheduleKpis (Some sch) d))
  = Exact.toFixed1 (spec_avgUtilizationHours ms).
Proof.
  intros Hms. unfold computeScheduleKpis. rewrite Hms. simpl.
  apply toFixed1_Qeq. unfold forEach.
  match goal with
  | |- context [forEach_from machine_body 0 ?l ?t0] =>
      destruct (machine_loop_counters l 0 t0) as (_ & _ & Hcount);
      pose proof (machine_loop_hours ms 0 t0) as Hhours
  end.
  rewrite Hcount. simpl in Hhours |- *.
  unfold Object_values. rewrite length_map.
  destruct ms as [|e ms']; [reflexivity|].
  cbn [length Nat.ltb Nat.leb spec_avgUtilizationHours].
  unfold num_of_nat. cbn [num_of_Z Exact.number].
  unfold Object_values in Hhours. rewrite Hhours.
  rewrite Qplus_0_l. reflexivity.
Qed.

(** Machines without jobs leave the sums where they were. *)
Lemma machine_loop_no_jobs (ms : list (MachineSchedule Q)) (i : nat)
    (t : Totals Q) :
  sum_list_with (fun m => length (schedule m)) ms = 0%nat ->
  t_totalRevenue (forEach_from machine_body i ms t) = t_totalRevenue t.
Proof.
  revert i t.
  induction ms as [|m ms IH]; intros i t Hnone; simpl in *; [reflexivity|].
  rewrite IH by lia.
  unfold machine_body.
  destruct (schedule m); [reflexivity | simpl in Hnone; lia].
Qed.

Lemma busy_hours_no_jobs (ms : list (string * MachineSchedule Q)) :
  job_count ms = 0%nat -> busy_hours ms = 0.
Proof.
  unfold job_count, busy_hours, all_jobs.
  induction ms as [|e ms IH]; intros Hnone; simpl in *; [reflexivity|].
  destruct (schedule (snd e)); [simpl; apply IH; lia | simpl in Hnone; lia].
Qed.

(** C4, as the program has it.  A schedule without the machine mapping
    makes the aggregator return before it stores anything, so the KPIs stay
    as they were.  With the mapping present and no job in it, every stored
    figure is 0 except [unassigned], which is the number of unassigned job
    ids (0 when that list is missing). *)
Theorem computeScheduleKpis_nothing_scheduled
    (sch : Schedule Q) (d : Dashboard Q) :
  computeScheduleKpis None d = d
  /\ (machine_schedules sch = None -> computeScheduleKpis (Some sch) d = d)
  /\ (forall ms : list (string * MachineSchedule Q),
        machine_schedules sch = Some ms ->
        job_count ms = 0%nat ->
        let k := scheduleKpis (computeScheduleKpis (Some sch) d) in
        totalScheduled k = 0%nat /\ onTime k = 0%nat /\ late k = 0%nat
        /\ totalRevenue k == 0 /\ avgUtilization k == 0
        /\ unassigned k = length (unassigned_of (Some sch))).
Proof.
  split; [reflexivity|].
  split.
  { intros Hnone. unfold computeScheduleKpis. now rewrite Hnone. }
  intros ms Hms Hnone k.
  assert (Havg : avgUtilization k == 0).
  { subst k. rewrite (avgUtilization_exact sch ms d Hms).
    unfold spec_avgUtilizationHours.
    destruct ms as [|e ms']; [reflexivity|].
    rewrite (busy_hours_no_jobs _ Hnone).
    rewrite (toFixed1_Qeq _ 0); [reflexivity|].
    unfold Qdiv. apply Qmult_0_l. }
  subst k. unfold computeScheduleKpis in *. rewrite Hms in *. simpl in *.
  unfold forEach in *.
  match goal with
  | |- context [forEach_from machine_body 0 ?l ?t0] =>
      destruct (machine_loop_counters l 0 t0) as (H1 & H2 & _);
      pose proof (machine_loop_no_jobs l 0 t0) as Hrev
  end.
  rewrite job_count_values, Hnone in H1, H2, Hrev.
  simpl in H1, H2, Hrev.
  rewrite H1, (Hrev eq_refl).
  repeat split; try lia; try reflexivity.
  - exact Havg.
  - unfold unassigned_of. now destruct (unassigned_jobs sch).
Qed.

End ExactAggregatorClaims.

(** ** Risk bucket projector in exact arithmetic *)

Section ExactProjector.

Local Open Scope Q_scope.

Lemma exact_max_spec (a b : Q) :
  a <= Exact.max a b /\ b <= Exact.max a b
  /\ (Exact.max a b = a \/ Exact.max a b = b).
Proof.
  unfold Exact.max. destruct (Qle_bool a b) eqn:Hab.
  - apply Qle_bool_iff in Hab. repeat split; [lra | lra | now right].
  - assert (b <= a).
    { destruct (Qlt_le_dec b a) as [Hlt|Hge]; [lra|].
      apply Qle_bool_iff in Hge. congruence. }
    repeat split; [lra | lra | now left].
Qed.

Lemma exact_min_spec (a b : Q) :
  Exact.min a b <= a /\ Exact.min a b <= b
  /\ (Exact.min a b = a \/ Exact.min a b = b).
Proof.
  unfold Exact.min. destruct (Qle_bool a b) eqn:Hab.
  - apply Qle_bool_iff in Hab. repeat split; [lra | lra | now left].
  - assert (b <= a).
    { destruct (Qlt_le_dec b a) as [Hlt|Hge]; [lra|].
      apply Qle_bool_iff in Hge. congruence. }
    repeat split; [lra | lra | now right].
Qed.

Lemma exact_clamp (lo hi x : Q) :
  lo <= hi -> lo <= Exact.max lo (Exact.min hi x) <= hi.
Proof.
  intros Hle.
  destruct (exact_max_spec lo (Exact.min hi x)) as (H1 & H2 & [E | E]);
    destruct (exact_min_spec hi x) as (H3 & H4 & _); rewrite E in *; split; lra.
Qed.

Lemma exact_round_near (x : Q) :
  exists r : Z,
    Exact.round x = inject_Z r /\ x - (1 # 2) < inject_Z r <= x + (1 # 2).
Proof.
  exists (Qfloor (x + (1 # 2))). split; [reflexivity|].
  pose proof (Qfloor_le (x + (1 # 2))) as Hlo.
  pose proof (Qlt_floor (x + (1 # 2))) as Hhi.
  rewrite inject_Z_plus in Hhi. change (inject_Z 1) with 1 in Hhi.
  split; lra.
Qed.

Lemma inject_Z_le_lt (a b : Z) :
  (inject_Z a < inject_Z b + 1)%Q -> (a <= b)%Z.
Proof.
  intros H. change 1 with (inject_Z 1) in H. rewrite <- inject_Z_plus in H.
  rewrite <- Zlt_Qlt in H. lia.
Qed.

(** In exact arithmetic, on a fleet of n > 0 machines, every projected
    count is a whole number between 0 and n, and the three counts sum to n
    give or take one. *)
Lemma dynamicKpis_exact_buckets (k : FleetKPIs Q) (w : Weights Q) (n : Z) :
  total k = inject_Z n -> (0 < n)%Z ->
  let p := dynamicKpis k w in
  exists h m r : Z,
    healthy p = inject_Z h /\ warning p = inject_Z m /\ highRisk p = inject_Z r
    /\ (0 <= h <= n)%Z /\ (0 <= m <= n)%Z /\ (0 <= r <= n)%Z
    /\ (n - 1 <= h + m + r <= n + 1)%Z.
Proof.
  intros Htotal Hpos p. subst p. unfold dynamicKpis.
  rewrite Htotal.
  replace (num_eqb (inject_Z n) (num_of_Z 0)) with false.
  2:{ symmetry. apply not_true_is_false. intros H.
      change (Qeq_bool (inject_Z n) (inject_Z 0) = true) in H.
      apply Qeq_bool_eq in H. rewrite inject_Z_injective in H. lia. }
  cbv zeta. cbn [healthy warning highRisk total].
  cbn [Math_max Math_min Math_round num_sub num_of_Z Exact.number].
  match goal with
  | |- context [Exact.round
                  (Exact.max (inject_Z 0) (Exact.min (inject_Z n) ?x))] =>
      set (nh := Exact.max (inject_Z 0) (Exact.min (inject_Z n) x))
  end.
  match goal with
  | |- context [Exact.round
                  (Exact.max (inject_Z 0)
                     (Exact.min (inject_Z n - nh) ?y))] =>
      set (nr := Exact.max (inject_Z 0) (Exact.min (inject_Z n - nh) y))
  end.
  assert (Hn : 0 <= inject_Z n).
  { change 0 with (inject_Z 0). rewrite <- Zle_Qle. lia. }
  assert (Hnh : 0 <= nh <= inject_Z n) by (apply exact_clamp; exact Hn).
  assert (Hnr : 0 <= nr <= inject_Z n - nh).
  { apply exact_clamp. change (inject_Z 0) with 0. lra. }
  clearbody nh nr.
  destruct (exact_round_near nh) as (h & -> & Hh).
  destruct (exact_round_near (inject_Z n - nh - nr)) as (m & -> & Hm).
  destruct (exact_round_near nr) as (r & -> & Hr).
  exists h, m, r. repeat split; try reflexivity.
  all: apply inject_Z_le_lt; unfold Z.sub;
    rewrite ?inject_Z_plus, ?inject_Z_opp;
    change (inject_Z 0) with 0; change (inject_Z 1) with 1; lra.
Qed.

End ExactProjector.

(** ** The program on sample inputs, in binary64 *)

Section Binary64Runs.

Local Open Scope string_scope.

(** The decimal literals of the program denote, in binary64, the numbers
    nearest to them. *)
Lemma binary64_literals :
  dec 4 1 = 0x1.999999999999ap-2%float
  /\ dec 3 1 = 0x1.3333333333333p-2%float
  /\ dec 30 2 = 0x1.3333333333333p-2%float
  /\ dec 35 2 = 0x1.6666666666666p-2%float
  /\ dec 45 2 = 0x1.ccccccccccccdp-2%float
  /\ dec 65 2 = 0x1.4cccccccccccdp-1%float
  /\ dec 75 2 = 0x1.8p-1%float.
Proof.
  repeat split.
Qed.

(** C1.  On a fleet of 15 machines (4 healthy, 7 warning, 4 high risk) and
    the weights the component starts with, the projector returns healthy 5,
    warning 7 and highRisk 2: each count lies between 0 and the total, but
    they sum to 14, one short of the total 15.  Exact arithmetic gives the
    same counts. *)
Theorem dynamicKpis_rounding_breaks_sum :
  let baseline := runPipeline_kpis (num := float) snapshot_15 in
  let projected := dynamicKpis (kpis_numbers baseline) (weights initial) in
  baseline
  = {| total := 15%nat; healthy := 4%nat; warning := 7%nat;
       highRisk := 4%nat |}
  /\ projected
     = {| total := Binary64.of_Z 15; healthy := Binary64.of_Z 5;
          warning := Binary64.of_Z 7; highRisk := Binary64.of_Z 2 |}
  /\ (healthy projected + warning projected + highRisk projected)%float
     = Binary64.of_Z 14
  /\ dynamicKpis (num := Q)
       (kpis_numbers (runPipeline_kpis (num := Q) snapshot_15))
       (weights initial)
     = {| total := inject_Z 15; healthy := inject_Z 5;
          warning := inject_Z 7; highRisk := inject_Z 2 |}.
Proof.
  repeat split; vm_compute; reflexivity.
Qed.

(** C6.  On the example schedule (M1 with J1 from 0 to 4, deadline 5,
    revenue 100, and J2 from 4 to 10, deadline 8, revenue 50; J3
    unassigned) the aggregator stores totalScheduled 2, unassigned 1,
    onTime 1, late 1, totalRevenue 150 and avgUtilization 10. *)
Theorem computeScheduleKpis_example (d : Dashboard float) :
  scheduleKpis (computeScheduleKpis (Some example_schedule) d)
  = {| totalScheduled := 2; unassigned := 1; onTime := 1; late := 1;
       totalRevenue := Binary64.of_Z 150;
       avgUtilization := Binary64.of_Z 10 |}.
Proof.
  vm_compute. reflexivity.
Qed.

(** C5, as the program has it.  The stored avgUtilization is
    Number(x.toFixed(1)) of the quotient x that binary64 arithmetic gives:
    the hours (end - start) of all jobs, added one by one from 0, machine
    after machine and job after job, divided by the number of machines in
    the mapping; and it is 0 when there is no machine. *)
Theorem computeScheduleKpis_avgUtilization_binary64
    (sch : Schedule float) (ms : list (string * MachineSchedule float))
    (d : Dashboard float) :
  machine_schedules sch = Some ms ->
  let avg :=
    avgUtilization (scheduleKpis (computeScheduleKpis (Some sch) d)) in
  let busy :=
    fold_left (fun acc job => (acc + (end_ job - start job))%float)
      (all_jobs ms) (Binary64.of_Z 0) in
  avg
  = Binary64.toFixed1
      (if (0 <? length ms)%nat
       then (busy / Binary64.of_Z (Z.of_nat (length ms)))%float
       else Binary64.of_Z 0)
  /\ (ms = [] -> avg = zero).
Proof.
  intros Hms avg busy. subst avg busy.
  rewrite (avgUtilization_left_to_right sch ms d Hms).
  split; [reflexivity|].
  intros ->. vm_compute. reflexivity.
Qed.

(** C5 fails as stated, twice.  For one machine with a job of 0.1 h and a
    job of 0.25 h the stored avgUtilization is 0.3: the binary64 sum of the
    two is just below 0.35.  The sum of (end - start) divided by the number
    of machines and rounded to one decimal is 0.4, taken on the exact
    values of the same numbers.  And a schedule without the machine mapping
    has no machine, yet the stored avgUtilization is not 0 but what it was
    before, here 10. *)
Lemma computeScheduleKpis_avgUtilization_rounds_sum :
  let ms := machines_of (Some tenth_and_quarter) in
  let stored :=
    avgUtilization
      (scheduleKpis (computeScheduleKpis (Some tenth_and_quarter) initial)) in
  let before := computeScheduleKpis (Some example_schedule) initial in
  stored = dec 3 1
  /\ Qeq_bool (Exact.toFixed1 (spec_avgUtilizationHours (exact_machines ms)))
       (4 # 10)
     = true
  /\ Qeq_bool (Binary64.value stored) (4 # 10) = false
  /\ machines_of (num := float) (Some no_mapping) = []
  /\ avgUtilization
       (scheduleKpis (computeScheduleKpis (Some no_mapping) before))
     = Binary64.of_Z 10.
Proof.
  repeat split; vm_compute; reflexivity.
Qed.

(** C7 fails as stated.  With now at 1700000000000 ms, a job that starts
    1e-7 h later gets a task whose start is now itself, not now + 0.36 ms:
    the Date constructor drops the fraction of a millisecond.  A job from
    0 h to 1e20 h gets a task whose end is an Invalid Date, so the task's
    end is not at or after its start although job.end >= job.start. *)
Lemma buildGanttTasks_clips_dates :
  let now := new_Date (Binary64.of_Z 1700000000000) in
  let tasks := buildGanttTasks (Some tiny_and_huge) now in
  map (fun t => getTime (task_start t)) tasks
  = [Binary64.of_Z 1700000000000; Binary64.of_Z 1700000000000]
  /\ (getTime now + dec 1 7 * Binary64.of_Z 3600 * Binary64.of_Z 1000)%float
     = dec 170000000000036 2
  /\ PrimFloat.eqb (dec 170000000000036 2) (Binary64.of_Z 1700000000000)
     = false
  /\ map (fun job => (start job <=? end_ job)%float)
       (all_jobs (machines_of (Some tiny_and_huge)))
     = [true; true]
  /\ map (fun t => is_nan (getTime (task_end t))) tasks = [false; true]
  /\ map (fun t => Date_geb (task_end t) (task_start t)) tasks
     = [true; false].
Proof.
  repeat split; vm_compute; reflexivity.
Qed.

(** C4 fails as stated, twice.  With no machine and one unassigned job the
    stored KPIs count that job, so they are not all zero.  With the machine
    mapping missing nothing is stored: the KPIs of the schedule before stay,
    here with totalScheduled 2. *)
Lemma computeScheduleKpis_not_all_zero :
  let d := computeScheduleKpis (num := float) (Some no_machines) initial in
  let before := computeScheduleKpis (num := float) (Some example_schedule)
                  initial in
  let d' := computeScheduleKpis (Some no_mapping) before in
  job_count (machines_of (num := float) (Some no_machines)) = 0%nat
  /\ unassigned (scheduleKpis d) = 1%nat
  /\ job_count (machines_of (num := float) (Some no_mapping)) = 0%nat
  /\ d' = before
  /\ totalScheduled (scheduleKpis d') = 2%nat.
Proof.
  repeat split.
Qed.

(** C9 fails as stated.  When the second optimizer call is rejected, the
    loop has gathered the result of the first preset, yet the scenario
    output stays what it was before the run (here empty): the gathered
    result is not reported. *)
Lemma runWhatIfAnalysis_drops_partial_results :
  let presets := scenarios_of (num := float) (weights initial) in
  let stopped := scenario_loop nat flaky_optimizer presets [] 0%nat in
  let run := runWhatIfAnalysis nat flaky_optimizer 0%nat initial in
  stopped
  = (2%nat,
     [ {| scenario := "Balanced"; scheduled := 2; sr_unassigned := 1 |} ],
     Some (RequestFailed "Network Error"))
  /\ scenarioData (snd (fst run)) = []
  /\ scenarioData (snd (fst run)) <> snd (fst stopped).
Proof.
  repeat split. discriminate.
Qed.

End Binary64Runs.

(** ** The theorems at sample inputs *)

Section Witnesses.

Local Open Scope string_scope.

Lemma dynamicKpis_total_zero_witness :
  num_eqb (total (kpis (num := float) initial)) (num_of_Z 0) = true
  /\ dynamicKpis (num := float) (kpis initial) (weights initial)
     = kpis initial.
Proof.
  split; [reflexivity|].
  apply dynamicKpis_total_zero. reflexivity.
Defined.

Lemma computeScheduleKpis_on_time_late_partition_witness :
  machine_schedules (example_schedule (num := float))
  = Some (machines_of (Some example_schedule))
  /\ (let k := scheduleKpis
                 (computeScheduleKpis (num := float) (Some example_schedule)
                    initial) in
      (onTime k + late k = totalScheduled k)%nat
      /\ totalScheduled k = job_count (machines_of (Some example_schedule))).
Proof.
  split; [reflexivity|].
  exact (computeScheduleKpis_on_time_late_partition example_schedule
           (machines_of (Some example_schedule)) initial eq_refl).
Defined.

Lemma computeScheduleKpis_avgUtilization_binary64_witness :
  machine_schedules tenth_and_quarter
  = Some (machines_of (Some tenth_and_quarter))
  /\ (let ms := machines_of (Some tenth_and_quarter) in
      let avg :=
        avgUtilization
          (scheduleKpis
             (computeScheduleKpis (Some tenth_and_quarter) initial)) in
      let busy :=
        fold_left (fun acc job => (acc + (end_ job - start job))%float)
          (all_jobs ms) (Binary64.of_Z 0) in
      avg
      = Binary64.toFixed1
          (if (0 <? length ms)%nat
           then (busy / Binary64.of_Z (Z.of_nat (length ms)))%float
           else Binary64.of_Z 0)
      /\ (ms = [] -> avg = zero)).
Proof.
  split; [reflexivity|].
  exact (computeScheduleKpis_avgUtilization_binary64 tenth_and_quarter
           (machines_of (Some tenth_and_quarter)) initial eq_refl).
Defined.

Lemma buildGanttTasks_task_per_job_witness :
  let now := new_Date (Binary64.of_Z 1700000000000) in
  let tasks := buildGanttTasks (Some example_schedule) now in
  let ms := machines_of (Some example_schedule) in
  length tasks = 2%nat
  /\ (Binary64.of_Z 4 <=? Binary64.of_Z 10)%float = true
  /\ exists t : Task float,
       tasks !! 1%nat = Some t
       /\ id t = "M1_1"
       /\ name t = "J2"
       /\ getTime (task_start t) = Binary64.of_Z 1700014400000
       /\ getTime (task_end t) = Binary64.of_Z 1700036000000
       /\ Date_geb (task_end t) (task_start t) = true.
Proof.
  intros now tasks ms.
  destruct (buildGanttTasks_task_per_job (Some example_schedule) now)
    as [Hlen Htask].
  split; [exact Hlen|]. split; [reflexivity|].
  destruct (Htask 0%nat 1%nat "M1" _ _ eq_refl eq_refl)
    as (t & Ht & Hid & Hname & _ & _ & Hts & Hte & Hord).
  exists t.
  assert (Hs : getTime (task_start t) = Binary64.of_Z 1700014400000)
    by (rewrite Hts; vm_compute; reflexivity).
  assert (He : getTime (task_end t) = Binary64.of_Z 1700036000000)
    by (rewrite Hte; vm_compute; reflexivity).
  do 5 (split; [assumption|]).
  apply Hord; [reflexivity | rewrite Hs; reflexivity
              | rewrite He; reflexivity].
Defined.

Lemma runWhatIfAnalysis_on_all_or_nothing_witness :
  let presets := scenarios_of (num := float) (weights initial) in
  let row name :=
    {| scenario := name; scheduled := 2; sr_unassigned := 1 |} in
  let before := setScenarioData [row "Earlier"] initial in
  runWhatIfAnalysis_on nat flaky_optimizer presets 2%nat before
  = (5%nat,
     setScenarioData
       [row "Balanced"; row "Throughput Focus"; row "Risk Focus"] before,
     None)
  /\ runWhatIfAnalysis_on nat flaky_optimizer presets 0%nat before
     = (2%nat, before, Some (RequestFailed "Network Error")).
Proof.
  intros presets row before.
  destruct (runWhatIfAnalysis_on_all_or_nothing nat flaky_optimizer presets
              2%nat before) as (Hall & _ & _).
  destruct (runWhatIfAnalysis_on_all_or_nothing nat flaky_optimizer presets
              0%nat before) as (_ & Hthrow & _).
  pose (ms := machines_of (Some (example_schedule (num := float)))).
  assert (Hthree : all_resolve nat flaky_optimizer presets 2%nat
                     (map (fun s => scenario_row s example_schedule) presets)
                     5%nat).
  { subst presets. unfold scenarios_of. cbn [map].
    apply (all_resolve_cons nat flaky_optimizer _ _ 2%nat 3%nat 5%nat
             example_schedule ms); [reflexivity | reflexivity |].
    apply (all_resolve_cons nat flaky_optimizer _ _ 3%nat 4%nat 5%nat
             example_schedule ms); [reflexivity | reflexivity |].
    apply (all_resolve_cons nat flaky_optimizer _ _ 4%nat 5%nat 5%nat
             example_schedule ms); [reflexivity | reflexivity |].
    apply all_resolve_nil. }
  assert (Hone : all_resolve nat flaky_optimizer (take 1 presets) 0%nat
                   (map (fun s => scenario_row s example_schedule)
                      (take 1 presets))
                   1%nat).
  { subst presets. unfold scenarios_of. cbn [map take].
    apply (all_resolve_cons nat flaky_optimizer _ _ 0%nat 1%nat 1%nat
             example_schedule ms); [reflexivity | reflexivity |].
    apply all_resolve_nil. }
  split.
  - exact (proj1 (Hall _ _ Hthree)).
  - exact (Hthrow (take 1 presets) (drop 2 presets)
             {| s_name := "Throughput Focus";
                s_weights := {| w_throughput := dec 7 1; w_risk := dec 2 1;
                                w_cost := dec 1 1 |} |}
             _ 1%nat 2%nat (RequestFailed "Network Error") eq_refl Hone
             (or_introl eq_refl)).
Defined.

Lemma computeScheduleKpis_nothing_scheduled_witness :
  machine_schedules (no_machines (num := Q)) = Some []
  /\ job_count (num := Q) [] = 0%nat
  /\ (let k := scheduleKpis
                 (computeScheduleKpis (num := Q) (Some no_machines) initial) in
      totalScheduled k = 0%nat /\ onTime k = 0%nat /\ late k = 0%nat
      /\ (totalRevenue k == 0)%Q /\ (avgUtilization k == 0)%Q
      /\ unassigned k
         = length (unassigned_of (num := Q) (Some no_machines))).
Proof.
  split; [reflexivity|]. split; [reflexivity|].
  destruct (computeScheduleKpis_nothing_scheduled no_machines initial)
    as (_ & _ & Hnone).
  exact (Hnone [] eq_refl eq_refl).
Defined.

Lemma deferredJobsList_reason_rotation_witness :
  let out := deferredJobsList (num := float) (Some four_unassigned) in
  let first :=
    {| deferred_id := "J3"; reason := reasons !! 0%nat |} in
  let fourth :=
    {| deferred_id := "J6"; reason := reasons !! 0%nat |} in
  out !! 0%nat = Some first
  /\ out !! (0 + 3)%nat = Some fourth
  /\ reason first = reason fourth.
Proof.
  intros out first fourth.
  split; [reflexivity|]. split; [reflexivity|].
  destruct (deferredJobsList_reason_rotation (num := float)
              (Some four_unassigned)) as (_ & _ & _ & _ & Hperiod).
  exact (Hperiod 0%nat first fourth eq_refl eq_refl).
Defined.

Lemma runPipeline_kpis_buckets_below_total_witness :
  let data := snapshot_unknown (num := float) in
  let unknown :=
    {| Machine_ID := "M2"; health_score := Binary64.of_Z 10;
       risk_level := "Critical" |} in
  let before := take 1 data in
  let k := runPipeline_kpis data in
  let k0 := runPipeline_kpis (before ++ [])%list in
  data = (before ++ unknown :: [])%list
  /\ (total k = S (total k0) /\ healthy k = healthy k0
      /\ warning k = warning k0 /\ highRisk k = highRisk k0
      /\ (healthy k + warning k + highRisk k < total k)%nat).
Proof.
  intros data unknown before k k0.
  split; [reflexivity|].
  destruct (runPipeline_kpis_buckets_below_total data) as (_ & _ & _ & Hout).
  apply (Hout before [] unknown eq_refl).
  unfold bucketed. simpl. intros [H | [H | H]]; discriminate H.
Defined.

End Witnesses.

(** * Further properties *)

(** ** Risk bucket projector in exact arithmetic, continued *)

Section ExactProjectorMore.

Local Open Scope Q_scope.

Lemma exact_round_Qeq (x y : Q) : x == y -> Exact.round x = Exact.round y.
Proof.
  intros Hxy. unfold Exact.round. f_equal. apply Qfloor_comp. now rewrite Hxy.
Qed.

Lemma exact_round_inject (z : Z) : Exact.round (inject_Z z) = inject_Z z.
Proof.
  unfold Exact.round. f_equal.
  pose proof (Qfloor_le (inject_Z z + (1 # 2))) as Hlo.
  pose proof (Qlt_floor (inject_Z z + (1 # 2))) as Hhi.
  set (f := Qfloor (inject_Z z + (1 # 2))) in *.
  rewrite inject_Z_plus in Hhi. change (inject_Z 1) with 1 in Hhi.
  assert (H1 : inject_Z f < inject_Z z + 1) by lra.
  assert (H2 : inject_Z z < inject_Z f + 1) by lra.
  apply inject_Z_le_lt in H1. apply inject_Z_le_lt in H2. lia.
Qed.

Lemma exact_clamp_id (lo hi x : Q) :
  lo <= x <= hi -> Exact.max lo (Exact.min hi x) == x.
Proof.
  intros [Hlo Hhi].
  destruct (exact_max_spec lo (Exact.min hi x)) as (H1 & H2 & [E | E]);
    destruct (exact_min_spec hi x) as (H3 & H4 & [F | F]);
    rewrite E in *; rewrite ?F in *; lra.
Qed.

Lemma total_not_zero (n : Z) :
  (0 < n)%Z -> num_eqb (inject_Z n) (num_of_Z 0) = false.
Proof.
  intros Hpos. apply not_true_is_false. intros H.
  change (Qeq_bool (inject_Z n) (inject_Z 0) = true) in H.
  apply Qeq_bool_eq in H. rewrite inject_Z_injective in H. lia.
Qed.

Lemma inject_nat_sub (n h r : nat) :
  (h + r <= n)%nat ->
  inject_Z (Z.of_nat (n - h - r))
  == inject_Z (Z.of_nat n) - inject_Z (Z.of_nat h) - inject_Z (Z.of_nat r).
Proof.
  intros Hle.
  replace (Z.of_nat (n - h - r))
    with (Z.of_nat n + - Z.of_nat h + - Z.of_nat r)%Z by lia.
  rewrite !inject_Z_plus, !inject_Z_opp. ring.
Qed.

(** X3.  In exact arithmetic, at the weights 0.4, 0.3, 0.3 the projection
    of the baseline of any risk snapshot keeps its total, healthy and
    high-risk counts and shows total - healthy - highRisk as warning: the
    baseline's own warning count is not used, and a record whose level is
    in no bucket is shown as a warning. *)
Theorem dynamicKpis_neutral_weights (data : list (MachineRiskRecord Q)) :
  let k := runPipeline_kpis data in
  dynamicKpis (kpis_numbers k) neutral_weights
  = {| total := num_of_nat (total k);
       healthy := num_of_nat (healthy k);
       warning := num_of_nat (total k - healthy k - highRisk k);
       highRisk := num_of_nat (highRisk k) |}.
Proof.
  intros k. subst k.
  pose proof (bucket_filters_le data) as Hle. cbv zeta in Hle.
  destruct (Nat.eq_dec (length data) 0%nat) as [Hnil|Hpos].
  { apply length_zero_iff_nil in Hnil. subst data. reflexivity. }
  change (length data) with (total (runPipeline_kpis data)) in Hpos.
  set (k := runPipeline_kpis data) in *. clearbody k.
  set (n := total k) in *. set (h := healthy k) in *.
  set (r := highRisk k) in *.
  unfold dynamicKpis, kpis_numbers. cbn [total healthy warning highRisk].
  fold n h r.
  replace (num_eqb (num_of_nat n) (num_of_Z 0)) with false
    by (symmetry; apply (total_not_zero (Z.of_nat n)); lia).
  cbv zeta. unfold num_of_nat.
  cbn [Math_max Math_min Math_round num_sub num_add num_mul num_of_Z
         Exact.number neutral_weights w_throughput w_risk w_cost].
  set (T := inject_Z (Z.of_nat n)). set (H := inject_Z (Z.of_nat h)).
  set (R := inject_Z (Z.of_nat r)).
  assert (HT : 0 <= H /\ 0 <= R /\ H + R <= T).
  { subst T H R. rewrite <- inject_Z_plus.
    change 0 with (inject_Z 0). rewrite <- !Zle_Qle. lia. }
  destruct HT as (HH & HR & HHR).
  change (inject_Z 0) with 0.
  match goal with
  | |- context [Exact.max 0 (Exact.min T ?x)] =>
      assert (Hx : x == H) by ring;
      assert (Hnh : Exact.max 0 (Exact.min T x) == H)
        by (rewrite exact_clamp_id; [exact Hx | lra]);
      set (nh := Exact.max 0 (Exact.min T x)) in *
  end.
  match goal with
  | |- context [Exact.max 0 (Exact.min (T - nh) ?y)] =>
      assert (Hy : y == R) by ring;
      assert (Hnr : Exact.max 0 (Exact.min (T - nh) y) == R)
        by (rewrite exact_clamp_id; [exact Hy | lra]);
      set (nr := Exact.max 0 (Exact.min (T - nh) y)) in *
  end.
  f_equal.
  - rewrite (exact_round_Qeq nh H Hnh). apply exact_round_inject.
  - rewrite (exact_round_Qeq (T - nh - nr)
               (inject_Z (Z.of_nat (n - h - r)))).
    + apply exact_round_inject.
    + rewrite inject_nat_sub by lia. fold T H R. lra.
  - rewrite (exact_round_Qeq nr R Hnr). apply exact_round_inject.
Qed.

End ExactProjectorMore.

(** ** Schedule aggregator, continued *)

Section AggregatorMore.

Context {num : Type} `{!JSNumber num}.

Lemma job_loop_on_time (jobs : list (ScheduleJob num)) (i : nat)
    (t : Totals num) :
  let t' := forEach_from job_body i jobs t in
  t_onTime t' = (t_onTime t + length (List.filter on_time jobs))%nat
  /\ t_late t'
     = (t_late t + length (List.filter (fun j => negb (on_time j)) jobs))%nat.
Proof.
  revert i t.
  induction jobs as [|job jobs IH]; intros i t; simpl.
  - split; lia.
  - destruct (IH (S i) (job_body job i t)) as [H1 H2].
    rewrite H1, H2. unfold on_time. simpl.
    destruct (num_leb (end_ job) (deadline_hours job)); simpl; split; lia.
Qed.

Lemma machine_loop_on_time (ms : list (string * MachineSchedule num))
    (i : nat) (t : Totals num) :
  let t' := forEach_from machine_body i (Object_values ms) t in
  t_onTime t'
  = (t_onTime t + length (List.filter on_time (all_jobs ms)))%nat
  /\ t_late t'
     = (t_late t
        + length (List.filter (fun j => negb (on_time j)) (all_jobs ms)))%nat.
Proof.
  revert i t.
  induction ms as [|e ms IH]; intros i t; simpl.
  - split; lia.
  - destruct (IH (S i) (machine_body (snd e) i t)) as [H1 H2].
    rewrite H1, H2. unfold machine_body, forEach.
    match goal with
    | |- context [forEach_from job_body 0 ?js ?t0] =>
        destruct (job_loop_on_time js 0 t0) as [J1 J2]
    end.
    rewrite J1, J2. simpl. rewrite !List.filter_app, !length_app.
    split; lia.
Qed.

(** X4.  For a schedule that carries its machine mapping, the stored
    onTime is the number of jobs whose end <= deadline_hours test holds and
    late is the number of all other jobs, so a job for which the test is
    false for any reason (a NaN among them) is late. *)
Theorem computeScheduleKpis_on_time_count
    (sch : Schedule num) (ms : list (string * MachineSchedule num))
    (d : Dashboard num) :
  machine_schedules sch = Some ms ->
  let k := scheduleKpis (computeScheduleKpis (Some sch) d) in
  onTime k = length (List.filter on_time (all_jobs ms))
  /\ late k = length (List.filter (fun j => negb (on_time j)) (all_jobs ms)).
Proof.
  intros Hms. unfold computeScheduleKpis. rewrite Hms. simpl.
  unfold forEach.
  match goal with
  | |- context [forEach_from machine_body 0 (Object_values ms) ?t0] =>
      destruct (machine_loop_on_time ms 0 t0) as [H1 H2]
  end.
  rewrite H1, H2. split; reflexivity.
Qed.

(** X6.  For a schedule that carries its machine mapping, the stored
    unassigned count is the number of entries of the deferred jobs list
    built from the same schedule. *)
Theorem unassigned_matches_deferred
    (sch : Schedule num) (ms : list (string * MachineSchedule num))
    (d : Dashboard num) :
  machine_schedules sch = Some ms ->
  unassigned (scheduleKpis (computeScheduleKpis (Some sch) d))
  = length (deferredJobsList (Some sch)).
Proof.
  intros Hms. unfold computeScheduleKpis, deferredJobsList. rewrite Hms.
  simpl. destruct (unassigned_jobs sch); [|reflexivity].
  now rewrite length_imap.
Qed.

End AggregatorMore.

Section ScenarioRow.

Context {num : Type} `{!JSNumber num}.
Variable Backend : Type.
Variable optimizeSchedule :
  Weights num -> Backend -> Backend * (JSError + Schedule num).

(** X7.  When the optimizer resolves with a schedule that carries its
    machine mapping, the row the scenario runner builds from it has the
    scheduled and unassigned counts that the aggregator stores for the same
    schedule. *)
Theorem scenario_row_agrees_with_aggregator
    (s : Scenario num) (b b' : Backend) (sched : Schedule num)
    (ms : list (string * MachineSchedule num)) (d : Dashboard num) :
  optimizeSchedule (s_weights s) b = (b', inr sched) ->
  machine_schedules sched = Some ms ->
  let k := scheduleKpis (computeScheduleKpis (Some sched) d) in
  scenario_body Backend optimizeSchedule s b
  = (b', inr {| scenario := s_name s; scheduled := totalScheduled k;
                sr_unassigned := unassigned k |}).
Proof.
  intros Hcall Hms. unfold scenario_body, computeScheduleKpis.
  rewrite Hcall, Hms. simpl. unfold forEach.
  rewrite scheduled_loop.
  match goal with
  | |- context [forEach_from machine_body 0 ?l ?t0] =>
      destruct (machine_loop_counters l 0 t0) as (H1 & _ & _)
  end.
  rewrite H1. reflexivity.
Qed.

Lemma scenario_body_recorded (s : Scenario num) (b : Backend)
    (log : list (Weights num)) :
  scenario_body (Backend * list (Weights num))
    (recording_optimizer Backend optimizeSchedule) s (b, log)
  = ((fst (scenario_body Backend optimizeSchedule s b),
      (log ++ [s_weights s])%list),
     snd (scenario_body Backend optimizeSchedule s b)).
Proof.
  unfold scenario_body, recording_optimizer. cbn [fst snd].
  destruct (optimizeSchedule (s_weights s) b) as [b1 [err|sched]];
    [reflexivity|].
  destruct (machine_schedules sched); reflexivity.
Qed.

(** The loop run against the recording optimizer: the backend moves as
    without the record, and the record grows by the weights of the presets
    that were tried, in order. *)
Lemma scenario_loop_recorded (scenarios : list (Scenario num))
    (results : list ScenarioResult) (b : Backend)
    (log : list (Weights num)) :
  let plain := scenario_loop Backend optimizeSchedule scenarios results b in
  scenario_loop (Backend * list (Weights num))
    (recording_optimizer Backend optimizeSchedule) scenarios results (b, log)
  = ((fst (fst plain),
      (log
       ++ map s_weights
            (take (attempted Backend optimizeSchedule scenarios b)
               scenarios))%list),
     snd (fst plain), snd plain).
Proof.
  revert results b log.
  induction scenarios as [|s scenarios IH]; intros results b log; simpl.
  - now rewrite app_nil_r.
  - rewrite scenario_body_recorded.
    destruct (scenario_body Backend optimizeSchedule s b) as [b1 [err|r]];
      cbn [fst snd]; [reflexivity|].
    rewrite IH. cbv zeta. simpl. now rewrite <- app_assoc.
Qed.

Lemma attempted_resolved (scenarios more : list (Scenario num))
    (b b1 : Backend) (rows : list ScenarioResult) :
  all_resolve Backend optimizeSchedule scenarios b rows b1 ->
  attempted Backend optimizeSchedule (scenarios ++ more) b
  = (length scenarios + attempted Backend optimizeSchedule more b1)%nat.
Proof.
  induction 1 as [b|s rest b b1 b2 sched ms rows Hcall Hms _ IH];
    [reflexivity|].
  simpl.
  rewrite (scenario_body_resolves Backend optimizeSchedule s b b1 sched ms
             Hcall Hms).
  now rewrite IH.
Qed.

(** X18.  The scenario runner calls the optimizer with the weights of the
    presets, one call per preset in preset order, and the record of the
    calls changes nothing else.  When every call resolves, the calls are
    those of all the presets.  When the turn of a preset throws after the
    calls before it resolved (its call is rejected, or its response lacks
    the machine mapping), the calls are those of the presets up to and
    including that one: no later preset is tried. *)
Theorem runWhatIfAnalysis_calls_in_order (scenarios : list (Scenario num))
    (b : Backend) (d : Dashboard num) :
  let plain := runWhatIfAnalysis_on Backend optimizeSchedule scenarios b d in
  let recorded :=
    runWhatIfAnalysis_on (Backend * list (Weights num))
      (recording_optimizer Backend optimizeSchedule) scenarios (b, []) d in
  let calls := snd (fst (fst recorded)) in
  fst (fst (fst recorded)) = fst (fst plain)
  /\ snd (fst recorded) = snd (fst plain)
  /\ snd recorded = snd plain
  /\ (forall (rows : list ScenarioResult) (b' : Backend),
        all_resolve Backend optimizeSchedule scenarios b rows b' ->
        calls = map s_weights scenarios)
  /\ (forall (done rest : list (Scenario num)) (failing : Scenario num)
             (rows : list ScenarioResult) (b1 b' : Backend) (err : JSError),
        scenarios = done ++ failing :: rest ->
        all_resolve Backend optimizeSchedule done b rows b1 ->
        turn_throws Backend optimizeSchedule failing b1 b' err ->
        calls = map s_weights (done ++ [failing])).
Proof.
  intros plain recorded calls. subst calls recorded plain.
  unfold runWhatIfAnalysis_on.
  rewrite (scenario_loop_recorded scenarios [] b []). cbv zeta.
  assert (Hcalls :
            snd (fst (fst
              (match scenario_loop Backend optimizeSchedule scenarios [] b
               with
               | (b', results, logged) =>
                   match logged with
                   | None =>
                       ((b',
                         map s_weights
                           (take (attempted Backend optimizeSchedule
                                    scenarios b) scenarios)),
                        setScenarioData results d, @None JSError)
                   | Some err =>
                       ((b',
                         map s_weights
                           (take (attempted Backend optimizeSchedule
                                    scenarios b) scenarios)),
                        d, Some err)
                   end
               end)))
            = map s_weights
                (take (attempted Backend optimizeSchedule scenarios b)
                   scenarios)).
  { destruct (scenario_loop Backend optimizeSchedule scenarios [] b)
      as [[b' results] [err|]]; reflexivity. }
  destruct (scenario_loop Backend optimizeSchedule scenarios [] b)
    as [[b' results] [err|]] eqn:Hloop; cbn [fst snd app] in *.
  - do 3 (split; [reflexivity|]). split.
    + intros rows b2 Hall.
      pose proof (attempted_resolved scenarios [] b b2 rows Hall) as Hn.
      rewrite app_nil_r in Hn. rewrite Hn. simpl.
      now rewrite Nat.add_0_r, firstn_all.
    + intros done rest failing rows b1 b2 err0 -> Hdone Hthrow.
      rewrite (attempted_resolved done (failing :: rest) b b1 rows Hdone).
      simpl.
      rewrite (scenario_body_throws Backend optimizeSchedule failing b1 b2
                 err0 Hthrow).
      replace (length done + 1)%nat with (length (done ++ [failing]))
        by (rewrite length_app; reflexivity).
      replace (done ++ failing :: rest) with ((done ++ [failing]) ++ rest)
        by now rewrite <- app_assoc.
      now rewrite take_app_length.
  - do 3 (split; [reflexivity|]). split.
    + intros rows b2 Hall.
      pose proof (attempted_resolved scenarios [] b b2 rows Hall) as Hn.
      rewrite app_nil_r in Hn. rewrite Hn. simpl.
      now rewrite Nat.add_0_r, firstn_all.
    + intros done rest failing rows b1 b2 err0 -> Hdone Hthrow.
      rewrite (attempted_resolved done (failing :: rest) b b1 rows Hdone).
      simpl.
      rewrite (scenario_body_throws Backend optimizeSchedule failing b1 b2
                 err0 Hthrow).
      replace (length done + 1)%nat with (length (done ++ [failing]))
        by (rewrite length_app; reflexivity).
      replace (done ++ failing :: rest) with ((done ++ [failing]) ++ rest)
        by now rewrite <- app_assoc.
      now rewrite take_app_length.
Qed.

End ScenarioRow.

Section Revenue.

Context {num : Type} `{!JSNumber num}.

Lemma job_loop_revenue (jobs : list (ScheduleJob num)) (i : nat)
    (t : Totals num) :
  t_totalRevenue (forEach_from job_body i jobs t)
  = fold_left
      (fun acc job =>
         (acc + match revenue job with
                | Some r => num_or r (num_of_Z 0)
                | None => num_of_Z 0
                end)%js)
      jobs (t_totalRevenue t).
Proof.
  revert i t.
  induction jobs as [|job jobs IH]; intros i t; simpl; [reflexivity|].
  apply IH.
Qed.

Lemma machine_loop_revenue (ms : list (string * MachineSchedule num))
    (i : nat) (t : Totals num) :
  t_totalRevenue (forEach_from machine_body i (Object_values ms) t)
  = fold_left
      (fun acc job =>
         (acc + match revenue job with
                | Some r => num_or r (num_of_Z 0)
                | None => num_of_Z 0
                end)%js)
      (all_jobs ms) (t_totalRevenue t).
Proof.
  revert i t.
  induction ms as [|e ms IH]; intros i t; simpl; [reflexivity|].
  rewrite IH, fold_left_app. f_equal.
  unfold machine_body, forEach. now rewrite job_loop_revenue.
Qed.

Lemma fold_left_pointwise {A B : Type} (f g : A -> B -> A) (l : list B)
    (a : A) :
  (forall x y, f x y = g x y) -> fold_left f l a = fold_left g l a.
Proof.
  intros Hfg. revert a.
  induction l as [|y l IH]; intros a; simpl; [reflexivity|].
  now rewrite Hfg, IH.
Qed.

End Revenue.

Lemma binary64_zero : Binary64.of_Z 0 = zero.
Proof. vm_compute. reflexivity. Qed.

(** X5.  For a schedule that carries its machine mapping, the stored
    totalRevenue is the binary64 sum, from 0, of what the jobs add one by
    one, machine after machine and job after job: the job's revenue, or 0
    when the revenue is missing, NaN or zero. *)
Theorem computeScheduleKpis_totalRevenue
    (sch : Schedule float) (ms : list (string * MachineSchedule float))
    (d : Dashboard float) :
  machine_schedules sch = Some ms ->
  totalRevenue (scheduleKpis (computeScheduleKpis (Some sch) d))
  = fold_left (fun acc job => (acc + revenue_or_zero job)%float)
      (all_jobs ms) zero.
Proof.
  intros Hms. unfold computeScheduleKpis. rewrite Hms. simpl.
  unfold forEach. rewrite machine_loop_revenue. cbn [t_totalRevenue].
  change (num_of_Z 0) with (Binary64.of_Z 0). rewrite binary64_zero.
  apply fold_left_pointwise. intros acc job.
  change (num_add acc) with (PrimFloat.add acc). f_equal.
  unfold revenue_or_zero, num_or.
  destruct (revenue job) as [r|]; [|reflexivity].
  change (num_truthy r) with (negb (is_zero r || is_nan r)).
  destruct (is_zero r), (is_nan r); reflexivity.
Qed.

(** ** Timeline builder: task ids *)

Section TaskIds.

Import Ascii.

Lemma count_char_app (c : ascii) (s1 s2 : string) :
  count_char c (s1 ++ s2) = (count_char c s1 + count_char c s2)%nat.
Proof.
  induction s1 as [|c' s1 IH]; simpl; [reflexivity|]. rewrite IH. lia.
Qed.

(** A string splits in one way only at a separator that its tail lacks. *)
Lemma append_separator_inj (c : ascii) (s1 s2 d1 d2 : string) :
  count_char c d1 = 0%nat -> count_char c d2 = 0%nat ->
  (s1 ++ String c d1 = s2 ++ String c d2)%string ->
  s1 = s2 /\ d1 = d2.
Proof.
  intros H1 H2. revert s2.
  induction s1 as [|a s1 IH]; intros [|b s2] Heq; simpl in Heq.
  - injection Heq as ->. split; reflexivity.
  - injection Heq as <- ->. rewrite count_char_app in H1. simpl in H1.
    rewrite Ascii.eqb_refl in H1. lia.
  - injection Heq as -> <-. rewrite count_char_app in H2. simpl in H2.
    rewrite Ascii.eqb_refl in H2. lia.
  - injection Heq as -> Heq. destruct (IH s2 Heq) as [-> ->].
    split; reflexivity.
Qed.

Lemma string_of_uint_no_underscore (d : Decimal.uint) :
  count_char "_" (NilEmpty.string_of_uint d) = 0%nat.
Proof.
  induction d; simpl; try rewrite IHd; reflexivity.
Qed.

Lemma string_of_nat_inj (n m : nat) :
  string_of_nat n = string_of_nat m -> n = m.
Proof.
  unfold string_of_nat. intros Heq.
  assert (Hu : Nat.to_uint n = Nat.to_uint m).
  { apply (f_equal NilEmpty.uint_of_string) in Heq.
    rewrite !NilEmpty.usu in Heq. now injection Heq. }
  apply (f_equal Nat.of_uint) in Hu.
  now rewrite !DecimalNat.Unsigned.of_to in Hu.
Qed.

Context {num : Type} `{!JSNumber num} `{!JSDate num}.

Lemma gantt_task_id_inj (now now' : Date num) (m1 m2 : string)
    (j1 j2 : ScheduleJob num) (i1 i2 : nat) :
  id (gantt_task now m1 j1 i1) = id (gantt_task now' m2 j2 i2) ->
  m1 = m2 /\ i1 = i2.
Proof.
  simpl. intros Heq.
  destruct (append_separator_inj "_" m1 m2 (string_of_nat i1)
              (string_of_nat i2)) as [-> Hd].
  - apply string_of_uint_no_underscore.
  - apply string_of_uint_no_underscore.
  - exact Heq.
  - split; [reflexivity | now apply string_of_nat_inj].
Qed.

Lemma machine_tasks_elem (now : Date num) (e : string * MachineSchedule num)
    (t : Task num) :
  t ∈ machine_tasks now e ->
  exists (idx : nat) (job : ScheduleJob num),
    schedule (snd e) !! idx = Some job /\ t = gantt_task now (fst e) job idx.
Proof.
  unfold machine_tasks. intros Hin.
  apply elem_of_lookup_imap_1 in Hin as (idx & job & -> & Hjob).
  eauto.
Qed.

Lemma machine_tasks_ids_NoDup (now : Date num)
    (e : string * MachineSchedule num) :
  NoDup (map id (machine_tasks now e)).
Proof.
  apply NoDup_alt. intros i j x Hi Hj.
  change (map id (machine_tasks now e)) with (id <$> machine_tasks now e)
    in Hi, Hj.
  rewrite list_lookup_fmap in Hi, Hj. unfold machine_tasks in Hi, Hj.
  rewrite list_lookup_imap in Hi, Hj.
  destruct (schedule (snd e) !! i) as [ji|]; [|discriminate].
  destruct (schedule (snd e) !! j) as [jj|]; [|discriminate].
  simpl in Hi, Hj. injection Hi as Hi. injection Hj as Hj.
  rewrite <- Hj in Hi.
  now destruct (gantt_task_id_inj now now (fst e) (fst e) ji jj i j Hi).
Qed.

(** X8.  When the machine ids of the mapping are pairwise distinct, as the
    keys of an object are, the ids of the timeline's tasks are pairwise
    distinct too, whatever characters the machine ids hold. *)
Theorem buildGanttTasks_ids_distinct (scheduleData : option (Schedule num))
    (now : Date num) :
  NoDup (map fst (machines_of scheduleData)) ->
  NoDup (map id (buildGanttTasks scheduleData now)).
Proof.
  rewrite buildGanttTasks_flat_map.
  induction (machines_of scheduleData) as [|e ms IH]; intros Hkeys; simpl.
  - constructor.
  - apply NoDup_cons in Hkeys as [Hfresh Hkeys].
    rewrite map_app. apply NoDup_app.
    split; [apply machine_tasks_ids_NoDup|].
    split; [|now apply IH].
    intros x Hx Hx'.
    apply list_elem_of_In, in_map_iff in Hx as (t & <- & Ht).
    apply list_elem_of_In, in_map_iff in Hx' as (t' & Heq & Ht').
    apply list_elem_of_In, machine_tasks_elem in Ht as (i & job & _ & ->).
    apply in_flat_map in Ht' as (e' & He' & Ht').
    apply list_elem_of_In, machine_tasks_elem in Ht' as (i' & job' & _ & ->).
    destruct (gantt_task_id_inj now now (fst e') (fst e) job' job i' i Heq)
      as [Hmid _].
    apply Hfresh. rewrite <- Hmid.
    apply list_elem_of_In, in_map. exact He'.
Qed.

End TaskIds.

(** ** Risk tables *)

Section RiskTableProperties.

Context {num : Type} `{!JSNumber num}.

Local Open Scope string_scope.

Lemma risk_level_cases (s : string) :
  (s = "Healthy" /\ (s =? "Healthy") = true /\ (s =? "Warning") = false
   /\ (s =? "High Risk") = false)
  \/ (s = "Warning" /\ (s =? "Healthy") = false /\ (s =? "Warning") = true
      /\ (s =? "High Risk") = false)
  \/ (s = "High Risk" /\ (s =? "Healthy") = false
      /\ (s =? "Warning") = false /\ (s =? "High Risk") = true)
  \/ (s <> "Healthy" /\ s <> "Warning" /\ s <> "High Risk"
      /\ (s =? "Healthy") = false /\ (s =? "Warning") = false
      /\ (s =? "High Risk") = false).
Proof.
  destruct (String.eqb_spec s "Healthy") as [->|N1]; [left; auto|].
  destruct (String.eqb_spec s "Warning") as [->|N2]; [right; left; auto|].
  destruct (String.eqb_spec s "High Risk") as [->|N3];
    [right; right; left; auto|].
  right; right; right. auto 10.
Qed.

(** X9.  The operator's High-Risk Machines table lists total - healthy
    records: at least warning + highRisk of them, and exactly that many
    only when every record's level is in one of the three buckets; it is
    empty exactly when every record is "Healthy". *)
Theorem highRiskRows_count (riskData : list (MachineRiskRecord num)) :
  let k := runPipeline_kpis riskData in
  let rows := highRiskRows riskData in
  (length rows + healthy k = total k)%nat
  /\ (warning k + highRisk k <= length rows)%nat
  /\ ((warning k + highRisk k = length rows)%nat <-> Forall bucketed riskData)
  /\ (rows = [] <-> Forall (fun m => risk_level m = "Healthy") riskData).
Proof.
  intros k rows. subst k rows. unfold highRiskRows, runPipeline_kpis.
  cbn [total healthy warning highRisk].
  induction riskData as [|m data IH].
  - simpl. repeat split; auto; constructor.
  - destruct IH as (IH1 & IH2 & IH3 & IH4).
    cbn [List.filter length].
    destruct (risk_level_cases (risk_level m))
      as [(E & -> & -> & ->)|[(E & -> & -> & ->)|[(E & -> & -> & ->)
          |(N1 & N2 & N3 & -> & -> & ->)]]];
      cbn [negb length].
    + split; [lia|]. split; [lia|]. split; [|split].
      * rewrite IH3. split; intros Hall.
        -- constructor; [now left | exact Hall].
        -- now inversion Hall.
      * intros Hnil. constructor; [exact E | now apply IH4].
      * intros Hall. inversion Hall; subst. now apply IH4.
    + split; [lia|]. split; [lia|]. split; [|split; [discriminate|]].
      * split; intros Hall.
        -- constructor; [right; now left|]. apply IH3. lia.
        -- inversion Hall as [|? ? _ Hall']; subst.
           apply IH3 in Hall'. lia.
      * intros Hall. inversion Hall as [|? ? Hm _]; subst.
        rewrite E in Hm. discriminate.
    + split; [lia|]. split; [lia|]. split; [|split; [discriminate|]].
      * split; intros Hall.
        -- constructor; [right; now right|]. apply IH3. lia.
        -- inversion Hall as [|? ? _ Hall']; subst.
           apply IH3 in Hall'. lia.
      * intros Hall. inversion Hall as [|? ? Hm _]; subst.
        rewrite E in Hm. discriminate.
    + split; [lia|]. split; [lia|]. split; [|split; [discriminate|]].
      * split; intros Hall.
        -- lia.
        -- inversion Hall as [|? ? Hm _]; subst.
           unfold bucketed in Hm. tauto.
      * intros Hall. inversion Hall as [|? ? Hm _]; subst. contradiction.
Qed.

(** X10.  For a record listed in the operator's table, the Status badge
    has the colours of the management table's Risk Level badge exactly when
    the record's level is in a bucket; a record of another level is amber
    in the operator's table and gray in the management table. *)
Theorem status_badge_agrees_when_bucketed
    (riskData : list (MachineRiskRecord num)) (m : MachineRiskRecord num) :
  In m (highRiskRows riskData) ->
  (statusClass m = riskLevelClass (risk_level m) <-> bucketed m)
  /\ (~ bucketed m ->
      statusClass m = "bg-amber-100 text-amber-800"
      /\ riskLevelClass (risk_level m) = "bg-gray-100 text-gray-800").
Proof.
  unfold highRiskRows. intros Hin. apply filter_In in Hin as [_ Hnot].
  unfold statusClass, riskLevelClass, bucketed.
  destruct (String.eqb_spec (risk_level m) "Healthy") as [E1|N1];
    [discriminate|].
  destruct (String.eqb_spec (risk_level m) "Warning") as [E2|N2];
    [rewrite E2; simpl; split; [tauto|intros Hn; exfalso; tauto]|].
  destruct (String.eqb_spec (risk_level m) "High Risk") as [E3|N3].
  - split; [tauto|intros Hn; exfalso; tauto].
  - split; [|tauto]. split; [discriminate|tauto].
Qed.

End RiskTableProperties.

(** ** CSV export *)

Section ExportProperties.

Import Ascii.

Context {num : Type} `{!JSNumber num}.
Variable toFixed2 : num -> string.

Local Open Scope string_scope.

Lemma count_char_join (c : ascii) (sep : string) (arr : list string) :
  count_char c (join sep arr)
  = (sum_list_with (count_char c) arr
     + (length arr - 1) * count_char c sep)%nat.
Proof.
  unfold join.
  induction arr as [|x arr IH]; [reflexivity|].
  destruct arr as [|y arr]; [simpl; lia|].
  change (String.concat sep (x :: y :: arr))
    with (x ++ sep ++ String.concat sep (y :: arr)).
  rewrite !count_char_app, IH. simpl. lia.
Qed.

Lemma string_app_nil_r (x : string) : x ++ EmptyString = x.
Proof. induction x as [|c x IH]; simpl; [reflexivity | now rewrite IH]. Qed.

(** A joined array is its first element followed by each other element
    behind a separator. *)
Lemma join_cons (sep x : string) (arr : list string) :
  join sep (x :: arr)
  = x ++ fold_right (fun y rest => sep ++ y ++ rest) EmptyString arr.
Proof.
  unfold join. revert x.
  induction arr as [|y arr IH]; intros x.
  - simpl. now rewrite string_app_nil_r.
  - change (String.concat sep (x :: y :: arr))
      with (x ++ sep ++ String.concat sep (y :: arr)).
    now rewrite IH.
Qed.

(** X11.  The export produces no file for empty risk data.  Otherwise the
    text is the header line followed, for each record in order, by a line
    break and the record's Machine_ID, health score with two decimals and
    risk_level with a comma between them, each field copied as it is,
    without quoting or escaping.  So the text holds two commas for each of
    its lines plus every comma that occurs inside a field, and one line
    break per record plus every line break inside a field. *)
Theorem exportMachinesCSV_not_quoted
    (riskData : list (MachineRiskRecord num)) :
  (exportMachinesCSV toFixed2 riskData = None <-> riskData = [])
  /\ (riskData <> [] ->
      exists csvContent : string,
        exportMachinesCSV toFixed2 riskData = Some csvContent
        /\ csvContent
           = "Machine_ID,Health_Score,Risk_Level"
             ++ fold_right
                  (fun m rest => newline ++ record_line toFixed2 m ++ rest)
                  EmptyString riskData
        /\ count_char "," csvContent
           = (2 * S (length riskData)
              + sum_list_with (field_chars toFixed2 ",") riskData)%nat
        /\ count_char "010" csvContent
           = (length riskData
              + sum_list_with (field_chars toFixed2 "010") riskData)%nat).
Proof.
  split.
  { destruct riskData; simpl; split; intros; congruence. }
  intros Hne. destruct riskData as [|m data]; [contradiction|].
  eexists. split; [reflexivity|].
  set (line := fun r : MachineRiskRecord num =>
                 join "," [Machine_ID r; toFixed2 (health_score r);
                           risk_level r]).
  assert (Hline : forall c r,
             count_char c (line r)
             = (field_chars toFixed2 c r + 2 * count_char c ",")%nat).
  { intros c r. unfold line. rewrite count_char_join. unfold field_chars.
    simpl. lia. }
  assert (Hsum : forall c (l : list (MachineRiskRecord num)),
             sum_list_with (count_char c)
               (map (fun row => join "," row)
                  (map (fun r => [Machine_ID r; toFixed2 (health_score r);
                                  risk_level r]) l))
             = (sum_list_with (field_chars toFixed2 c) l
                + 2 * length l * count_char c ",")%nat).
  { intros c l. induction l as [|r l IH]; [reflexivity|].
    cbn [map sum_list_with length]. rewrite IH.
    change (join "," [Machine_ID r; toFixed2 (health_score r); risk_level r])
      with (line r).
    rewrite Hline. lia. }
  assert (Hfold : forall l : list (MachineRiskRecord num),
             fold_right (fun y rest => newline ++ y ++ rest) EmptyString
               (map (fun row => join "," row)
                  (map (fun r => [Machine_ID r; toFixed2 (health_score r);
                                  risk_level r]) l))
             = fold_right
                 (fun r rest => newline ++ record_line toFixed2 r ++ rest)
                 EmptyString l).
  { intros l. induction l as [|r l IH]; [reflexivity|].
    cbn [map fold_right]. rewrite IH. reflexivity. }
  split.
  { cbn [map]. rewrite join_cons.
    change (join "," ["Machine_ID"; "Health_Score"; "Risk_Level"])
      with "Machine_ID,Health_Score,Risk_Level".
    f_equal. exact (Hfold (m :: data)). }
  split.
  - rewrite count_char_join. cbn [map sum_list_with length].
    rewrite !length_map.
    change (join "," [Machine_ID m; toFixed2 (health_score m); risk_level m])
      with (line m).
    rewrite Hline, Hsum. simpl. lia.
  - rewrite count_char_join. cbn [map sum_list_with length].
    rewrite !length_map.
    change (join "," [Machine_ID m; toFixed2 (health_score m); risk_level m])
      with (line m).
    rewrite Hline, Hsum. simpl. lia.
Qed.

End ExportProperties.

(** ** Pipeline orchestrator *)

Section PipelineProperties.

Context {num : Type} `{!JSNumber num}.
Context {Backend JobRecord MaintenanceEvent : Type}.
Variable api : Api num Backend JobRecord MaintenanceEvent.

Local Open Scope string_scope.

Local Abbreviation PageT := (Page num JobRecord MaintenanceEvent).
Local Abbreviation WorldT := (World num Backend JobRecord MaintenanceEvent).
Local Abbreviation AsyncT := (Async num Backend JobRecord MaintenanceEvent).

Lemma computeScheduleKpis_idempotent (s : option (Schedule num))
    (d : Dashboard num) :
  computeScheduleKpis s (computeScheduleKpis s d) = computeScheduleKpis s d.
Proof.
  unfold computeScheduleKpis.
  destruct s as [sch|]; [|reflexivity].
  destruct (machine_schedules sch); reflexivity.
Qed.

Lemma computeScheduleKpis_frame (s : option (Schedule num))
    (d : Dashboard num) :
  scheduleData (computeScheduleKpis s d) = scheduleData d
  /\ scenarioData (computeScheduleKpis s d) = scenarioData d
  /\ weights (computeScheduleKpis s d) = weights d
  /\ kpis (computeScheduleKpis s d) = kpis d.
Proof.
  unfold computeScheduleKpis.
  destruct s as [sch|]; [|repeat split].
  destruct (machine_schedules sch); repeat split.
Qed.

Lemma computeScheduleKpis_setScenarioData (s : option (Schedule num))
    (r : list ScenarioResult) (d : Dashboard num) :
  computeScheduleKpis s (setScenarioData r d)
  = setScenarioData r (computeScheduleKpis s d).
Proof.
  unfold computeScheduleKpis.
  destruct s as [sch|]; [|reflexivity].
  destruct (machine_schedules sch); reflexivity.
Qed.

Lemma computeScheduleKpis_setWeights (s : option (Schedule num))
    (v : Weights num) (d : Dashboard num) :
  computeScheduleKpis s (setWeights v d)
  = setWeights v (computeScheduleKpis s d).
Proof.
  unfold computeScheduleKpis.
  destruct s as [sch|]; [|reflexivity].
  destruct (machine_schedules sch); reflexivity.
Qed.

Lemma computeScheduleKpis_setKpis (s : option (Schedule num))
    (v : FleetKPIs num) (d : Dashboard num) :
  computeScheduleKpis s (setKpis v d) = setKpis v (computeScheduleKpis s d).
Proof.
  unfold computeScheduleKpis.
  destruct s as [sch|]; [|reflexivity].
  destruct (machine_schedules sch); reflexivity.
Qed.

(** The scenario runner changes the scenario output or nothing. *)
Lemma runWhatIfAnalysis_sets_scenarioData (b : Backend) (d : Dashboard num) :
  exists r : list ScenarioResult,
    snd (fst (runWhatIfAnalysis Backend (optimizeSchedule api) b d))
    = setScenarioData r d.
Proof.
  unfold runWhatIfAnalysis, runWhatIfAnalysis_on.
  destruct (scenario_loop Backend (optimizeSchedule api) _ [] b)
    as [[b' results] [err|]]; simpl.
  - exists (scenarioData d). now destruct d.
  - now exists results.
Qed.

(** A failed scenario analysis leaves the dashboard as it was. *)
Lemma runWhatIfAnalysis_failure_unchanged (b b' : Backend)
    (d d' : Dashboard num) (err : JSError) :
  runWhatIfAnalysis Backend (optimizeSchedule api) b d = (b', d', Some err) ->
  d' = d.
Proof.
  unfold runWhatIfAnalysis, runWhatIfAnalysis_on.
  destruct (scenario_loop Backend (optimizeSchedule api) _ [] b)
    as [[b1 results] [e|]]; [|discriminate].
  now intros [= _ <- _].
Qed.

(** Unfold the async plumbing and split on the outcome of each call. *)
Ltac run_async :=
  unfold async_bind, try_catch, await, setState, console_error,
    awaitWhatIfAnalysis;
  cbn [backend page console fst snd];
  repeat
    match goal with
    | |- context [runWhatIfAnalysis ?B ?o ?b ?d] =>
        let Hd := fresh "Hd" in
        destruct (runWhatIfAnalysis_sets_scenarioData b d) as [? Hd];
        destruct (runWhatIfAnalysis B o b d) as [[? ?] ?];
        cbn [fst snd] in Hd; subst;
        cbn [backend page console fst snd]
    | |- context [let '(_, _) := ?call ?b in _] =>
        let r := fresh "r" in
        destruct (call b) as [? r]; destruct r as [?|?];
        cbn [backend page console fst snd]
    end.

(** X13.  Whatever the backend answers, the loading flag is off when the
    pipeline has run. *)
Theorem runPipeline_clears_loading (w : WorldT) :
  loading (page (runPipeline api w)) = false.
Proof.
  unfold runPipeline, runPipeline_body. run_async. all: reflexivity.
Qed.

Lemma derived_initial : derived (initial_page : PageT).
Proof. split; reflexivity. Qed.

Lemma preserves_bind {A B : Type} (c : AsyncT A) (k : A -> AsyncT B) :
  preserves c -> (forall a : A, preserves (k a)) ->
  preserves (async_bind c k).
Proof.
  intros Hc Hk w Hw. unfold async_bind.
  specialize (Hc w Hw). destruct (c w) as [w' [err|a]]; [exact Hc|].
  now apply Hk.
Qed.

Lemma preserves_try_catch (body : AsyncT unit)
    (handler : JSError -> AsyncT unit) :
  preserves body -> (forall err : JSError, preserves (handler err)) ->
  preserves (try_catch body handler).
Proof.
  intros Hb Hh w Hw. unfold try_catch.
  specialize (Hb w Hw). destruct (body w) as [w' [err|[]]]; [|exact Hb].
  now apply Hh.
Qed.

Lemma preserves_await {A : Type}
    (call : Backend -> Backend * (JSError + A)) :
  preserves (await (JobRecord := JobRecord)
               (MaintenanceEvent := MaintenanceEvent) call).
Proof.
  intros w Hw. unfold await. now destruct (call (backend w)).
Qed.

Lemma preserves_console_error (label : string) (err : JSError) :
  preserves (console_error label err : AsyncT unit).
Proof. intros w Hw. exact Hw. Qed.

Lemma preserves_setState (f : PageT -> PageT) :
  (forall p : PageT, derived p -> derived (f p)) ->
  preserves (setState f : AsyncT unit).
Proof. intros Hf w Hw. now apply Hf. Qed.

(** Two setters in a row, with no await between them, act as one. *)
Lemma preserves_two_setters {A : Type} (f g : PageT -> PageT)
    (k : AsyncT A) :
  (forall p : PageT, derived p -> derived (g (f p))) -> preserves k ->
  preserves
    (async_bind (setState f) (fun _ => async_bind (setState g) (fun _ => k))).
Proof.
  intros Hfg Hk w Hw.
  change (derived
            (page
               (fst (async_bind (setState (fun p => g (f p)))
                       (fun _ => k) w)))).
  apply (preserves_bind (setState (fun p => g (f p))) (fun _ => k)); auto.
  now apply preserves_setState.
Qed.

Lemma preserves_two_setters_end (f g : PageT -> PageT) :
  (forall p : PageT, derived p -> derived (g (f p))) ->
  preserves (async_bind (setState f) (fun _ => setState g) : AsyncT unit).
Proof.
  intros Hfg w Hw. now apply Hfg.
Qed.

Lemma derived_risk (data : list (MachineRiskRecord num)) (p : PageT) :
  derived p ->
  derived (onDashboard (setKpis (kpis_numbers (runPipeline_kpis data)))
             (setRiskData data p)).
Proof.
  intros [_ Hs]. split; [reflexivity|].
  cbn [dashboard onDashboard setRiskData scheduleData setKpis].
  rewrite computeScheduleKpis_setKpis. now rewrite Hs.
Qed.

Lemma derived_schedule (sched : Schedule num) (p : PageT) :
  derived p ->
  derived (onDashboard (computeScheduleKpis (Some sched))
             (onDashboard (setScheduleData (Some sched)) p)).
Proof.
  intros [Hk _].
  destruct (computeScheduleKpis_frame (Some sched)
              (setScheduleData (Some sched) (dashboard p)))
    as (Hsd & _ & _ & Hkp).
  split; cbn [dashboard onDashboard riskData].
  - rewrite Hkp. exact Hk.
  - rewrite Hsd. cbn [scheduleData setScheduleData].
    apply computeScheduleKpis_idempotent.
Qed.

Lemma derived_setWeights (v : Weights num) (p : PageT) :
  derived p -> derived (onDashboard (setWeights v) p).
Proof.
  intros [Hk Hs]. split; [exact Hk|].
  cbn [dashboard onDashboard scheduleData setWeights].
  rewrite computeScheduleKpis_setWeights. now rewrite Hs.
Qed.

Lemma preserves_awaitWhatIfAnalysis : preserves (awaitWhatIfAnalysis api).
Proof.
  intros w [Hk Hs]. unfold awaitWhatIfAnalysis.
  destruct (runWhatIfAnalysis_sets_scenarioData (backend w)
              (dashboard (page w))) as [r Hr].
  destruct (runWhatIfAnalysis Backend (optimizeSchedule api) (backend w)
              (dashboard (page w))) as [[b' d'] logged].
  cbn [fst snd] in Hr. subst d'.
  split; cbn [fst page dashboard onDashboard riskData].
  - exact Hk.
  - cbn [scheduleData setScenarioData].
    rewrite computeScheduleKpis_setScenarioData. now rewrite Hs.
Qed.

Lemma runPipeline_body_preserves (ws : Weights num) :
  preserves (runPipeline_body api ws).
Proof.
  unfold runPipeline_body.
  apply preserves_bind; [now apply preserves_setState|intros _].
  apply preserves_bind; [|intros _; now apply preserves_setState].
  apply preserves_try_catch; [|intros err; apply preserves_console_error].
  apply preserves_bind; [apply preserves_await|intros _].
  apply preserves_bind; [apply preserves_await|intros _].
  apply preserves_bind; [apply preserves_await|intros data].
  apply preserves_two_setters; [apply derived_risk|].
  apply preserves_bind; [apply preserves_await|intros sched].
  apply preserves_two_setters; [apply derived_schedule|].
  apply preserves_bind; [apply preserves_awaitWhatIfAnalysis|intros _].
  apply preserves_bind; [apply preserves_await|intros jobs].
  apply preserves_bind; [now apply preserves_setState|intros _].
  apply preserves_bind; [apply preserves_await|intros maint].
  now apply preserves_setState.
Qed.

Lemma recomputeSchedule_body_preserves (ws : Weights num) :
  preserves (recomputeSchedule_body api ws).
Proof.
  unfold recomputeSchedule_body.
  apply preserves_bind;
    [apply preserves_setState; apply derived_setWeights|intros _].
  apply preserves_try_catch; [|intros err; apply preserves_console_error].
  apply preserves_bind; [apply preserves_await|intros sched].
  apply preserves_two_setters_end. apply derived_schedule.
Qed.

(** What the aggregator stores for a schedule with its machine mapping
    does not depend on the state it starts from. *)
Lemma computeScheduleKpis_figures (sch : Schedule num)
    (ms : list (string * MachineSchedule num)) (d d' : Dashboard num) :
  machine_schedules sch = Some ms ->
  scheduleKpis (computeScheduleKpis (Some sch) d)
  = scheduleKpis (computeScheduleKpis (Some sch) d').
Proof.
  intros Hms. unfold computeScheduleKpis. now rewrite Hms.
Qed.

(** X14.  From the page the component mounts with, whatever the backend
    answers and whatever refreshes and slider moves follow one another, the
    baseline counts on the page are those of the risk data on the page,
    and, whenever the schedule on the page carries its machine mapping, the
    schedule KPIs on the page are those the aggregator computes for that
    schedule.  (A stored schedule without the mapping says nothing about
    the KPIs beside it: the aggregator left them as they were.) *)
Theorem figures_stay_derived (b : Backend) (events : list (Event num)) :
  let p :=
    page
      (fold_left (handle api) events
         {| backend := b; page := initial_page; console := [] |}) in
  kpis (dashboard p) = kpis_numbers (runPipeline_kpis (riskData p))
  /\ forall (sch : Schedule num) (ms : list (string * MachineSchedule num)),
       scheduleData (dashboard p) = Some sch ->
       machine_schedules sch = Some ms ->
       scheduleKpis (dashboard p)
       = scheduleKpis (computeScheduleKpis (Some sch) initial).
Proof.
  assert (Hgen : forall (events : list (Event num)) (w : WorldT),
             derived (page w) ->
             derived (page (fold_left (handle api) events w))).
  { clear events. intros events.
    induction events as [|e events IH]; intros w Hw; [exact Hw|].
    simpl. apply IH. destruct e as [|ws]; simpl.
    - apply runPipeline_body_preserves. exact Hw.
    - apply recomputeSchedule_body_preserves. exact Hw. }
  intros p.
  destruct (Hgen events {| backend := b; page := initial_page;
                           console := [] |} derived_initial)
    as [Hkpis Hfix].
  fold p in Hkpis, Hfix.
  split; [exact Hkpis|].
  intros sch ms Hsch Hms. rewrite Hsch in Hfix.
  rewrite <- Hfix at 1.
  exact (computeScheduleKpis_figures sch ms _ _ Hms).
Qed.

(** X15.  When the optimizer rejects the pipeline's call, the risk data
    and the baseline counts fetched just before are kept, the schedule and
    all that follows stay as they were, the error is logged, and no further
    endpoint is called. *)
Theorem runPipeline_optimizer_fails (w : WorldT) (b1 b2 b3 b4 : Backend)
    (data : list (MachineRiskRecord num)) (err : JSError) :
  generateData api (backend w) = (b1, inr tt) ->
  trainModel api b1 = (b2, inr tt) ->
  getHighRisk api b2 = (b3, inr data) ->
  optimizeSchedule api (weights (dashboard (page w))) b3 = (b4, inl err) ->
  runPipeline api w
  = {| backend := b4;
       page :=
         setLoading false
           (onDashboard (setKpis (kpis_numbers (runPipeline_kpis data)))
              (setRiskData data (page w)));
       console := (console w ++ [("Pipeline error:", err)])%list |}.
Proof.
  intros H1 H2 H3 H4.
  unfold runPipeline, runPipeline_body, async_bind, try_catch, await,
    setState, console_error.
  cbn [backend page console fst snd].
  rewrite H1. cbn [backend page console fst snd].
  rewrite H2. cbn [backend page console fst snd].
  rewrite H3. cbn [backend page console fst snd].
  cbn [setLoading setRiskData onDashboard dashboard setKpis weights].
  rewrite H4. reflexivity.
Qed.

(** X16.  A failure inside the scenario analysis does not stop the
    pipeline: the jobs and the maintenance events are fetched and stored
    all the same, and only the scenario output stays as it was. *)
Theorem runPipeline_survives_scenario_failure (w : WorldT)
    (b1 b2 b3 b4 b5 b6 b7 : Backend) (data : list (MachineRiskRecord num))
    (sched : Schedule num) (d5 : Dashboard num) (err : JSError)
    (jobs : list JobRecord) (maint : list MaintenanceEvent) :
  generateData api (backend w) = (b1, inr tt) ->
  trainModel api b1 = (b2, inr tt) ->
  getHighRisk api b2 = (b3, inr data) ->
  optimizeSchedule api (weights (dashboard (page w))) b3 = (b4, inr sched) ->
  runWhatIfAnalysis Backend (optimizeSchedule api) b4
    (computeScheduleKpis (Some sched)
       (setScheduleData (Some sched)
          (setKpis (kpis_numbers (runPipeline_kpis data))
             (dashboard (page w)))))
  = (b5, d5, Some err) ->
  getJobs api b5 = (b6, inr jobs) ->
  simulateMaintenance api b6 = (b7, inr maint) ->
  let w' := runPipeline api w in
  backend w' = b7
  /\ jobsData (page w') = jobs
  /\ maintenanceData (page w') = maint
  /\ riskData (page w') = data
  /\ scheduleData (dashboard (page w')) = Some sched
  /\ scenarioData (dashboard (page w')) = scenarioData (dashboard (page w))
  /\ loading (page w') = false
  /\ console w' = (console w ++ [("What-if analysis failed:", err)])%list.
Proof.
  intros H1 H2 H3 H4 H5 H6 H7.
  pose proof (runWhatIfAnalysis_failure_unchanged _ _ _ _ _ H5) as Hd5.
  destruct (computeScheduleKpis_frame (Some sched)
              (setScheduleData (Some sched)
                 (setKpis (kpis_numbers (runPipeline_kpis data))
                    (dashboard (page w)))))
    as (Hsd & Hsc & _ & _).
  unfold runPipeline, runPipeline_body, async_bind, try_catch, await,
    setState, console_error, awaitWhatIfAnalysis.
  cbn [backend page console fst snd].
  rewrite H1. cbn [backend page console fst snd].
  rewrite H2. cbn [backend page console fst snd].
  rewrite H3. cbn [backend page console fst snd].
  cbn [setLoading setRiskData onDashboard dashboard setKpis weights].
  rewrite H4.
  cbn [backend page console fst snd dashboard onDashboard setRiskData
         setLoading].
  rewrite H5. cbn [backend page console fst snd].
  rewrite H6. cbn [backend page console fst snd].
  rewrite H7. cbn [backend page console fst snd].
  cbn [setLoading setJobsData setMaintenanceData onDashboard dashboard
         jobsData maintenanceData riskData loading].
  rewrite Hd5, Hsd, Hsc. repeat split.
Qed.

(** X17.  Moving a slider stores the new weights at once and touches
    neither the risk data, the baseline counts, the scenario output, the
    loading flag, the jobs nor the maintenance events; when the optimizer
    rejects the call, the schedule and its KPIs stay as they were too,
    beside the new weights, and the error is logged. *)
Theorem recomputeSchedule_frame (newWeights : Weights num) (w : WorldT) :
  let w' := recomputeSchedule api newWeights w in
  weights (dashboard (page w')) = newWeights
  /\ kpis (dashboard (page w')) = kpis (dashboard (page w))
  /\ scenarioData (dashboard (page w')) = scenarioData (dashboard (page w))
  /\ riskData (page w') = riskData (page w)
  /\ loading (page w') = loading (page w)
  /\ jobsData (page w') = jobsData (page w)
  /\ maintenanceData (page w') = maintenanceData (page w)
  /\ (forall (b' : Backend) (err : JSError),
        optimizeSchedule api newWeights (backend w) = (b', inl err) ->
        scheduleData (dashboard (page w')) = scheduleData (dashboard (page w))
        /\ scheduleKpis (dashboard (page w'))
           = scheduleKpis (dashboard (page w))
        /\ console w'
           = (console w ++ [("Recompute failed:", err)])%list).
Proof.
  unfold recomputeSchedule, recomputeSchedule_body, async_bind, try_catch,
    await, setState, console_error.
  cbn [backend page console fst snd].
  destruct (optimizeSchedule api newWeights (backend w)) as [b1 [e|sched]];
    cbn [backend page console fst snd dashboard onDashboard].
  - do 7 (split; [reflexivity|]).
    intros b2 err0 [= _ <-]. repeat split.
  - destruct (computeScheduleKpis_frame (Some sched)
                (setScheduleData (Some sched)
                   (setWeights newWeights (dashboard (page w)))))
      as (_ & Hsc & Hw & Hk).
    rewrite Hsc, Hw, Hk. do 7 (split; [reflexivity|]).
    intros b2 err0 [=].
Qed.

End PipelineProperties.

(** ** The further theorems at sample inputs *)

Section MoreWitnesses.

Import Ascii.

Local Open Scope string_scope.

Lemma computeScheduleKpis_on_time_count_witness :
  let ms := machines_of (num := float) (Some example_schedule) in
  let k := scheduleKpis (computeScheduleKpis (Some example_schedule)
                           initial) in
  machine_schedules (example_schedule (num := float)) = Some ms
  /\ onTime k = length (List.filter on_time (all_jobs ms))
  /\ late k = length (List.filter (fun j => negb (on_time j)) (all_jobs ms)).
Proof.
  intros ms k. split; [reflexivity|].
  exact (computeScheduleKpis_on_time_count example_schedule ms initial
           eq_refl).
Defined.

Lemma computeScheduleKpis_totalRevenue_witness :
  let ms := machines_of (num := float) (Some example_schedule) in
  machine_schedules (example_schedule (num := float)) = Some ms
  /\ totalRevenue
       (scheduleKpis (computeScheduleKpis (Some example_schedule) initial))
     = fold_left (fun acc job => (acc + revenue_or_zero job)%float)
         (all_jobs ms) PrimFloat.zero.
Proof.
  intros ms. split; [reflexivity|].
  exact (computeScheduleKpis_totalRevenue example_schedule ms initial
           eq_refl).
Defined.

Lemma unassigned_matches_deferred_witness :
  let ms := machines_of (num := float) (Some example_schedule) in
  machine_schedules (example_schedule (num := float)) = Some ms
  /\ unassigned
       (scheduleKpis (computeScheduleKpis (Some example_schedule) initial))
     = length (deferredJobsList (num := float) (Some example_schedule)).
Proof.
  intros ms. split; [reflexivity|].
  exact (unassigned_matches_deferred example_schedule ms initial eq_refl).
Defined.

Lemma scenario_row_agrees_with_aggregator_witness :
  let s := {| s_name := "Balanced";
              s_weights := weights (num := float) initial |} in
  let ms := machines_of (num := float) (Some example_schedule) in
  let k := scheduleKpis (computeScheduleKpis (Some example_schedule)
                           initial) in
  flaky_optimizer (s_weights s) 0%nat = (1%nat, inr example_schedule)
  /\ machine_schedules (example_schedule (num := float)) = Some ms
  /\ scenario_body nat flaky_optimizer s 0%nat
     = (1%nat, inr {| scenario := s_name s; scheduled := totalScheduled k;
                      sr_unassigned := unassigned k |}).
Proof.
  intros s ms k. split; [reflexivity|]. split; [reflexivity|].
  exact (scenario_row_agrees_with_aggregator nat flaky_optimizer s 0%nat
           1%nat example_schedule ms initial eq_refl eq_refl).
Defined.

Lemma runWhatIfAnalysis_calls_in_order_witness :
  let presets := scenarios_of (weights (num := float) initial) in
  let recorded :=
    runWhatIfAnalysis_on (nat * list (Weights float))
      (recording_optimizer nat flaky_optimizer) presets (0%nat, [])
      initial in
  snd (fst (fst recorded)) = map s_weights (take 2 presets).
Proof.
  intros presets recorded.
  destruct (runWhatIfAnalysis_calls_in_order nat flaky_optimizer presets
              0%nat initial) as (_ & _ & _ & _ & Hthrow).
  pose (ms := machines_of (Some (example_schedule (num := float)))).
  assert (Hone : all_resolve nat flaky_optimizer (take 1 presets) 0%nat
                   (map (fun s => scenario_row s example_schedule)
                      (take 1 presets))
                   1%nat).
  { subst presets. unfold scenarios_of. cbn [map take].
    apply (all_resolve_cons nat flaky_optimizer _ _ 0%nat 1%nat 1%nat
             example_schedule ms); [reflexivity | reflexivity |].
    apply all_resolve_nil. }
  exact (Hthrow (take 1 presets) (drop 2 presets)
           {| s_name := "Throughput Focus";
              s_weights := {| w_throughput := dec 7 1; w_risk := dec 2 1;
                              w_cost := dec 1 1 |} |}
           _ 1%nat 2%nat (RequestFailed "Network Error") eq_refl Hone
           (or_introl eq_refl)).
Defined.

Lemma buildGanttTasks_ids_distinct_witness :
  let now := new_Date (num_of_Z (num := float) 1700000000000) in
  NoDup (map fst (machines_of (num := float) (Some example_schedule)))
  /\ NoDup (map id (buildGanttTasks (Some example_schedule) now)).
Proof.
  intros now.
  assert (Hkeys : NoDup (map fst (machines_of (num := float)
                                    (Some example_schedule)))).
  { apply NoDup_singleton. }
  split; [exact Hkeys|].
  exact (buildGanttTasks_ids_distinct (Some example_schedule) now Hkeys).
Defined.

Lemma status_badge_agrees_when_bucketed_witness :
  let m := unknown_record (num := float) in
  In m (highRiskRows snapshot_unknown)
  /\ (statusClass m = riskLevelClass (risk_level m) <-> bucketed m)
  /\ (~ bucketed m ->
      statusClass m = "bg-amber-100 text-amber-800"
      /\ riskLevelClass (risk_level m) = "bg-gray-100 text-gray-800").
Proof.
  intros m.
  assert (Hin : In m (highRiskRows snapshot_unknown)) by (left; reflexivity).
  split; [exact Hin|].
  exact (status_badge_agrees_when_bucketed snapshot_unknown m Hin).
Defined.

Lemma exportMachinesCSV_not_quoted_witness :
  let toFixed2 := fun _ : float => "0.00" in
  let riskData := snapshot_unknown (num := float) in
  (riskData = [] -> False) /\
  exists csvContent : string,
    exportMachinesCSV toFixed2 riskData = Some csvContent
    /\ csvContent
       = "Machine_ID,Health_Score,Risk_Level"
         ++ fold_right
              (fun m rest => newline ++ record_line toFixed2 m ++ rest)
              EmptyString riskData
    /\ count_char ","%char csvContent
       = (2 * S (length riskData)
          + sum_list_with (field_chars toFixed2 ","%char) riskData)%nat
    /\ count_char "010"%char csvContent
       = (length riskData
          + sum_list_with (field_chars toFixed2 "010"%char) riskData)%nat.
Proof.
  intros toFixed2 riskData.
  assert (Hne : riskData <> []) by discriminate.
  split; [exact Hne|].
  destruct (exportMachinesCSV_not_quoted toFixed2 riskData) as [_ Hsome].
  exact (Hsome Hne).
Defined.

Lemma figures_stay_derived_witness :
  let api := sample_api (num := float) 99 in
  let p :=
    page
      (fold_left (handle api) [Refresh; Slide (weights initial)]
         sample_world) in
  scheduleData (dashboard p) = Some example_schedule
  /\ kpis (dashboard p) = kpis_numbers (runPipeline_kpis (riskData p))
  /\ scheduleKpis (dashboard p)
     = scheduleKpis (computeScheduleKpis (Some example_schedule) initial).
Proof.
  intros api p.
  destruct (figures_stay_derived api 0%nat
              [Refresh; Slide (weights initial)]) as [Hkpis Hfigures].
  split; [reflexivity|]. split; [exact Hkpis|].
  exact (Hfigures example_schedule (machines_of (Some example_schedule))
           eq_refl eq_refl).
Defined.

Lemma runPipeline_optimizer_fails_witness :
  let api := sample_api (num := float) 3 in
  let w := sample_world (num := float) in
  generateData api (backend w) = (1%nat, inr tt)
  /\ trainModel api 1%nat = (2%nat, inr tt)
  /\ getHighRisk api 2%nat = (3%nat, inr snapshot_unknown)
  /\ optimizeSchedule api (weights (dashboard (page w))) 3%nat
     = (4%nat, inl (RequestFailed "Network Error"))
  /\ runPipeline api w
     = {| backend := 4%nat;
          page :=
            setLoading false
              (onDashboard
                 (setKpis
                    (kpis_numbers (runPipeline_kpis snapshot_unknown)))
                 (setRiskData snapshot_unknown (page w)));
          console :=
            (console w
             ++ [("Pipeline error:", RequestFailed "Network Error")])%list |}.
Proof.
  intros api w. do 4 (split; [reflexivity|]).
  exact (runPipeline_optimizer_fails api w 1%nat 2%nat 3%nat 4%nat
           snapshot_unknown (RequestFailed "Network Error")
           eq_refl eq_refl eq_refl eq_refl).
Defined.

Lemma runPipeline_survives_scenario_failure_witness :
  let api := sample_api (num := float) 5 in
  let w := sample_world (num := float) in
  let d4 :=
    computeScheduleKpis (Some example_schedule)
      (setScheduleData (Some example_schedule)
         (setKpis (kpis_numbers (runPipeline_kpis snapshot_unknown))
            (dashboard (page w)))) in
  let w' := runPipeline api w in
  generateData api (backend w) = (1%nat, inr tt)
  /\ trainModel api 1%nat = (2%nat, inr tt)
  /\ getHighRisk api 2%nat = (3%nat, inr snapshot_unknown)
  /\ optimizeSchedule api (weights (dashboard (page w))) 3%nat
     = (4%nat, inr example_schedule)
  /\ runWhatIfAnalysis nat (optimizeSchedule api) 4%nat d4
     = (6%nat, d4, Some (RequestFailed "Network Error"))
  /\ getJobs api 6%nat = (7%nat, inr [tt])
  /\ simulateMaintenance api 7%nat = (8%nat, inr [tt; tt])
  /\ backend w' = 8%nat
  /\ jobsData (page w') = [tt]
  /\ maintenanceData (page w') = [tt; tt]
  /\ riskData (page w') = snapshot_unknown
  /\ scheduleData (dashboard (page w')) = Some example_schedule
  /\ scenarioData (dashboard (page w')) = scenarioData (dashboard (page w))
  /\ loading (page w') = false
  /\ console w'
     = (console w
        ++ [("What-if analysis failed:",
             RequestFailed "Network Error")])%list.
Proof.
  intros api w d4 w'. do 7 (split; [reflexivity|]).
  exact (runPipeline_survives_scenario_failure api w 1%nat 2%nat 3%nat 4%nat
           6%nat 7%nat 8%nat snapshot_unknown example_schedule d4
           (RequestFailed "Network Error") [tt] [tt; tt]
           eq_refl eq_refl eq_refl eq_refl eq_refl eq_refl eq_refl).
Defined.

Lemma recomputeSchedule_frame_witness :
  let api := sample_api (num := float) 0 in
  let w := sample_world (num := float) in
  let newWeights := {| w_throughput := dec 5 1; w_risk := dec 9 1;
                       w_cost := dec 45 2 |} in
  let w' := recomputeSchedule api newWeights w in
  optimizeSchedule api newWeights (backend w)
  = (1%nat, inl (RequestFailed "Network Error"))
  /\ scheduleData (dashboard (page w')) = scheduleData (dashboard (page w))
  /\ scheduleKpis (dashboard (page w')) = scheduleKpis (dashboard (page w))
  /\ console w'
     = (console w
        ++ [("Recompute failed:", RequestFailed "Network Error")])%list.
Proof.
  intros api w newWeights w'. split; [reflexivity|].
  destruct (recomputeSchedule_frame api newWeights w)
    as (_ & _ & _ & _ & _ & _ & _ & Hfail).
  exact (Hfail 1%nat (RequestFailed "Network Error") eq_refl).
Defined.

End MoreWitnesses.
